(** * Secure User Profile System: credential and session security layer

    A shallow embedding of the backend's security code
    ([utils/encryption.js], [utils/password.js], [utils/jwt.js],
    [models/User.js], [controllers/authController.js]) and the properties
    its specification states about it.  Further properties follow, of the
    same code and of its callers: [middleware/auth.js], the Aadhaar and
    password handlers of the user controller, and two form helpers of the
    client.

    Conventions of the embedding.
    - A JavaScript string is a [string]: the sequence of the bytes of its
      UTF-8 text, which is what [cipher.update(text, 'utf8', ...)] feeds to
      the cipher; a [Buffer] is a [list byte].  [s.length] is the length
      of the [string], which is JavaScript's count on ASCII text; the
      properties that count characters are about ASCII text.
    - A string is its UTF-8 text only when it is well-formed UTF-16.  The
      plaintext of [encrypt] may be any string, so it is also taken as a
      [Utf16.js_string], the sequence of its code units, with the UTF-8
      encoder and decoder of Node written out.
    - A function that may throw returns a [result]; the thrown value is the
      [Error] object, with its [name] and [message].
    - [crypto.randomBytes] reads an explicit entropy source, threaded through
      the calls that draw from it.
    - [Date.now()] is an explicit argument [now] (milliseconds) of the
      operation that reads the clock.
    - The libraries the code calls are not part of the repository: the AES
      block function, bcrypt and the HMAC of a token are parameters or
      symbolic terms; the CBC mode, the padding, the hex codec and the checks
      of [jwt.verify] are written out. *)

From Stdlib Require Import ZArith NArith Arith List String Ascii Bool Lia.
From Stdlib Require Import Strings.Byte.
Import ListNotations.

Local Open Scope list_scope.

(* ------------------------------------------------------------------ *)
(** ** JavaScript values the code relies on *)

Module JS.

(** An [Error] object as the code observes it: [error.name], [error.message]. *)
Record JsError : Type := mkError { name : string; message : string }.

(** [new Error(msg)] *)
Definition Error (msg : string) : JsError := mkError "Error" msg.

Inductive result (A : Type) : Type :=
| Ok (a : A)
| Throw (e : JsError).
Arguments Ok {A} a.
Arguments Throw {A} e.

Definition bind {A B : Type} (r : result A) (k : A -> result B) : result B :=
  match r with
  | Ok a => k a
  | Throw e => Throw e
  end.

(** [try { body } catch (error) { handler(error) }] *)
Definition try_catch {A : Type} (body : result A) (handler : JsError -> result A)
  : result A :=
  match body with
  | Ok a => Ok a
  | Throw e => handler e
  end.

Definition is_ok {A : Type} (r : result A) : bool :=
  match r with Ok _ => true | Throw _ => false end.

(** Truthiness of a string: only [''] is falsy. *)
Definition truthy (s : string) : bool :=
  match s with
  | EmptyString => false
  | String _ _ => true
  end.

(** Truthiness of a possibly [undefined] string (a destructured array slot). *)
Definition truthy_opt (s : option string) : bool :=
  match s with
  | None => false
  | Some s' => truthy s'
  end.

(** [s.includes(c)] for a one-character needle. *)
Fixpoint includes (c : ascii) (s : string) : bool :=
  match s with
  | EmptyString => false
  | String a s' => if Ascii.eqb a c then true else includes c s'
  end.

(** [s.split(c)] for a one-character separator: never the empty array. *)
Fixpoint split (c : ascii) (s : string) : list string :=
  match s with
  | EmptyString => [EmptyString]
  | String a s' =>
      if Ascii.eqb a c then EmptyString :: split c s'
      else match split c s' with
           | [] => [String a EmptyString]
           | p :: ps => String a p :: ps
           end
  end.

(** [s.charCodeAt(i)]; out of range JavaScript gives [NaN], which the
    bitwise operators read as [0]. *)
Definition charCodeAt (s : string) (i : nat) : Z :=
  match String.get i s with
  | Some c => Z.of_N (N_of_ascii c)
  | None => 0%Z
  end.

(** [s.toLowerCase()] on the ASCII letters. *)
Definition lower_ascii (c : ascii) : ascii :=
  let n := N_of_ascii c in
  if ((65 <=? n) && (n <=? 90))%N then ascii_of_N (n + 32) else c.

Fixpoint toLowerCase (s : string) : string :=
  match s with
  | EmptyString => EmptyString
  | String a s' => String (lower_ascii a) (toLowerCase s')
  end.

End JS.
Import JS.

(* ------------------------------------------------------------------ *)
(** ** Hexadecimal text of a buffer: [buf.toString('hex')], [Buffer.from(s, 'hex')] *)

Module Hex.

Definition hex_digit (n : N) : ascii :=
  match n with
  | 0 => "0" | 1 => "1" | 2 => "2" | 3 => "3" | 4 => "4" | 5 => "5"
  | 6 => "6" | 7 => "7" | 8 => "8" | 9 => "9" | 10 => "a" | 11 => "b"
  | 12 => "c" | 13 => "d" | 14 => "e" | _ => "f"
  end%N%char.

Definition hex_of_byte (b : byte) : string :=
  let n := Byte.to_N b in
  String (hex_digit (n / 16)) (String (hex_digit (n mod 16)) EmptyString).

Fixpoint encode (bs : list byte) : string :=
  match bs with
  | [] => EmptyString
  | b :: rest => (hex_of_byte b ++ encode rest)%string
  end.

Definition hex_value (c : ascii) : option N :=
  let n := N_of_ascii c in
  if ((48 <=? n) && (n <=? 57))%N then Some (n - 48)%N
  else if ((97 <=? n) && (n <=? 102))%N then Some (n - 87)%N
  else if ((65 <=? n) && (n <=? 70))%N then Some (n - 55)%N
  else None.

(** Node decodes pairs of digits up to the first pair that is not
    hexadecimal, and drops a trailing odd digit. *)
Fixpoint decode (s : string) : list byte :=
  match s with
  | String h (String l rest) =>
      match hex_value h, hex_value l with
      | Some x, Some y =>
          match Byte.of_N (16 * x + y) with
          | Some b => b :: decode rest
          | None => []
          end
      | _, _ => []
      end
  | _ => []
  end.

End Hex.

(* ------------------------------------------------------------------ *)
(** ** Node's [crypto] for the algorithm ['aes-256-cbc'] *)

Module Crypto.

(** The AES-256 block function and its inverse, under a 32-byte key. *)
Class AES256 : Type := {
  aes_encrypt_block : list byte -> list byte -> list byte;
  aes_decrypt_block : list byte -> list byte -> list byte
}.

(** What the embedding uses of AES: blocks are 16 bytes, and decryption
    under a key undoes encryption under that key. *)
Definition block_cipher_ok (C : AES256) : Prop :=
  (forall k b, List.length b = 16 -> List.length (aes_encrypt_block k b) = 16) /\
  (forall k b, List.length b = 16 -> aes_decrypt_block k (aes_encrypt_block k b) = b).

(** The entropy [crypto.randomBytes] reads: an unbounded supply of bytes. *)
Definition Entropy : Type := nat -> byte.

Definition randomBytes (n : nat) (g : Entropy) : list byte * Entropy :=
  (List.map g (List.seq 0 n), fun i => g (n + i)).

(** A text held as its UTF-8 bytes, as a buffer and back; the encoder of a
    string of code units is [Utf16.utf8]. *)
Definition utf8 (s : string) : list byte := list_byte_of_string s.
Definition from_utf8 (bs : list byte) : string := string_of_list_byte bs.

Definition xor_bits (x y : bool * (bool * (bool * (bool * (bool * (bool * (bool * bool)))))))
  : bool * (bool * (bool * (bool * (bool * (bool * (bool * bool)))))) :=
  let '(x0, (x1, (x2, (x3, (x4, (x5, (x6, x7))))))) := x in
  let '(y0, (y1, (y2, (y3, (y4, (y5, (y6, y7))))))) := y in
  (xorb x0 y0, (xorb x1 y1, (xorb x2 y2, (xorb x3 y3,
  (xorb x4 y4, (xorb x5 y5, (xorb x6 y6, xorb x7 y7))))))).

Definition byte_xor (a b : byte) : byte :=
  Byte.of_bits (xor_bits (Byte.to_bits a) (Byte.to_bits b)).

Fixpoint xor_bytes (a b : list byte) : list byte :=
  match a, b with
  | x :: a', y :: b' => byte_xor x y :: xor_bytes a' b'
  | _, _ => []
  end.

Definition byte_of_nat (n : nat) : byte :=
  match Byte.of_nat n with
  | Some b => b
  | None => x00
  end.

(** The first [n] 16-byte blocks of [data]. *)
Fixpoint blocks (n : nat) (data : list byte) : list (list byte) :=
  match n with
  | O => []
  | S n' => firstn 16 data :: blocks n' (skipn 16 data)
  end.

Definition full_blocks (data : list byte) : list (list byte) :=
  blocks (List.length data / 16) data.

Definition tail_bytes (data : list byte) : list byte :=
  skipn (16 * (List.length data / 16)) data.

(** A sequence of whole blocks. *)
Definition whole (bs : list (list byte)) : Prop :=
  Forall (fun b => List.length b = 16) bs.

Section Mode.
Context {aes : AES256}.

(** CBC over whole blocks: each block is xored with the previous ciphertext
    block (the IV for the first) and then encrypted.  Returns the output and
    the chaining value for the next block. *)
Fixpoint cbc_encrypt (key chain : list byte) (bs : list (list byte))
  : list byte * list byte :=
  match bs with
  | [] => ([], chain)
  | b :: rest =>
      let c := aes_encrypt_block key (xor_bytes b chain) in
      let '(out, chain') := cbc_encrypt key c rest in
      (c ++ out, chain')
  end.

(** CBC decryption of whole blocks: the plaintext blocks and the next
    chaining value. *)
Fixpoint cbc_decrypt (key chain : list byte) (cs : list (list byte))
  : list (list byte) * list byte :=
  match cs with
  | [] => ([], chain)
  | c :: rest =>
      let p := xor_bytes (aes_decrypt_block key c) chain in
      let '(ps, chain') := cbc_decrypt key c rest in
      (p :: ps, chain')
  end.

(** The object [crypto.createCipheriv] returns. *)
Record Cipher : Type := mkCipher {
  c_key : list byte;
  c_chain : list byte;
  c_buf : list byte
}.

(** The object [crypto.createDecipheriv] returns; [d_held] is the last
    decrypted block, kept back until [final] has checked its padding. *)
Record Decipher : Type := mkDecipher {
  d_key : list byte;
  d_chain : list byte;
  d_buf : list byte;
  d_held : option (list byte)
}.

Definition check_key_iv (key : string) (iv : list byte) : result unit :=
  if negb (List.length (utf8 key) =? 32) then
    Throw (mkError "RangeError" "Invalid key length")
  else if negb (List.length iv =? 16) then
    Throw (mkError "TypeError" "Invalid initialization vector")
  else Ok tt.

Definition createCipheriv (key : string) (iv : list byte) : result Cipher :=
  bind (check_key_iv key iv) (fun _ => Ok (mkCipher (utf8 key) iv [])).

Definition createDecipheriv (key : string) (iv : list byte) : result Decipher :=
  bind (check_key_iv key iv) (fun _ => Ok (mkDecipher (utf8 key) iv [] None)).

(** [cipher.update(data)]: encrypts the whole blocks, buffers the rest. *)
Definition cipher_update (c : Cipher) (data : list byte) : list byte * Cipher :=
  let all := c_buf c ++ data in
  let '(out, chain') := cbc_encrypt (c_key c) (c_chain c) (full_blocks all) in
  (out, mkCipher (c_key c) chain' (tail_bytes all)).

(** [cipher.final()]: pads the buffered bytes to one block (PKCS#7) and
    encrypts it. *)
Definition cipher_final (c : Cipher) : list byte :=
  let n := 16 - List.length (c_buf c) in
  let padded := c_buf c ++ List.repeat (byte_of_nat n) n in
  aes_encrypt_block (c_key c) (xor_bytes padded (c_chain c)).

(** [decipher.update(data)]: decrypts the whole blocks; when the input ends
    on a block boundary the last block is held back for [final]. *)
Definition decipher_update (d : Decipher) (data : list byte)
  : list byte * Decipher :=
  match data with
  | [] => ([], d)
  | _ :: _ =>
      let all := d_buf d ++ data in
      let '(ps, chain') := cbc_decrypt (d_key d) (d_chain d) (full_blocks all) in
      let before := match d_held d with Some f => [f] | None => [] end in
      match tail_bytes all, ps with
      | [], _ :: _ =>
          (List.concat (before ++ removelast ps),
           mkDecipher (d_key d) chain' [] (Some (List.last ps [])))
      | rest, _ =>
          (List.concat (before ++ ps), mkDecipher (d_key d) chain' rest None)
      end
  end.

(** The padding check of [decipher.final()] on the held block. *)
Definition unpad (block : list byte) : option (list byte) :=
  let n := Byte.to_nat (List.last block x00) in
  if (n =? 0) || (16 <? n) then None
  else if forallb (fun b => Byte.to_nat b =? n) (skipn (16 - n) block)
       then Some (firstn (16 - n) block)
       else None.

Definition decipher_final (d : Decipher) : result (list byte) :=
  match d_buf d, d_held d with
  | [], Some f =>
      match unpad f with
      | Some p => Ok p
      | None => Throw (Error "bad decrypt")
      end
  | _, _ => Throw (Error "wrong final block length")
  end.

End Mode.
End Crypto.
Import Crypto.

(* ------------------------------------------------------------------ *)
(** ** JavaScript strings as UTF-16, and Node's UTF-8 encoder and decoder *)

Module Utf16.
Local Open Scope Z_scope.

(** A JavaScript string as the engine holds it: the sequence of its UTF-16
    code units, each in [0, 65535].  A surrogate need not have its partner. *)
Definition js_string : Type := list Z.

Definition is_unit (u : Z) : bool := (0 <=? u) && (u <? 65536).
Definition is_high (u : Z) : bool := (0xD800 <=? u) && (u <=? 0xDBFF).
Definition is_low (u : Z) : bool := (0xDC00 <=? u) && (u <=? 0xDFFF).

(** U+FFFD, the replacement character. *)
Definition replacement : Z := 0xFFFD.

(** No surrogate without its partner: [s.isWellFormed()]. *)
Fixpoint well_formed (s : js_string) : bool :=
  match s with
  | [] => true
  | u :: rest =>
      is_unit u &&
      (if is_high u then
         match rest with
         | v :: rest' => is_low v && well_formed rest'
         | [] => false
         end
       else negb (is_low u) && well_formed rest)
  end.

(** The code points Node's UTF-8 encoder reads off a string: a surrogate
    pair is one supplementary code point, a surrogate without its partner
    is read as U+FFFD. *)
Fixpoint code_points (s : js_string) : list Z :=
  match s with
  | [] => []
  | u :: rest =>
      if is_high u then
        match rest with
        | v :: rest' =>
            if is_low v then
              (0x10000 + (u - 0xD800) * 0x400 + (v - 0xDC00)) :: code_points rest'
            else replacement :: code_points rest
        | [] => [replacement]
        end
      else if is_low u then replacement :: code_points rest
      else u :: code_points rest
  end.

(** A Unicode scalar value: a code point that is not a surrogate. *)
Definition scalar (cp : Z) : Prop :=
  0 <= cp < 0xD800 \/ 0xE000 <= cp <= 0x10FFFF.

(** The code units of a code point. *)
Definition units (cp : Z) : list Z :=
  if cp <? 0x10000 then [cp]
  else [0xD800 + (cp - 0x10000) / 0x400; 0xDC00 + (cp - 0x10000) mod 0x400].

(** [s.toWellFormed()] *)
Definition toWellFormed (s : js_string) : js_string :=
  List.flat_map units (code_points s).

(** The bytes of a code point in UTF-8, as numbers. *)
Definition encode_point (cp : Z) : list Z :=
  if cp <? 0x80 then [cp]
  else if cp <? 0x800 then [0xC0 + cp / 64; 0x80 + cp mod 64]
  else if cp <? 0x10000 then
    [0xE0 + cp / 4096; 0x80 + (cp / 64) mod 64; 0x80 + cp mod 64]
  else
    [0xF0 + cp / 262144; 0x80 + (cp / 4096) mod 64; 0x80 + (cp / 64) mod 64;
     0x80 + cp mod 64].

Definition byte_of_Z (z : Z) : byte := byte_of_nat (Z.to_nat z).
Definition Z_of_byte (b : byte) : Z := Z.of_nat (Byte.to_nat b).

(** The text [cipher.update(text, 'utf8', ...)] and [Buffer.from(text,
    'utf8')] make of a string: its UTF-8 bytes. *)
Definition utf8 (s : js_string) : string :=
  string_of_list_byte (List.map byte_of_Z (List.flat_map encode_point (code_points s))).

Definition between (lo hi b : Z) : bool := (lo <=? b) && (b <=? hi).

(** The UTF-8 decoder, on the numbers of the bytes: a sequence that is
    not well formed gives U+FFFD for its longest prefix that could start a
    character, and decoding goes on at the byte that broke it. *)
Fixpoint decode (bs : list Z) : js_string :=
  match bs with
  | [] => []
  | b0 :: r0 =>
      if b0 <? 0x80 then b0 :: decode r0
      else if between 0xC2 0xDF b0 then
        match r0 with
        | b1 :: r1 =>
            if between 0x80 0xBF b1 then
              ((b0 - 0xC0) * 64 + (b1 - 0x80)) :: decode r1
            else replacement :: decode r0
        | [] => [replacement]
        end
      else if between 0xE0 0xEF b0 then
        match r0 with
        | b1 :: r1 =>
            if between (if b0 =? 0xE0 then 0xA0 else 0x80)
                 (if b0 =? 0xED then 0x9F else 0xBF) b1 then
              match r1 with
              | b2 :: r2 =>
                  if between 0x80 0xBF b2 then
                    ((b0 - 0xE0) * 4096 + (b1 - 0x80) * 64 + (b2 - 0x80)) :: decode r2
                  else replacement :: decode r1
              | [] => [replacement]
              end
            else replacement :: decode r0
        | [] => [replacement]
        end
      else if between 0xF0 0xF4 b0 then
        match r0 with
        | b1 :: r1 =>
            if between (if b0 =? 0xF0 then 0x90 else 0x80)
                 (if b0 =? 0xF4 then 0x8F else 0xBF) b1 then
              match r1 with
              | b2 :: r2 =>
                  if between 0x80 0xBF b2 then
                    match r2 with
                    | b3 :: r3 =>
                        if between 0x80 0xBF b3 then
                          units ((b0 - 0xF0) * 262144 + (b1 - 0x80) * 4096
                                 + (b2 - 0x80) * 64 + (b3 - 0x80)) ++ decode r3
                        else replacement :: decode r2
                    | [] => [replacement]
                    end
                  else replacement :: decode r1
              | [] => [replacement]
              end
            else replacement :: decode r0
        | [] => [replacement]
        end
      else replacement :: decode r0
  end.

(** The string [decipher.update(..., 'utf8')] and [buf.toString('utf8')]
    make of bytes. *)
Definition of_utf8 (text : string) : js_string :=
  decode (List.map Z_of_byte (list_byte_of_string text)).

End Utf16.

(* ------------------------------------------------------------------ *)
(** ** [utils/encryption.js] *)

Module Encryption.

Definition colon : ascii := ":"%char.

Section WithKey.
Context {aes : AES256}.
(** [ENCRYPTION_KEY], read from the environment when the module loads. *)
Variable ENCRYPTION_KEY : string.

(** [encrypt(text)]: the blob and what is left of the entropy. *)
Definition encrypt (text : string) (g : Entropy) : result string * Entropy :=
  if negb (truthy text) then
    (Throw (Error "Text to encrypt cannot be empty"), g)
  else
    let '(iv, g') := randomBytes 16 g in
    (bind (createCipheriv ENCRYPTION_KEY iv) (fun cipher =>
       let '(out, cipher') := cipher_update cipher (utf8 text) in
       let encrypted := (Hex.encode out ++ Hex.encode (cipher_final cipher'))%string in
       Ok (Hex.encode iv ++ String colon encrypted)%string),
     g').

(** The body of the [try] block of [decrypt]. *)
Definition decrypt_body (encryptedText : string) : result string :=
  let parts := split colon encryptedText in
  let ivHex := nth_error parts 0 in
  let encrypted := nth_error parts 1 in
  if negb (truthy_opt ivHex) || negb (truthy_opt encrypted) then
    Throw (Error "Invalid encrypted text format")
  else
    let iv := Hex.decode (match ivHex with Some s => s | None => EmptyString end) in
    bind (createDecipheriv ENCRYPTION_KEY iv) (fun decipher =>
      let '(out, decipher') :=
        decipher_update decipher
          (Hex.decode (match encrypted with Some s => s | None => EmptyString end)) in
      bind (decipher_final decipher') (fun last =>
        Ok (from_utf8 out ++ from_utf8 last)%string)).

Definition decrypt (encryptedText : string) : result string :=
  if negb (truthy encryptedText) || negb (includes colon encryptedText) then
    Throw (Error "Invalid encrypted text format")
  else
    try_catch (decrypt_body encryptedText)
      (fun error => Throw (Error ("Failed to decrypt data: " ++ message error)%string)).

(** [encrypt(text)] on a string of code units: [cipher.update(text, 'utf8',
    'hex')] encodes it as UTF-8. *)
Definition encrypt_text (text : Utf16.js_string) (g : Entropy)
  : result string * Entropy :=
  encrypt (Utf16.utf8 text) g.

(** [decrypt(encryptedText)], its result as a string of code units:
    [decipher.update(encrypted, 'hex', 'utf8')] and [decipher.final('utf8')]
    decode the bytes. *)
Definition decrypt_text (encryptedText : string) : result Utf16.js_string :=
  match decrypt encryptedText with
  | Ok text => Ok (Utf16.of_utf8 text)
  | Throw e => Throw e
  end.

End WithKey.

(** [isValidEncryptedFormat(encryptedText)] on a string argument. *)
Definition isValidEncryptedFormat (encryptedText : string) : bool :=
  includes colon encryptedText &&
  (List.length (split colon encryptedText) =? 2).

(** [secureCompare(a, b)] *)
Definition secureCompare (a b : string) : bool :=
  if negb (truthy a) || negb (truthy b)
     || negb (String.length a =? String.length b) then false
  else
    let result :=
      List.fold_left
        (fun result i => Z.lor result (Z.lxor (charCodeAt a i) (charCodeAt b i)))
        (List.seq 0 (String.length a)) 0%Z in
    (result =? 0)%Z.

End Encryption.

(* ------------------------------------------------------------------ *)
(** ** [utils/password.js] *)

Module Password.

(** An argument that JavaScript does not force to be a string. *)
Inductive value : Type :=
| Undefined
| Null
| Str (s : string)
| Num (n : Z)
| Boolean (b : bool).

Definition truthy_value (v : value) : bool :=
  match v with
  | Undefined | Null => false
  | Str s => truthy s
  | Num n => negb (n =? 0)%Z
  | Boolean b => b
  end.

(** The [bcrypt] package: [bcrypt.hash] with the salt it draws made explicit,
    and [bcrypt.compare].  Both may reject. *)
Class Bcrypt : Type := {
  bcrypt_hash : string -> Z -> list byte -> result string;
  bcrypt_compare : value -> value -> result bool
}.

Section WithRounds.
Context {bc : Bcrypt}.
(** [SALT_ROUNDS = parseInt(process.env.BCRYPT_ROUNDS) || 12] *)
Variable SALT_ROUNDS : Z.

Definition hashPassword (password : string) (g : Entropy)
  : result string * Entropy :=
  if negb (truthy password) then
    (Throw (Error "Password cannot be empty"), g)
  else if String.length password <? 6 then
    (Throw (Error "Password must be at least 6 characters long"), g)
  else
    let '(salt, g') := randomBytes 16 g in
    (try_catch (bcrypt_hash password SALT_ROUNDS salt)
       (fun error => Throw (Error ("Failed to hash password: " ++ message error)%string)),
     g').

Definition comparePassword (password hashedPassword : value) : result bool :=
  if negb (truthy_value password) || negb (truthy_value hashedPassword) then
    Ok false
  else
    try_catch (bcrypt_compare password hashedPassword)
      (fun _ => Ok false).

End WithRounds.
End Password.
Import Password.

(* ------------------------------------------------------------------ *)
(** ** [utils/jwt.js] over a model of the [jsonwebtoken] package *)

Module Jwt.

Definition opt_eqb {A : Type} (eqb : A -> A -> bool) (x y : option A) : bool :=
  match x, y with
  | Some a, Some b => eqb a b
  | None, None => true
  | _, _ => false
  end.

(** The claims of a token payload; an absent claim is [None]. *)
Record Payload : Type := mkPayload {
  userId : option string;
  email : option string;
  type : option string;
  iat : option Z;
  exp : option Z;
  nbf : option Z;
  iss : option string;
  aud : option string
}.

Definition payload_eqb (p q : Payload) : bool :=
  opt_eqb String.eqb (userId p) (userId q) &&
  opt_eqb String.eqb (email p) (email q) &&
  opt_eqb String.eqb (type p) (type q) &&
  opt_eqb Z.eqb (iat p) (iat q) &&
  opt_eqb Z.eqb (exp p) (exp q) &&
  opt_eqb Z.eqb (nbf p) (nbf q) &&
  opt_eqb String.eqb (iss p) (iss q) &&
  opt_eqb String.eqb (aud p) (aud q).

(** The HS256 signature of a payload under a secret, as a symbolic term:
    two signatures are equal exactly when secret and payload are. *)
Inductive Signature : Type :=
| HS256 (secret : string) (p : Payload).

Definition signature_eqb (s t : Signature) : bool :=
  match s, t with
  | HS256 k p, HS256 k' p' => String.eqb k k' && payload_eqb p p'
  end.

(** A token string as [jwt.verify] reads it: empty, not three well-formed
    segments, or a payload with a signature. *)
Inductive Token : Type :=
| NoToken
| Malformed
| Signed (p : Payload) (sig : Signature).

Definition truthy_token (t : Token) : bool :=
  match t with NoToken => false | _ => true end.

Record SignOptions : Type := mkSignOptions {
  so_expiresIn : Z;
  so_issuer : string;
  so_audience : string
}.

Record VerifyOptions : Type := mkVerifyOptions {
  vo_issuer : string;
  vo_audience : string
}.

(** [jwt.sign(payload, secret, options)]: the expiry is counted in seconds
    from the payload's [iat]. *)
Definition sign (p : Payload) (secret : string) (o : SignOptions) : result Token :=
  if negb (truthy secret) then
    Throw (Error "secretOrPrivateKey must have a value")
  else
    let p' := mkPayload (userId p) (email p) (type p) (iat p)
                (match iat p with
                 | Some t => Some (t + so_expiresIn o)%Z
                 | None => None
                 end)
                (nbf p) (Some (so_issuer o)) (Some (so_audience o)) in
    Ok (Signed p' (HS256 secret p')).

(** [jwt.verify(token, secret, options)] at the clock reading
    [clockTimestamp] (seconds): signature, then [nbf], then [exp], then
    audience, then issuer. *)
Definition verify (t : Token) (secret : string) (o : VerifyOptions)
  (clockTimestamp : Z) : result Payload :=
  match t with
  | NoToken => Throw (mkError "JsonWebTokenError" "jwt must be provided")
  | Malformed => Throw (mkError "JsonWebTokenError" "jwt malformed")
  | Signed p sig =>
      if negb (signature_eqb sig (HS256 secret p)) then
        Throw (mkError "JsonWebTokenError" "invalid signature")
      else if match nbf p with Some n => (clockTimestamp <? n)%Z | None => false end then
        Throw (mkError "NotBeforeError" "jwt not active")
      else if match exp p with Some e => (e <=? clockTimestamp)%Z | None => false end then
        Throw (mkError "TokenExpiredError" "jwt expired")
      else if negb (opt_eqb String.eqb (aud p) (Some (vo_audience o))) then
        Throw (mkError "JsonWebTokenError"
                 ("jwt audience invalid. expected: " ++ vo_audience o)%string)
      else if negb (opt_eqb String.eqb (iss p) (Some (vo_issuer o))) then
        Throw (mkError "JsonWebTokenError"
                 ("jwt issuer invalid. expected: " ++ vo_issuer o)%string)
      else Ok p
  end.

(** The argument of [generateToken] and [generateRefreshToken]. *)
Record TokenRequest : Type := mkTokenRequest {
  tr_userId : option string;
  tr_email : option string
}.

(** [Math.floor(Date.now() / 1000)] *)
Definition seconds (now : Z) : Z := (now / 1000)%Z.

Section WithSecret.
(** [JWT_SECRET]; the [expiresIn] of [generateToken] is in seconds, and its
    callers pass [JWT_EXPIRE] (['24h'] by default). *)
Variable JWT_SECRET : string.

Definition generateToken (payload : TokenRequest) (expiresIn : Z) (now : Z)
  : result Token :=
  if negb (truthy_opt (tr_userId payload)) then
    Throw (Error "Payload must contain userId")
  else
    let tokenPayload :=
      mkPayload (tr_userId payload) (tr_email payload) None
        (Some (seconds now)) None None None None in
    try_catch
      (sign tokenPayload JWT_SECRET
         (mkSignOptions expiresIn "lenden-app" "lenden-users"))
      (fun error => Throw (Error ("Failed to generate token: " ++ message error)%string)).

Definition verifyToken (token : Token) (now : Z) : result Payload :=
  if negb (truthy_token token) then Throw (Error "Token is required")
  else
    try_catch
      (verify token JWT_SECRET (mkVerifyOptions "lenden-app" "lenden-users")
         (seconds now))
      (fun error =>
         if String.eqb (name error) "TokenExpiredError" then
           Throw (Error "Token has expired")
         else if String.eqb (name error) "JsonWebTokenError" then
           Throw (Error "Invalid token")
         else if String.eqb (name error) "NotBeforeError" then
           Throw (Error "Token not active yet")
         else
           Throw (Error ("Token verification failed: " ++ message error)%string)).

Definition generateRefreshToken (payload : TokenRequest) (now : Z)
  : result Token :=
  if negb (truthy_opt (tr_userId payload)) then
    Throw (Error "Payload must contain userId")
  else
    let refreshPayload :=
      mkPayload (tr_userId payload) None (Some "refresh"%string)
        (Some (seconds now)) None None None None in
    try_catch
      (sign refreshPayload JWT_SECRET
         (mkSignOptions 604800 "lenden-app" "lenden-refresh"))
      (fun error =>
         Throw (Error ("Failed to generate refresh token: " ++ message error)%string)).

Definition verifyRefreshToken (refreshToken : Token) (now : Z) : result Payload :=
  if negb (truthy_token refreshToken) then
    Throw (Error "Refresh token is required")
  else
    try_catch
      (bind
         (verify refreshToken JWT_SECRET
            (mkVerifyOptions "lenden-app" "lenden-refresh") (seconds now))
         (fun decoded =>
            if negb (opt_eqb String.eqb (type decoded) (Some "refresh"%string)) then
              Throw (Error "Invalid refresh token")
            else Ok decoded))
      (fun error =>
         if String.eqb (name error) "TokenExpiredError" then
           Throw (Error "Refresh token has expired")
         else if String.eqb (name error) "JsonWebTokenError" then
           Throw (Error "Invalid refresh token")
         else
           Throw (Error ("Refresh token verification failed: " ++ message error)%string)).

End WithSecret.
End Jwt.

(* ------------------------------------------------------------------ *)
(** ** The configuration the modules read from [process.env] when they load *)

Record Config : Type := mkConfig {
  ENCRYPTION_KEY : string;
  SALT_ROUNDS : Z;
  JWT_SECRET : string;
  JWT_EXPIRE : Z
}.

(* ------------------------------------------------------------------ *)
(** ** [models/User.js] *)

Module UserModel.

(** The stored fields of a user the security code reads or writes; a field
    absent from the stored document is [None]. *)
Record Fields : Type := mkFields {
  _id : string;
  email : string;
  password : string;
  aadhaarNumber : string;
  status : string;
  lastLogin : option Z;
  loginAttempts : option Z;
  lockUntil : option Z
}.

Inductive Path : Type :=
| PPassword
| PAadhaarNumber
| PLastLogin.

Definition path_eqb (p q : Path) : bool :=
  match p, q with
  | PPassword, PPassword => true
  | PAadhaarNumber, PAadhaarNumber => true
  | PLastLogin, PLastLogin => true
  | _, _ => false
  end.

(** A Mongoose document in memory: its fields, [isNew], and the paths
    assigned since it was loaded. *)
Record Document : Type := mkDocument {
  fields : Fields;
  isNew : bool;
  modifiedPaths : list Path
}.

Definition isModified (p : Path) (d : Document) : bool :=
  existsb (path_eqb p) (modifiedPaths d).

Definition mark (p : Path) (changed : bool) (d : Document) : list Path :=
  if changed && negb (isModified p d) then p :: modifiedPaths d
  else modifiedPaths d.

(** [this.password = v] *)
Definition set_password (v : string) (d : Document) : Document :=
  let f := fields d in
  mkDocument
    (mkFields (_id f) (email f) v (aadhaarNumber f) (status f)
       (lastLogin f) (loginAttempts f) (lockUntil f))
    (isNew d) (mark PPassword (negb (String.eqb (password f) v)) d).

(** [this.aadhaarNumber = v] *)
Definition set_aadhaarNumber (v : string) (d : Document) : Document :=
  let f := fields d in
  mkDocument
    (mkFields (_id f) (email f) (password f) v (status f)
       (lastLogin f) (loginAttempts f) (lockUntil f))
    (isNew d) (mark PAadhaarNumber (negb (String.eqb (aadhaarNumber f) v)) d).

(** [this.lastLogin = v] *)
Definition set_lastLogin (v : option Z) (d : Document) : Document :=
  let f := fields d in
  mkDocument
    (mkFields (_id f) (email f) (password f) (aadhaarNumber f) (status f)
       v (loginAttempts f) (lockUntil f))
    (isNew d) (mark PLastLogin (negb (Jwt.opt_eqb Z.eqb (lastLogin f) v)) d).

(** [this.loginAttempts]: the schema default [0] stands for an absent field. *)
Definition loginAttempts_of (u : Fields) : Z :=
  match loginAttempts u with
  | Some n => n
  | None => 0%Z
  end.

(** The virtual [isLocked]: [!!(this.lockUntil && this.lockUntil > Date.now())] *)
Definition isLocked (u : Fields) (now : Z) : bool :=
  match lockUntil u with
  | Some t => (t >? now)%Z
  | None => false
  end.

(** The update document given to [updateOne]: [$set], [$unset], [$inc]. *)
Record Update : Type := mkUpdate {
  set_loginAttempts : option Z;
  set_lockUntil : option Z;
  unset_loginAttempts : bool;
  unset_lockUntil : bool;
  inc_loginAttempts : option Z
}.

Definition no_update : Update := mkUpdate None None false false None.

Definition apply_update (upd : Update) (u : Fields) : Fields :=
  let attempts :=
    if unset_loginAttempts upd then None
    else match set_loginAttempts upd with
         | Some v => Some v
         | None =>
             match inc_loginAttempts upd with
             | Some k => Some (loginAttempts_of u + k)%Z
             | None => loginAttempts u
             end
         end in
  let lock :=
    if unset_lockUntil upd then None
    else match set_lockUntil upd with
         | Some t => Some t
         | None => lockUntil u
         end in
  mkFields (_id u) (email u) (password u) (aadhaarNumber u) (status u)
    (lastLogin u) attempts lock.

(** [incLoginAttempts]: the update it sends. *)
Definition incLoginAttempts (u : Fields) (now : Z) : Update :=
  if match lockUntil u with Some t => (t <? now)%Z | None => false end then
    mkUpdate (Some 1%Z) None false true None
  else
    let updates := mkUpdate None None false false (Some 1%Z) in
    if (loginAttempts_of u + 1 >=? 5)%Z && negb (isLocked u now) then
      mkUpdate None (Some (now + 2 * 60 * 60 * 1000)%Z) false false
        (inc_loginAttempts updates)
    else updates.

(** The stored user after [incLoginAttempts] at time [t]. *)
Definition failed (u : Fields) (t : Z) : Fields :=
  apply_update (incLoginAttempts u t) u.

(** [resetLoginAttempts]: the update it sends. *)
Definition resetLoginAttempts : Update :=
  mkUpdate None None true true None.

(** The collection, in insertion order. *)
Definition DB : Type := list Fields.

(** [User.findByEmail(email)] *)
Definition findByEmail (e : string) (db : DB) : option Fields :=
  List.find (fun u => String.eqb (email u) (toLowerCase e)) db.

(** [this.updateOne(upd)]: applied to the stored document with this [_id]. *)
Fixpoint updateOne (id : string) (upd : Update) (db : DB) : DB :=
  match db with
  | [] => []
  | u :: rest =>
      if String.eqb (_id u) id then apply_update upd u :: rest
      else u :: updateOne id upd rest
  end.

Definition store_path (src : Fields) (dst : Fields) (p : Path) : Fields :=
  match p with
  | PPassword =>
      mkFields (_id dst) (email dst) (password src) (aadhaarNumber dst)
        (status dst) (lastLogin dst) (loginAttempts dst) (lockUntil dst)
  | PAadhaarNumber =>
      mkFields (_id dst) (email dst) (password dst) (aadhaarNumber src)
        (status dst) (lastLogin dst) (loginAttempts dst) (lockUntil dst)
  | PLastLogin =>
      mkFields (_id dst) (email dst) (password dst) (aadhaarNumber dst)
        (status dst) (lastLogin src) (loginAttempts dst) (lockUntil dst)
  end.

Fixpoint store (d : Document) (db : DB) : DB :=
  match db with
  | [] => []
  | u :: rest =>
      if String.eqb (_id u) (_id (fields d)) then
        List.fold_left (store_path (fields d)) (modifiedPaths d) u :: rest
      else u :: store d rest
  end.

(** The condition under which the [pre('save')] hook looks at
    [aadhaarNumber]: [this.isNew || this.isModified('aadhaarNumber')]. *)
Definition aadhaar_due (d : Document) : bool :=
  isNew d || isModified PAadhaarNumber d.

Section Hooks.
Context {aes : AES256} {bc : Bcrypt}.
Variable cfg : Config.

(** The [pre('save')] hook: what it passes to [next], the document as it
    leaves it, and the entropy left. *)
Definition preSave (d : Document) (g : Entropy)
  : option JsError * Document * Entropy :=
  let '(r1, d1, g1) :=
    if isNew d || isModified PPassword d then
      match hashPassword (SALT_ROUNDS cfg) (password (fields d)) g with
      | (Ok hashed, g') => (None, set_password hashed d, g')
      | (Throw e, g') => (Some e, d, g')
      end
    else (None, d, g) in
  match r1 with
  | Some e => (Some e, d1, g1)
  | None =>
      if isNew d1 || isModified PAadhaarNumber d1 then
        if negb (includes Encryption.colon (aadhaarNumber (fields d1))) then
          match Encryption.encrypt (ENCRYPTION_KEY cfg) (aadhaarNumber (fields d1)) g1 with
          | (Ok blob, g2) => (None, set_aadhaarNumber blob d1, g2)
          | (Throw e, g2) => (Some e, d1, g2)
          end
        else (None, d1, g1)
      else (None, d1, g1)
  end.

(** [doc.save()]: the hook, then the modified paths are written (a new
    document is inserted).  Schema validation is left out. *)
Definition save (d : Document) (db : DB) (g : Entropy)
  : result Document * DB * Entropy :=
  match preSave d g with
  | (Some e, _, g') => (Throw e, db, g')
  | (None, d', g') =>
      (Ok (mkDocument (fields d') false []),
       (if isNew d' then db ++ [fields d'] else store d' db),
       g')
  end.

End Hooks.
End UserModel.

(* ------------------------------------------------------------------ *)
(** ** [controllers/authController.js]: [login] *)

Module AuthController.
Import UserModel.

(** What a request does besides answering: calls of [bcrypt.compare] and
    writes to the collection, in order. *)
Inductive Event : Type :=
| BcryptCompare (candidate hash : string)
| UpdateOne (id : string) (upd : Update)
| Save (id : string).

(** [getSafeUserData()]: the fields of the model that leave the server. *)
Record SafeUser : Type := mkSafeUser {
  su_id : string;
  su_email : string;
  su_status : string;
  su_lastLogin : option Z
}.

Record LoginData : Type := mkLoginData {
  ld_user : SafeUser;
  ld_token : Jwt.Token;
  ld_refreshToken : Jwt.Token;
  ld_expiresIn : Z
}.

(** [res.status(s).json({success, message, data})], or [next(error)]. *)
Inductive Response : Type :=
| Json (code : Z) (success : bool) (msg : string) (data : option LoginData)
| Next (e : JsError).

Record Outcome : Type := mkOutcome {
  response : Response;
  db_after : DB;
  entropy_after : Entropy;
  trace : list Event
}.

(** The message of the 423 answer. *)
Definition locked_message : string :=
  "Account is temporarily locked due to too many failed login attempts. Please try again later.".

(** A login request: the body fields and the time it is served. *)
Record Request : Type := mkRequest {
  rq_email : string;
  rq_password : string;
  rq_at : Z
}.

Section Handlers.
Context {aes : AES256} {bc : Bcrypt}.
Variable cfg : Config.

Definition login (email password : string) (now : Z) (db : DB) (g : Entropy)
  : Outcome :=
  if negb (truthy email) || negb (truthy password) then
    mkOutcome (Json 400 false "Email and password are required" None) db g []
  else
    match findByEmail email db with
    | None =>
        mkOutcome (Json 401 false "Invalid email or password" None) db g []
    | Some user =>
        if isLocked user now then
          mkOutcome
            (Json 423 false
               "Account is temporarily locked due to too many failed login attempts. Please try again later."
               None) db g []
        else if negb (String.eqb (UserModel.status user) "active") then
          mkOutcome
            (Json 401 false "Account is inactive. Please contact support." None)
            db g []
        else
          let compared := BcryptCompare password (UserModel.password user) in
          match bcrypt_compare (Str password) (Str (UserModel.password user)) with
          | Throw e => mkOutcome (Next e) db g [compared]
          | Ok false =>
              let upd := incLoginAttempts user now in
              mkOutcome (Json 401 false "Incorrect Password!" None)
                (updateOne (_id user) upd db) g
                [compared; UpdateOne (_id user) upd]
          | Ok true =>
              let '(db1, tr1) :=
                if (loginAttempts_of user >? 0)%Z then
                  (updateOne (_id user) resetLoginAttempts db,
                   [UpdateOne (_id user) resetLoginAttempts])
                else (db, []) in
              let doc := set_lastLogin (Some now) (mkDocument user false []) in
              match save cfg doc db1 g with
              | (Throw e, db2, g') =>
                  mkOutcome (Next e) db2 g' (compared :: tr1)
              | (Ok doc', db2, g') =>
                  let tr := compared :: tr1 ++ [Save (_id user)] in
                  let u := fields doc' in
                  match Jwt.generateToken (JWT_SECRET cfg)
                          (Jwt.mkTokenRequest (Some (_id u)) (Some (UserModel.email u)))
                          (JWT_EXPIRE cfg) now with
                  | Throw e => mkOutcome (Next e) db2 g' tr
                  | Ok token =>
                      match Jwt.generateRefreshToken (JWT_SECRET cfg)
                              (Jwt.mkTokenRequest (Some (_id u)) None) now with
                      | Throw e => mkOutcome (Next e) db2 g' tr
                      | Ok refreshToken =>
                          mkOutcome
                            (Json 200 true "Login successful"
                               (Some (mkLoginData
                                        (mkSafeUser (_id u) (UserModel.email u)
                                           (UserModel.status u) (lastLogin u))
                                        token refreshToken (JWT_EXPIRE cfg))))
                            db2 g' tr
                      end
                  end
              end
          end
    end.

(** Login requests served one after the other. *)
Fixpoint serve (requests : list Request) (db : DB) (g : Entropy) : DB * Entropy :=
  match requests with
  | [] => (db, g)
  | r :: rest =>
      let o := login (rq_email r) (rq_password r) (rq_at r) db g in
      serve rest (db_after o) (entropy_after o)
  end.

End Handlers.
End AuthController.

(* ------------------------------------------------------------------ *)
(** ** [utils/encryption.js]: the key the module loads *)

Module KeyLoading.

Definition default_key : string := "default-32-char-key-change-this!!".

(** [process.env.ENCRYPTION_SECRET || '...'], then the length check that runs
    when the module is required; an unset variable is [None]. *)
Definition load (ENCRYPTION_SECRET : option string) : result string :=
  let key :=
    match ENCRYPTION_SECRET with
    | Some s => if truthy s then s else default_key
    | None => default_key
    end in
  if negb (String.length key =? 32) then
    Throw (Error "Encryption key must be exactly 32 characters long")
  else Ok key.

End KeyLoading.

(* ------------------------------------------------------------------ *)
(** ** [utils/password.js]: [validatePasswordStrength] *)

Module PasswordStrength.

Definition code_between (lo hi : N) (c : ascii) : bool :=
  ((lo <=? N_of_ascii c) && (N_of_ascii c <=? hi))%N.

(** [/[A-Z]/], [/[a-z]/], [/\d/] *)
Definition is_upper : ascii -> bool := code_between 65 90.
Definition is_lower : ascii -> bool := code_between 97 122.
Definition is_digit : ascii -> bool := code_between 48 57.

(** The class of the last pattern: ! @ # $ % ^ & * ( ) , . ? the double
    quote (code 34) : { } | < > *)
Definition special_characters : list ascii :=
  ["!"; "@"; "#"; "$"; "%"; "^"; "&"; "*"; "("; ")"; ","; "."; "?"; "034";
   ":"; "{"; "}"; "|"; "<"; ">"]%char.

Definition is_special (c : ascii) : bool :=
  existsb (Ascii.eqb c) special_characters.

(** [regex.test(s)] for a pattern that is one character class. *)
Fixpoint has (class : ascii -> bool) (s : string) : bool :=
  match s with
  | EmptyString => false
  | String c s' => class c || has class s'
  end.

Definition commonPasswords : list string :=
  ["password"; "123456"; "password123"; "admin"; "qwerty";
   "12345678"; "password1"; "welcome"; "letmein"; "monkey"]%string.

Record Validation : Type := mkValidation {
  isValid : bool;
  errors : list string
}.

Definition too_short : string := "Password must be at least 8 characters long".
Definition too_long : string := "Password must be less than 128 characters long".
Definition no_upper : string := "Password must contain at least one uppercase letter".
Definition no_lower : string := "Password must contain at least one lowercase letter".
Definition no_digit : string := "Password must contain at least one number".
Definition no_special : string := "Password must contain at least one special character".
Definition too_common : string :=
  "Password is too common. Please choose a stronger password".

(** [if (cond) errors.push(msg)] *)
Definition push_if (cond : bool) (msg : string) (errors : list string) : list string :=
  if cond then errors ++ [msg] else errors.

Definition validatePasswordStrength (password : string) : Validation :=
  if negb (truthy password) then
    mkValidation false ["Password is required"%string]
  else
    let errors := [] in
    let errors := push_if (String.length password <? 8) too_short errors in
    let errors := push_if (128 <? String.length password) too_long errors in
    let errors := push_if (negb (has is_upper password)) no_upper errors in
    let errors := push_if (negb (has is_lower password)) no_lower errors in
    let errors := push_if (negb (has is_digit password)) no_digit errors in
    let errors := push_if (negb (has is_special password)) no_special errors in
    let errors :=
      push_if (existsb (String.eqb (toLowerCase password)) commonPasswords)
        too_common errors in
    mkValidation (List.length errors =? 0) errors.

End PasswordStrength.

(* ------------------------------------------------------------------ *)
(** ** [utils/jwt.js]: the header and the unverified reading of a token *)

Module JwtTools.
Import Jwt.

Definition space : ascii := " "%char.

(** [extractTokenFromHeader(authHeader)]; [null] is [None], and so is an
    absent header on the way in. *)
Definition extractTokenFromHeader (authHeader : option string) : option string :=
  match authHeader with
  | None => None
  | Some header =>
      if negb (truthy header) then None
      else
        let parts := split space header in
        if negb (List.length parts =? 2)
           || negb (Jwt.opt_eqb String.eqb (nth_error parts 0) (Some "Bearer"%string))
        then None
        else nth_error parts 1
  end.

(** [jwt.decode(token)]: the payload, unverified; [null] when the string is
    not a token. *)
Definition decode (t : Token) : option Payload :=
  match t with
  | Signed p _ => Some p
  | _ => None
  end.

(** [decodeToken(token)] *)
Definition decodeToken (t : Token) : result (option Payload) :=
  if negb (truthy_token t) then Throw (Error "Token is required")
  else Ok (decode t).

(** [isTokenExpired(token)]: [!decoded.exp] holds for an absent [exp] and
    for [exp = 0]. *)
Definition isTokenExpired (t : Token) (now : Z) : bool :=
  match decode t with
  | None => true
  | Some decoded =>
      match exp decoded with
      | None => true
      | Some e =>
          if (e =? 0)%Z then true
          else (e <? seconds now)%Z
      end
  end.

(** The payload [jwt.sign] signs for [generateToken] and for
    [generateRefreshToken], issued at [issued] (milliseconds). *)
Definition access_payload (req : TokenRequest) (expiresIn issued : Z) : Payload :=
  mkPayload (tr_userId req) (tr_email req) None (Some (seconds issued))
    (Some (seconds issued + expiresIn)%Z) None
    (Some "lenden-app"%string) (Some "lenden-users"%string).

Definition refresh_payload (req : TokenRequest) (issued : Z) : Payload :=
  mkPayload (tr_userId req) None (Some "refresh"%string) (Some (seconds issued))
    (Some (seconds issued + 604800)%Z) None
    (Some "lenden-app"%string) (Some "lenden-refresh"%string).

End JwtTools.
(* ------------------------------------------------------------------ *)
(** ** The text [^[0-9a-f]*$] *)

Module HexText.

Definition lower_hex_digit (c : ascii) : bool :=
  PasswordStrength.code_between 48 57 c || PasswordStrength.code_between 97 102 c.

Fixpoint lower_hex (s : string) : bool :=
  match s with
  | EmptyString => true
  | String c s' => lower_hex_digit c && lower_hex s'
  end.

End HexText.
(* ------------------------------------------------------------------ *)
(** ** [models/User.js]: the methods that read a user *)

Module UserMethods.
Import UserModel.

(** [User.findById(id)] *)
Definition findById (id : string) (db : DB) : option Fields :=
  List.find (fun u => String.eqb (_id u) id) db.

(** What the login handler never writes: the identity and the secrets of a
    stored user. *)
Definition credentials (u : Fields) : string * string * string * string * string :=
  (_id u, email u, password u, aadhaarNumber u, status u).

(** The count of attempts is not negative, and a stored lock comes with at
    least five counted attempts. *)
Definition lock_counted (u : Fields) : Prop :=
  (0 <= loginAttempts_of u)%Z /\
  forall t, lockUntil u = Some t -> (5 <= loginAttempts_of u)%Z.

(** The object [getProfileData] returns, over the fields of the embedding:
    the counters, the lock and the password are deleted, [aadhaarNumber] is
    the decrypted value or is deleted. *)
Record ProfileData : Type := mkProfileData {
  pd_id : string;
  pd_email : string;
  pd_status : string;
  pd_lastLogin : option Z;
  pd_aadhaarNumber : option string
}.

Section Methods.
Context {aes : AES256}.
Variable cfg : Config.

(** [getDecryptedAadhaar()] *)
Definition getDecryptedAadhaar (u : Fields) : result string :=
  try_catch (Encryption.decrypt (ENCRYPTION_KEY cfg) (aadhaarNumber u))
    (fun _ => Throw (Error "Failed to decrypt Aadhaar number")).

(** [getProfileData()] *)
Definition getProfileData (u : Fields) : ProfileData :=
  mkProfileData (_id u) (email u) (status u) (lastLogin u)
    (match getDecryptedAadhaar u with
     | Ok plain => Some plain
     | Throw _ => None
     end).

End Methods.
End UserMethods.

(* ------------------------------------------------------------------ *)
(** ** The user controller: [updateAadhaar], [changePassword] *)

Module UserController.
Import UserModel UserMethods.

(** [/^\d{12}$/.test(s)] *)
Fixpoint all_digits (s : string) : bool :=
  match s with
  | EmptyString => true
  | String c s' => PasswordStrength.is_digit c && all_digits s'
  end.

Definition is_aadhaar (s : string) : bool :=
  (String.length s =? 12) && all_digits s.

(** [res.status(code).json({success, message, errors, data: {updatedAt}})],
    or [next(error)]. *)
Inductive Response : Type :=
| Json (code : Z) (success : bool) (msg : string) (errors : list string)
       (updatedAt : option Z)
| Next (e : JsError).

Record Outcome : Type := mkOutcome {
  response : Response;
  db_after : DB;
  entropy_after : Entropy
}.

Section Handlers.
Context {aes : AES256} {bc : Bcrypt}.
Variable cfg : Config.

(** [updateAadhaar]: [userId] is [req.user.userId]. *)
Definition updateAadhaar (userId aadhaarNumber currentPassword : string)
  (now : Z) (db : DB) (g : Entropy) : Outcome :=
  if negb (truthy aadhaarNumber) || negb (truthy currentPassword) then
    mkOutcome
      (Json 400 false "Aadhaar number and current password are required" [] None)
      db g
  else if negb (is_aadhaar aadhaarNumber) then
    mkOutcome (Json 400 false "Aadhaar number must be exactly 12 digits" [] None) db g
  else
    match findById userId db with
    | None => mkOutcome (Json 404 false "User not found" [] None) db g
    | Some user =>
        match bcrypt_compare (Str currentPassword) (Str (password user)) with
        | Throw e => mkOutcome (Next e) db g
        | Ok false => mkOutcome (Json 401 false "Incorrect Password!" [] None) db g
        | Ok true =>
            let same :=
              match getDecryptedAadhaar cfg user with
              | Ok currentAadhaar => String.eqb currentAadhaar aadhaarNumber
              | Throw _ => false
              end in
            if same then
              mkOutcome
                (Json 400 false "New Aadhaar number is the same as current one" [] None)
                db g
            else
              let doc := set_aadhaarNumber aadhaarNumber (mkDocument user false []) in
              match save cfg doc db g with
              | (Throw e, db', g') => mkOutcome (Next e) db' g'
              | (Ok _, db', g') =>
                  mkOutcome
                    (Json 200 true "Aadhaar number updated successfully" [] (Some now))
                    db' g'
              end
        end
    end.

(** [changePassword] *)
Definition changePassword (userId currentPassword newPassword : string)
  (now : Z) (db : DB) (g : Entropy) : Outcome :=
  if negb (truthy currentPassword) || negb (truthy newPassword) then
    mkOutcome
      (Json 400 false "Current password and new password are required" [] None) db g
  else
    let passwordValidation := PasswordStrength.validatePasswordStrength newPassword in
    if negb (PasswordStrength.isValid passwordValidation) then
      mkOutcome
        (Json 400 false "New password does not meet requirements"
           (PasswordStrength.errors passwordValidation) None) db g
    else
      match findById userId db with
      | None => mkOutcome (Json 404 false "User not found" [] None) db g
      | Some user =>
          match bcrypt_compare (Str currentPassword) (Str (password user)) with
          | Throw e => mkOutcome (Next e) db g
          | Ok false => mkOutcome (Json 401 false "Incorrect Password!" [] None) db g
          | Ok true =>
              match bcrypt_compare (Str newPassword) (Str (password user)) with
              | Throw e => mkOutcome (Next e) db g
              | Ok true =>
                  mkOutcome
                    (Json 400 false
                       "New password must be different from current password" [] None)
                    db g
              | Ok false =>
                  let doc := set_password newPassword (mkDocument user false []) in
                  match save cfg doc db g with
                  | (Throw e, db', g') => mkOutcome (Next e) db' g'
                  | (Ok _, db', g') =>
                      mkOutcome
                        (Json 200 true "Password changed successfully" [] (Some now))
                        db' g'
                  end
              end
          end
      end.

End Handlers.
End UserController.
(* ------------------------------------------------------------------ *)
(** ** [middleware/auth.js] and the refresh handler *)

Module AuthMiddleware.
Import UserModel UserMethods.

(** [message.includes(needle)] *)
Fixpoint includes_text (needle s : string) : bool :=
  String.prefix needle s ||
  match s with
  | EmptyString => false
  | String _ s' => includes_text needle s'
  end.

(** [req.user], over the fields of the embedding. *)
Record ReqUser : Type := mkReqUser {
  ru_userId : string;
  ru_email : string
}.

(** A middleware answers, or calls [next()] with [req.user] set. *)
Inductive Middleware : Type :=
| Respond (code : Z) (success : bool) (msg : string)
| NextWith (user : option ReqUser).

(** [User.findById(decoded.userId)]: nothing is found for an absent id
    (Mongoose reads [findById(undefined)] as a search for [_id: null]).  Ids
    are the strings of the stored [_id]s, as in the tokens this code issues;
    the cast of another string to an [ObjectId] is not modelled. *)
Definition findDecoded (decoded : Jwt.Payload) (db : DB) : option Fields :=
  match Jwt.userId decoded with
  | Some id => findById id db
  | None => None
  end.

Section WithWire.
(** How [jsonwebtoken] reads the three segments of a token string: the
    payload and the signature, or nothing when the string is malformed.  A
    string it cannot read is refused as ['jwt malformed']; other errors the
    library may let through on such a string are not modelled. *)
Variable wire : string -> option (Jwt.Payload * Jwt.Signature).
Variable cfg : Config.

Definition token_of_string (s : string) : Jwt.Token :=
  if truthy s then
    match wire s with
    | Some (p, sig) => Jwt.Signed p sig
    | None => Jwt.Malformed
    end
  else Jwt.NoToken.

(** The [catch] block of [authenticate]. *)
Definition authentication_failed (error : JsError) : Middleware :=
  let msg :=
    if includes_text "expired" (message error) then
      "Token has expired. Please login again."%string
    else if includes_text "invalid" (message error) then
      "Invalid token. Please login again."%string
    else "Token verification failed."%string in
  Respond 401 false msg.

(** [authenticate]: [authorization] is [req.headers.authorization]. *)
Definition authenticate (authorization : option string) (now : Z) (db : DB)
  : Middleware :=
  let token := JwtTools.extractTokenFromHeader authorization in
  if negb (truthy_opt token) then
    Respond 401 false "Access denied. No token provided."
  else
    match Jwt.verifyToken (JWT_SECRET cfg)
            (token_of_string (match token with Some t => t | None => EmptyString end))
            now with
    | Throw error => authentication_failed error
    | Ok decoded =>
        match findDecoded decoded db with
        | None => Respond 401 false "User not found. Token invalid."
        | Some user =>
            if negb (String.eqb (status user) "active") then
              Respond 401 false "Account is inactive. Please contact support."
            else NextWith (Some (mkReqUser (_id user) (email user)))
        end
    end.

(** [optionalAuth] *)
Definition optionalAuth (authorization : option string) (now : Z) (db : DB)
  : Middleware :=
  let token := JwtTools.extractTokenFromHeader authorization in
  if negb (truthy_opt token) then NextWith None
  else
    match Jwt.verifyToken (JWT_SECRET cfg)
            (token_of_string (match token with Some t => t | None => EmptyString end))
            now with
    | Throw _ => NextWith None
    | Ok decoded =>
        match findDecoded decoded db with
        | Some user =>
            if String.eqb (status user) "active" then
              NextWith (Some (mkReqUser (_id user) (email user)))
            else NextWith None
        | None => NextWith None
        end
    end.

End WithWire.

(** The answer of [refreshToken] in [controllers/authController.js]. *)
Record RefreshData : Type := mkRefreshData {
  rd_token : Jwt.Token;
  rd_refreshToken : Jwt.Token;
  rd_expiresIn : Z
}.

Inductive RefreshResponse : Type :=
| RefreshJson (code : Z) (success : bool) (msg : string) (data : option RefreshData)
| RefreshNext (e : JsError).

Section Refresh.
Variable cfg : Config.

(** The body of the [try] block of [refreshToken], after the check of the
    field. *)
Definition refresh_body (provided : Jwt.Token) (now : Z) (db : DB)
  : result RefreshResponse :=
  bind (Jwt.verifyRefreshToken (JWT_SECRET cfg) provided now) (fun decoded =>
    match findDecoded decoded db with
    | None =>
        Ok (RefreshJson 401 false "User not found or account inactive" None)
    | Some user =>
        if negb (String.eqb (status user) "active") then
          Ok (RefreshJson 401 false "User not found or account inactive" None)
        else
          bind (Jwt.generateToken (JWT_SECRET cfg)
                  (Jwt.mkTokenRequest (Some (_id user)) (Some (email user)))
                  (JWT_EXPIRE cfg) now) (fun newToken =>
          bind (Jwt.generateRefreshToken (JWT_SECRET cfg)
                  (Jwt.mkTokenRequest (Some (_id user)) None) now) (fun newRefreshToken =>
          Ok (RefreshJson 200 true "Token refreshed successfully"
                (Some (mkRefreshData newToken newRefreshToken (JWT_EXPIRE cfg))))))
    end).

(** [refreshToken]: [provided] is [req.body.refreshToken]. *)
Definition refreshToken (provided : Jwt.Token) (now : Z) (db : DB)
  : RefreshResponse :=
  if negb (Jwt.truthy_token provided) then
    RefreshJson 400 false "Refresh token is required" None
  else
    match refresh_body provided now db with
    | Ok answer => answer
    | Throw error =>
        if includes_text "expired" (message error)
           || includes_text "invalid" (message error) then
          RefreshJson 401 false
            "Invalid or expired refresh token. Please login again." None
        else RefreshNext error
    end.

End Refresh.
End AuthMiddleware.

(* ------------------------------------------------------------------ *)
(** ** The form helpers of the client *)

Module FormHelpers.

(** [s.replace(/\D/g, '')] and the like: the characters of a class, kept. *)
Fixpoint keep (class : ascii -> bool) (s : string) : string :=
  match s with
  | EmptyString => EmptyString
  | String c s' => if class c then String c (keep class s') else keep class s'
  end.

(** [cleaned.match(/^(\d{4})(\d{4})(\d{4})$/)]: the three groups. *)
Definition groups (cleaned : string) : option (string * string * string) :=
  if UserController.is_aadhaar cleaned then
    Some (String.substring 0 4 cleaned, String.substring 4 4 cleaned,
          String.substring 8 4 cleaned)
  else None.



(** [formatAadhaar(aadhaar)] *)
Definition formatAadhaar (aadhaar : string) : string :=
  let cleaned := keep PasswordStrength.is_digit aadhaar in
  match groups cleaned with
  | Some (a, b, c) => (a ++ " " ++ b ++ " " ++ c)%string
  | None => cleaned
  end.

(** [maskAadhaar(aadhaar)], also written out in [downloadProfilePDF], on a
    text of one-byte characters; [aadhaar.slice(-4)] is the last four
    characters. *)
Definition maskAadhaar (aadhaar : string) : string :=
  if truthy aadhaar && (4 <=? String.length aadhaar) then
    ("XXXX XXXX " ++ String.substring (String.length aadhaar - 4) 4 aadhaar)%string
  else "XXXX XXXX XXXX"%string.

End FormHelpers.

(* ------------------------------------------------------------------ *)
(** ** Instances on which the definitions run *)

Module Sample.

(** A stand-in for the block function: every byte is xored with the first
    byte of the key. *)
#[export] Instance xor_aes : AES256 := {|
  aes_encrypt_block := fun k b => List.map (byte_xor (List.hd x00 k)) b;
  aes_decrypt_block := fun k b => List.map (byte_xor (List.hd x00 k)) b
|}.

(** A stand-in for bcrypt: the hash is the password behind a marker. *)
#[export] Instance plain_bcrypt : Bcrypt := {|
  bcrypt_hash := fun pw _ _ => Ok ("$2b$" ++ pw)%string;
  bcrypt_compare := fun data hash =>
    match data, hash with
    | Str d, Str h => Ok (String.eqb h ("$2b$" ++ d)%string)
    | _, _ => Throw (Error "data and hash must be strings")
    end
|}.

Definition key : string := "0123456789abcdef0123456789abcdef".

Definition cfg : Config := mkConfig key 12 "fallback-secret-change-in-production" 86400.

Definition entropy : Entropy := fun i => byte_of_nat (7 * i + 3).

Definition alice : UserModel.Fields :=
  UserModel.mkFields "u1" "alice@example.com" "$2b$Correct#1" "123456789012"
    "active" None None None.

(** An account locked until time 1000000 after five failed attempts. *)
Definition bob : UserModel.Fields :=
  UserModel.mkFields "u2" "bob@example.com" "$2b$Hunter#22" "999988887777"
    "active" None (Some 5%Z) (Some 1000000%Z).

(** A document built by [new User({...})] for a registration. *)
Definition registration : UserModel.Document :=
  UserModel.mkDocument
    (UserModel.mkFields "u3" "carol@example.com" "Str0ng!Pass" "123456789012"
       "active" None None None)
    true [].

End Sample.

(** Further accounts and a reading of token strings. *)
Module Accounts.

(** An account that was deactivated. *)
Definition dave : UserModel.Fields :=
  UserModel.mkFields "u4" "dave@example.com" "$2b$Quiet#77" "111122223333"
    "inactive" None None None.

(** An account as the hook stored it: [aadhaarNumber] holds the blob. *)
Definition erin : UserModel.Fields :=
  UserModel.mkFields "u5" "erin@example.com" "$2b$Correct#1"
    (match fst (@Encryption.encrypt Sample.xor_aes Sample.key "123456789012" Sample.entropy) with
     | Ok blob => blob
     | Throw _ => EmptyString
     end)
    "active" None None None.

(** The access token issued to alice at time 0. *)
Definition alice_access : Jwt.Payload :=
  JwtTools.access_payload
    (Jwt.mkTokenRequest (Some "u1"%string) (Some "alice@example.com"%string))
    86400 0.

(** The refresh token issued to alice at time 0. *)
Definition alice_refresh : Jwt.Payload :=
  JwtTools.refresh_payload (Jwt.mkTokenRequest (Some "u1"%string) None) 0.

(** One token string is read as alice's access token, every other string
    as malformed. *)
Definition wire (s : string) : option (Jwt.Payload * Jwt.Signature) :=
  if String.eqb s "alice.access.0" then
    Some (alice_access, Jwt.HS256 (JWT_SECRET Sample.cfg) alice_access)
  else None.

End Accounts.

(* ================================================================== *)
(** * Properties *)

(* ------------------------------------------------------------------ *)
(** ** ConstantTimeCompare: [secureCompare] *)

Section SecureCompare.
Import Encryption.

Lemma fold_lor_zero (f : nat -> Z) (l : list nat) (acc : Z) :
  List.fold_left (fun r i => Z.lor r (f i)) l acc = 0%Z <->
  acc = 0%Z /\ forall i, In i l -> f i = 0%Z.
Proof.
  revert acc; induction l as [|x l IH]; intros acc; simpl.
  - split; [intros H; split; [exact H | intros i []] | intros [H _]; exact H].
  - rewrite IH, Z.lor_eq_0_iff. split.
    + intros [[Ha Hx] Hl]. split; [exact Ha|]. intros i [<-|Hi]; auto.
    + intros [Ha Hl]. repeat split; auto.
Qed.

Lemma charCode_inj (c d : ascii) :
  Z.of_N (N_of_ascii c) = Z.of_N (N_of_ascii d) -> c = d.
Proof.
  intros H. apply N2Z.inj in H.
  rewrite <- (ascii_N_embedding c), <- (ascii_N_embedding d), H. reflexivity.
Qed.

Lemma same_codes_same_string (a b : string) :
  String.length a = String.length b ->
  (forall i, i < String.length a -> charCodeAt a i = charCodeAt b i) ->
  a = b.
Proof.
  revert b; induction a as [|c a IH]; intros [|d b] Hlen Hcodes;
    simpl in Hlen; try discriminate; [reflexivity|].
  f_equal.
  - apply charCode_inj. apply (Hcodes 0). simpl; lia.
  - apply IH; [lia|]. intros i Hi. apply (Hcodes (S i)). simpl; lia.
Qed.

(** C9. [secureCompare(a, b)] is [true] exactly when [a] and [b] are equal
    and not empty; so [secureCompare('', '')] is [false], and so is every
    call with an empty argument or with arguments of different lengths. *)
Theorem secureCompare_true_iff_equal_nonempty :
  (forall a b : string,
      secureCompare a b = true <-> a = b /\ a <> EmptyString) /\
  secureCompare EmptyString EmptyString = false /\
  (forall a b : string,
      a = EmptyString \/ b = EmptyString \/ String.length a <> String.length b ->
      secureCompare a b = false).
Proof.
  assert (Hiff : forall a b : string,
             secureCompare a b = true <-> a = b /\ a <> EmptyString).
  { intros a b. unfold secureCompare.
    destruct (truthy a) eqn:Ta; simpl.
    2:{ destruct a; [|discriminate]. split; [discriminate | intros [_ H]; congruence]. }
    destruct (truthy b) eqn:Tb; simpl.
    2:{ destruct b; [|discriminate]. split; [discriminate|].
        intros [-> _]. discriminate. }
    destruct (String.length a =? String.length b) eqn:Hlen; simpl.
    2:{ apply Nat.eqb_neq in Hlen. split; [discriminate|].
        intros [-> _]. congruence. }
    apply Nat.eqb_eq in Hlen.
    rewrite Z.eqb_eq, fold_lor_zero. split.
    - intros [_ H]. split.
      + apply same_codes_same_string; [exact Hlen|].
        intros i Hi. apply Z.lxor_eq_0_iff, H, in_seq. lia.
      + destruct a; [discriminate | congruence].
    - intros [-> _]. split; [reflexivity|].
      intros i _. apply Z.lxor_nilpotent. }
  split; [exact Hiff|]. split; [reflexivity|].
  intros a b H. destruct (secureCompare a b) eqn:E; [|reflexivity].
  apply Hiff in E. destruct E as [-> Hne].
  destruct H as [H|[H|H]]; congruence.
Qed.

End SecureCompare.

(* ------------------------------------------------------------------ *)
(** ** CredentialVault: [comparePassword] *)

Section ComparePassword.
Context {bc : Bcrypt}.

(** C8. [comparePassword] never throws: it returns [false] when an argument
    is empty (or [null], [undefined]), [false] when bcrypt rejects its
    arguments or reports a mismatch, and [true] only when bcrypt reports
    that the password matches the hash. *)
Theorem comparePassword_total (password hashedPassword : value) :
  (exists b, comparePassword password hashedPassword = Ok b) /\
  (truthy_value password = false \/ truthy_value hashedPassword = false ->
   comparePassword password hashedPassword = Ok false) /\
  (forall e, bcrypt_compare password hashedPassword = Throw e ->
   comparePassword password hashedPassword = Ok false) /\
  (bcrypt_compare password hashedPassword = Ok false ->
   comparePassword password hashedPassword = Ok false) /\
  (comparePassword password hashedPassword = Ok true <->
   truthy_value password = true /\ truthy_value hashedPassword = true /\
   bcrypt_compare password hashedPassword = Ok true).
Proof.
  unfold comparePassword.
  destruct (truthy_value password) eqn:Tp, (truthy_value hashedPassword) eqn:Th;
    simpl;
    destruct (bcrypt_compare password hashedPassword) as [[|]|e] eqn:Hc; simpl;
    repeat split; eauto; try discriminate; try tauto;
    try (intros [?|?]; discriminate); try (intros (? & ? & ?); discriminate).
Qed.

End ComparePassword.

(* ------------------------------------------------------------------ *)
(** ** TokenIssuer: access and refresh tokens do not stand in for each other *)

Section TokenScoping.
Import Jwt.

Lemma opt_eqb_string_refl (x : option string) : opt_eqb String.eqb x x = true.
Proof. destruct x; simpl; [apply String.eqb_refl | reflexivity]. Qed.

Lemma opt_eqb_Z_refl (x : option Z) : opt_eqb Z.eqb x x = true.
Proof. destruct x; simpl; [apply Z.eqb_refl | reflexivity]. Qed.

Lemma payload_eqb_refl (p : Payload) : payload_eqb p p = true.
Proof.
  unfold payload_eqb.
  rewrite !opt_eqb_string_refl, !opt_eqb_Z_refl. reflexivity.
Qed.

Lemma signature_eqb_refl (s : Signature) : signature_eqb s s = true.
Proof. destruct s; simpl. rewrite String.eqb_refl, payload_eqb_refl. reflexivity. Qed.

(** What [jwt.verify] answers on a token this secret signed, with no [nbf]. *)
Lemma verify_own_token (secret : string) (p : Payload) (o : VerifyOptions) (clock : Z) :
  nbf p = None ->
  verify (Signed p (HS256 secret p)) secret o clock =
  if match exp p with Some e => (e <=? clock)%Z | None => false end then
    Throw (mkError "TokenExpiredError" "jwt expired")
  else if negb (opt_eqb String.eqb (aud p) (Some (vo_audience o))) then
    Throw (mkError "JsonWebTokenError"
             ("jwt audience invalid. expected: " ++ vo_audience o)%string)
  else if negb (opt_eqb String.eqb (iss p) (Some (vo_issuer o))) then
    Throw (mkError "JsonWebTokenError"
             ("jwt issuer invalid. expected: " ++ vo_issuer o)%string)
  else Ok p.
Proof.
  intros Hnbf. unfold verify.
  rewrite signature_eqb_refl, Hnbf. reflexivity.
Qed.

(** [verifyRefreshToken] returns a payload only when its [type] is
    ['refresh']. *)
Lemma verifyRefreshToken_type (secret : string) (t : Token) (now : Z) (d : Payload) :
  verifyRefreshToken secret t now = Ok d -> type d = Some "refresh"%string.
Proof.
  unfold verifyRefreshToken.
  destruct (truthy_token t); simpl; [|discriminate].
  destruct (verify t secret _ (seconds now)) as [p|e]; simpl.
  - destruct (opt_eqb String.eqb (type p) (Some "refresh"%string)) eqn:Ht; simpl.
    + intros [= <-]. destruct (type p) as [s|]; simpl in Ht; [|discriminate].
      apply String.eqb_eq in Ht. congruence.
    + discriminate.
  - repeat match goal with |- context [if ?c then _ else _] => destruct c end;
      discriminate.
Qed.

(** C6, as the code has it.  With a non-empty secret and a user id, the
    issuer returns a refresh token and an access token; the refresh token
    given to [verifyToken] is never accepted: until it expires the answer is
    the error ['Invalid token'], from then on ['Token has expired']; the
    access token given to [verifyRefreshToken] is never accepted: until it
    expires the answer is ['Invalid refresh token'], from then on ['Refresh
    token has expired']; and [verifyRefreshToken] accepts no token whose
    [type] claim is not ['refresh']. *)
Theorem token_scoping
  (secret : string) (req : TokenRequest) (expiresIn issued now : Z)
  (Hsecret : truthy secret = true)
  (Huser : truthy_opt (tr_userId req) = true) :
  exists refresh access : Token,
    generateRefreshToken secret req issued = Ok refresh /\
    generateToken secret req expiresIn issued = Ok access /\
    verifyToken secret refresh now =
      Throw (Error (if (seconds issued + 604800 <=? seconds now)%Z
                    then "Token has expired" else "Invalid token")) /\
    verifyRefreshToken secret access now =
      Throw (Error (if (seconds issued + expiresIn <=? seconds now)%Z
                    then "Refresh token has expired" else "Invalid refresh token")) /\
    (forall (t : Token) (d : Payload),
        verifyRefreshToken secret t now = Ok d -> type d = Some "refresh"%string).
Proof.
  unfold generateRefreshToken, generateToken, sign.
  rewrite Huser, Hsecret. simpl.
  eexists; eexists. split; [reflexivity|]. split; [reflexivity|].
  split; [|split].
  - unfold verifyToken. simpl truthy_token. cbv iota. simpl negb. cbv iota.
    rewrite verify_own_token by reflexivity. simpl.
    destruct (seconds issued + 604800 <=? seconds now)%Z; reflexivity.
  - unfold verifyRefreshToken. simpl truthy_token. simpl negb. cbv iota.
    rewrite verify_own_token by reflexivity. simpl.
    destruct (seconds issued + expiresIn <=? seconds now)%Z; reflexivity.
  - intros t d. apply verifyRefreshToken_type.
Qed.

Lemma token_scoping_witness :
  exists refresh access : Token,
    generateRefreshToken "k" (mkTokenRequest (Some "u1"%string) None) 0 = Ok refresh /\
    generateToken "k" (mkTokenRequest (Some "u1"%string) None) 86400 0 = Ok access /\
    verifyToken "k" refresh 5000 = Throw (Error "Invalid token") /\
    verifyRefreshToken "k" access 5000 = Throw (Error "Invalid refresh token") /\
    (forall (t : Token) (d : Payload),
        verifyRefreshToken "k" t 5000 = Ok d -> type d = Some "refresh"%string).
Proof.
  exact (token_scoping "k" (mkTokenRequest (Some "u1"%string) None) 86400 0 5000
           eq_refl eq_refl).
Defined.

(** C6 as stated fails after the expiry of the refresh token: a refresh
    token issued at time 0 and given to [verifyToken] eight days later is
    answered ['Token has expired'], not ['Invalid token']. *)
Lemma expired_refresh_token_is_reported_expired :
  exists refresh : Token,
    generateRefreshToken "k" (mkTokenRequest (Some "u1"%string) None) 0 = Ok refresh /\
    verifyToken "k" refresh 691200000 = Throw (Error "Token has expired") /\
    verifyToken "k" refresh 691200000 <> Throw (Error "Invalid token").
Proof.
  eexists. split; [reflexivity|]. split; [reflexivity|].
  vm_compute. discriminate.
Qed.

End TokenScoping.

(* ------------------------------------------------------------------ *)
(** ** LockoutGuard and the login handler *)

Section Lockout.
Import UserModel AuthController.
Context {aes : AES256} {bc : Bcrypt}.
Variable cfg : Config.

Lemma apply_update_id (upd : Update) (u : Fields) : _id (apply_update upd u) = _id u.
Proof. reflexivity. Qed.

Lemma updateOne_ids (id : string) (upd : Update) (db : DB) :
  List.map _id (updateOne id upd db) = List.map _id db.
Proof.
  induction db as [|v db IH]; simpl; [reflexivity|].
  destruct (String.eqb (_id v) id); simpl; [reflexivity | now rewrite IH].
Qed.

Lemma findByEmail_in (e : string) (db : DB) (u : Fields) :
  findByEmail e db = Some u -> In u db.
Proof. intros H. apply List.find_some in H. tauto. Qed.

(** With distinct ids, the document [findByEmail] returns is the one
    [updateOne] rewrites. *)
Lemma findByEmail_updateOne (e : string) (db : DB) (u : Fields) (upd : Update) :
  NoDup (List.map _id db) ->
  findByEmail e db = Some u ->
  findByEmail e (updateOne (_id u) upd db) = Some (apply_update upd u).
Proof.
  unfold findByEmail.
  induction db as [|v db IH]; simpl; intros Hnd Hfind; [discriminate|].
  inversion Hnd as [|? ? Hnotin Hnd']; subst.
  destruct (String.eqb (email v) (toLowerCase e)) eqn:Hv.
  - injection Hfind as ->. rewrite String.eqb_refl. simpl. rewrite Hv. reflexivity.
  - destruct (String.eqb (_id v) (_id u)) eqn:Hid.
    + exfalso. apply String.eqb_eq in Hid. apply Hnotin. rewrite Hid.
      apply in_map. apply List.find_some in Hfind. tauto.
    + simpl. rewrite Hv. apply IH; assumption.
Qed.

Lemma login_unknown (e pw : string) (now : Z) (db : DB) (g : Entropy) :
  truthy e = true -> truthy pw = true ->
  findByEmail e db = None ->
  login cfg e pw now db g =
  mkOutcome (Json 401 false "Invalid email or password" None) db g [].
Proof. intros He Hp Hf. unfold login. rewrite He, Hp, Hf. reflexivity. Qed.

Lemma login_locked (e pw : string) (now : Z) (db : DB) (g : Entropy) (u : Fields) :
  truthy e = true -> truthy pw = true ->
  findByEmail e db = Some u ->
  isLocked u now = true ->
  login cfg e pw now db g = mkOutcome (Json 423 false locked_message None) db g [].
Proof. intros He Hp Hf Hl. unfold login. rewrite He, Hp, Hf, Hl. reflexivity. Qed.

Lemma login_wrong_password (e pw : string) (now : Z) (db : DB) (g : Entropy) (u : Fields) :
  truthy e = true -> truthy pw = true ->
  findByEmail e db = Some u ->
  isLocked u now = false ->
  status u = "active"%string ->
  bcrypt_compare (Str pw) (Str (password u)) = Ok false ->
  login cfg e pw now db g =
  mkOutcome (Json 401 false "Incorrect Password!" None)
    (updateOne (_id u) (incLoginAttempts u now) db) g
    [BcryptCompare pw (password u); UpdateOne (_id u) (incLoginAttempts u now)].
Proof.
  intros He Hp Hf Hl Hs Hc. unfold login.
  rewrite He, Hp, Hf, Hl, Hs, Hc. reflexivity.
Qed.

(** A failed check on an account without a lock: one more attempt, and the
    lock when the count reaches five. *)
Lemma failed_unlocked (u : Fields) (t : Z) :
  lockUntil u = None ->
  loginAttempts (failed u t) = Some (loginAttempts_of u + 1)%Z /\
  lockUntil (failed u t) =
    (if (loginAttempts_of u + 1 >=? 5)%Z then Some (t + 7200000)%Z else None) /\
  status (failed u t) = status u /\
  password (failed u t) = password u /\
  _id (failed u t) = _id u.
Proof.
  intros Hl. unfold failed, incLoginAttempts, isLocked. rewrite Hl. simpl.
  destruct (loginAttempts_of u + 1 >=? 5)%Z; simpl; rewrite ?Hl; auto.
Qed.

(** One failed attempt on an account that is not locked. *)
Lemma serve_failed_attempt (e pw : string) (t : Z) (rest : list Request)
  (db : DB) (g : Entropy) (u : Fields) :
  truthy e = true -> truthy pw = true ->
  NoDup (List.map _id db) ->
  findByEmail e db = Some u ->
  isLocked u t = false ->
  status u = "active"%string ->
  bcrypt_compare (Str pw) (Str (password u)) = Ok false ->
  serve cfg (mkRequest e pw t :: rest) db g =
    serve cfg rest (updateOne (_id u) (incLoginAttempts u t) db) g /\
  NoDup (List.map _id (updateOne (_id u) (incLoginAttempts u t) db)) /\
  findByEmail e (updateOne (_id u) (incLoginAttempts u t) db) = Some (failed u t).
Proof.
  intros He Hp Hnd Hf Hl Hs Hc. split; [|split].
  - simpl. rewrite (login_wrong_password e pw t db g u) by assumption. reflexivity.
  - rewrite updateOne_ids. exact Hnd.
  - apply findByEmail_updateOne; assumption.
Qed.

Lemma unlocked_not_locked (u : Fields) (t : Z) :
  lockUntil u = None -> isLocked u t = false.
Proof. intros H. unfold isLocked. rewrite H. reflexivity. Qed.

(** The account after a failed check at [t], from an unlocked account with
    [n] failed attempts. *)
Lemma failed_count (u : Fields) (t n m : Z) :
  lockUntil u = None -> loginAttempts_of u = n -> m = (n + 1)%Z ->
  loginAttempts (failed u t) = Some m /\
  loginAttempts_of (failed u t) = m /\
  lockUntil (failed u t) = (if (m >=? 5)%Z then Some (t + 7200000)%Z else None) /\
  status (failed u t) = status u /\
  password (failed u t) = password u.
Proof.
  intros Hl Hn ->. destruct (failed_unlocked u t Hl) as (A & L & S & P & _).
  rewrite Hn in A, L. unfold loginAttempts_of. rewrite A. auto.
Qed.

(** C2. From an unlocked active account with no failed attempt, four failed
    logins leave it unlocked with four attempts counted, and the fifth locks
    it: five attempts counted and [lockUntil] two hours after the fifth.
    Every later login before [lockUntil] is answered 423 with the
    account-locked message, writes nothing (the count stays) and does not
    call [bcrypt.compare]. *)
Theorem lockout_after_five_failures
  (e p1 p2 p3 p4 p5 : string) (t1 t2 t3 t4 t5 : Z)
  (db : DB) (g : Entropy) (u : Fields)
  (He : truthy e = true)
  (Hids : NoDup (List.map _id db))
  (Hfind : findByEmail e db = Some u)
  (Hactive : status u = "active"%string)
  (Hzero : loginAttempts_of u = 0%Z)
  (Hunlocked : lockUntil u = None)
  (Hwrong : Forall (fun p => truthy p = true /\
                             bcrypt_compare (Str p) (Str (password u)) = Ok false)
              [p1; p2; p3; p4; p5]) :
  let four := [mkRequest e p1 t1; mkRequest e p2 t2; mkRequest e p3 t3;
               mkRequest e p4 t4] in
  let db4 := fst (serve cfg four db g) in
  let db5 := fst (serve cfg (four ++ [mkRequest e p5 t5]) db g) in
  (exists u4, findByEmail e db4 = Some u4 /\
              loginAttempts u4 = Some 4%Z /\ lockUntil u4 = None) /\
  (exists u5, findByEmail e db5 = Some u5 /\
              loginAttempts u5 = Some 5%Z /\
              lockUntil u5 = Some (t5 + 2 * 60 * 60 * 1000)%Z) /\
  (forall (pw : string) (now : Z) (g' : Entropy),
      truthy pw = true -> (now < t5 + 2 * 60 * 60 * 1000)%Z ->
      login cfg e pw now db5 g' =
      mkOutcome (Json 423 false locked_message None) db5 g' []).
Proof.
  intros four db4 db5. subst four db4 db5.
  repeat match goal with
         | H : Forall _ (_ :: _) |- _ => inversion H; clear H; subst
         end.
  repeat match goal with H : _ /\ _ |- _ => destruct H end.
  destruct (failed_count u t1 0 1 Hunlocked Hzero eq_refl) as (C1 & A1 & L1 & S1 & P1).
  remember (failed u t1) as u1 eqn:U1.
  destruct (failed_count u1 t2 1 2 L1 A1 eq_refl) as (C2 & A2 & L2 & S2 & P2).
  remember (failed u1 t2) as u2 eqn:U2.
  destruct (failed_count u2 t3 2 3 L2 A2 eq_refl) as (C3 & A3 & L3 & S3 & P3).
  remember (failed u2 t3) as u3 eqn:U3.
  destruct (failed_count u3 t4 3 4 L3 A3 eq_refl) as (C4 & A4 & L4 & S4 & P4).
  remember (failed u3 t4) as u4 eqn:U4.
  destruct (failed_count u4 t5 4 5 L4 A4 eq_refl) as (C5 & A5 & L5 & S5 & P5).
  remember (failed u4 t5) as u5 eqn:U5.
  change (if (5 >=? 5)%Z then Some (t5 + 7200000)%Z else None)
    with (Some (t5 + 7200000)%Z) in L5.
  destruct (serve_failed_attempt e p1 t1
              [mkRequest e p2 t2; mkRequest e p3 t3; mkRequest e p4 t4] db g u)
    as (R1 & N1 & F1); auto using unlocked_not_locked.
  destruct (serve_failed_attempt e p1 t1
              [mkRequest e p2 t2; mkRequest e p3 t3; mkRequest e p4 t4;
               mkRequest e p5 t5] db g u)
    as (R1' & _ & _); auto using unlocked_not_locked.
  rewrite <- U1 in F1.
  remember (updateOne (_id u) (incLoginAttempts u t1) db) as d1 eqn:D1.
  destruct (serve_failed_attempt e p2 t2
              [mkRequest e p3 t3; mkRequest e p4 t4] d1 g u1)
    as (R2 & N2 & F2); auto using unlocked_not_locked; try congruence.
  destruct (serve_failed_attempt e p2 t2
              [mkRequest e p3 t3; mkRequest e p4 t4; mkRequest e p5 t5] d1 g u1)
    as (R2' & _ & _); auto using unlocked_not_locked; try congruence.
  rewrite <- U2 in F2.
  remember (updateOne (_id u1) (incLoginAttempts u1 t2) d1) as d2 eqn:D2.
  destruct (serve_failed_attempt e p3 t3 [mkRequest e p4 t4] d2 g u2)
    as (R3 & N3 & F3); auto using unlocked_not_locked; try congruence.
  destruct (serve_failed_attempt e p3 t3 [mkRequest e p4 t4; mkRequest e p5 t5] d2 g u2)
    as (R3' & _ & _); auto using unlocked_not_locked; try congruence.
  rewrite <- U3 in F3.
  remember (updateOne (_id u2) (incLoginAttempts u2 t3) d2) as d3 eqn:D3.
  destruct (serve_failed_attempt e p4 t4 [] d3 g u3)
    as (R4 & N4 & F4); auto using unlocked_not_locked; try congruence.
  destruct (serve_failed_attempt e p4 t4 [mkRequest e p5 t5] d3 g u3)
    as (R4' & _ & _); auto using unlocked_not_locked; try congruence.
  rewrite <- U4 in F4.
  remember (updateOne (_id u3) (incLoginAttempts u3 t4) d3) as d4 eqn:D4.
  destruct (serve_failed_attempt e p5 t5 [] d4 g u4)
    as (R5 & N5 & F5); auto using unlocked_not_locked; try congruence.
  rewrite <- U5 in F5.
  remember (updateOne (_id u4) (incLoginAttempts u4 t5) d4) as d5 eqn:D5.
  assert (E4 : fst (serve cfg [mkRequest e p1 t1; mkRequest e p2 t2;
                               mkRequest e p3 t3; mkRequest e p4 t4] db g) = d4).
  { rewrite R1, R2, R3, R4. reflexivity. }
  assert (E5 : fst (serve cfg ([mkRequest e p1 t1; mkRequest e p2 t2;
                                mkRequest e p3 t3; mkRequest e p4 t4]
                               ++ [mkRequest e p5 t5]) db g) = d5).
  { cbn [app]. rewrite R1', R2', R3', R4', R5. reflexivity. }
  rewrite E4, E5.
  split; [exists u4; auto|]. split; [exists u5; auto|].
  intros pw now g' Hpw Hnow.
  apply login_locked with (u := u5); auto.
  unfold isLocked. rewrite L5. apply Z.gtb_lt. lia.
Qed.

(** C3 does not hold of the code: with a wrong password, the answer for an
    address no account has and the answer for the address of an unlocked
    active account carry different messages. *)
Theorem login_reveals_whether_email_exists
  (unknown known pw : string) (now : Z) (db : DB) (g : Entropy) (u : Fields)
  (Hunknown : truthy unknown = true)
  (Hknown : truthy known = true)
  (Hpw : truthy pw = true)
  (Hnone : findByEmail unknown db = None)
  (Hsome : findByEmail known db = Some u)
  (Hunlocked : isLocked u now = false)
  (Hactive : status u = "active"%string)
  (Hwrong : bcrypt_compare (Str pw) (Str (password u)) = Ok false) :
  response (login cfg unknown pw now db g) =
    Json 401 false "Invalid email or password" None /\
  response (login cfg known pw now db g) =
    Json 401 false "Incorrect Password!" None /\
  response (login cfg unknown pw now db g) <> response (login cfg known pw now db g).
Proof.
  rewrite (login_unknown unknown pw now db g) by assumption.
  rewrite (login_wrong_password known pw now db g u) by assumption.
  simpl. repeat split. discriminate.
Qed.

(** C5 does not hold of the code at [now = lockUntil]: the account is no
    longer locked, the password is checked, and a wrong password counts one
    more attempt on top of the old ones and locks the account for two more
    hours, where the claim has one attempt and no lock. *)
Theorem lock_expiring_now_is_renewed
  (e pw : string) (now : Z) (db : DB) (g : Entropy) (u : Fields)
  (He : truthy e = true)
  (Hpw : truthy pw = true)
  (Hids : NoDup (List.map _id db))
  (Hfind : findByEmail e db = Some u)
  (Hactive : status u = "active"%string)
  (Hlock : lockUntil u = Some now)
  (Hcount : (5 <= loginAttempts_of u)%Z)
  (Hwrong : bcrypt_compare (Str pw) (Str (password u)) = Ok false) :
  let o := login cfg e pw now db g in
  response o = Json 401 false "Incorrect Password!" None /\
  In (BcryptCompare pw (password u)) (trace o) /\
  exists u', findByEmail e (db_after o) = Some u' /\
             loginAttempts u' = Some (loginAttempts_of u + 1)%Z /\
             lockUntil u' = Some (now + 2 * 60 * 60 * 1000)%Z.
Proof.
  assert (Hnot : isLocked u now = false).
  { unfold isLocked. rewrite Hlock, Z.gtb_ltb. apply Z.ltb_irrefl. }
  intros o. subst o.
  rewrite (login_wrong_password e pw now db g u) by assumption. simpl.
  split; [reflexivity|]. split; [now left|].
  exists (failed u now). split; [apply findByEmail_updateOne; assumption|].
  unfold failed, incLoginAttempts. rewrite Hlock, Z.ltb_irrefl, Hnot.
  replace (loginAttempts_of u + 1 >=? 5)%Z with true
    by (symmetry; apply Z.geb_le; lia).
  simpl. split; reflexivity.
Qed.

(** After the lock has expired ([lockUntil < now]) a wrong password restarts
    the count at one and removes the lock. *)
Lemma expired_lock_wrong_password
  (e pw : string) (now until : Z) (db : DB) (g : Entropy) (u : Fields) :
  truthy e = true -> truthy pw = true ->
  NoDup (List.map _id db) ->
  findByEmail e db = Some u ->
  status u = "active"%string ->
  lockUntil u = Some until -> (until < now)%Z ->
  bcrypt_compare (Str pw) (Str (password u)) = Ok false ->
  let o := login cfg e pw now db g in
  response o = Json 401 false "Incorrect Password!" None /\
  exists u', findByEmail e (db_after o) = Some u' /\
             loginAttempts u' = Some 1%Z /\ lockUntil u' = None.
Proof.
  intros He Hpw Hids Hfind Hactive Hlock Hlt Hwrong o. subst o.
  assert (Hnot : isLocked u now = false).
  { unfold isLocked. rewrite Hlock. rewrite Z.gtb_ltb. apply Z.ltb_ge. lia. }
  rewrite (login_wrong_password e pw now db g u) by assumption. simpl.
  split; [reflexivity|].
  exists (failed u now). split; [apply findByEmail_updateOne; assumption|].
  unfold failed, incLoginAttempts. rewrite Hlock.
  replace (until <? now)%Z with true by (symmetry; apply Z.ltb_lt; lia).
  simpl. split; reflexivity.
Qed.

Lemma fold_store_path_keeps (src : Fields) (paths : list Path) (dst : Fields) :
  let r := List.fold_left (store_path src) paths dst in
  _id r = _id dst /\ email r = email dst /\
  loginAttempts r = loginAttempts dst /\ lockUntil r = lockUntil dst.
Proof.
  revert dst; induction paths as [|p paths IH]; intros dst; simpl; [auto|].
  destruct (IH (store_path src dst p)) as (A & B & C & D).
  rewrite A, B, C, D. destruct p; simpl; auto.
Qed.

Lemma findByEmail_store (e : string) (d : Document) (db : DB) (u : Fields) :
  NoDup (List.map _id db) ->
  findByEmail e db = Some u ->
  _id (fields d) = _id u ->
  exists u', findByEmail e (store d db) = Some u' /\
             loginAttempts u' = loginAttempts u /\ lockUntil u' = lockUntil u.
Proof.
  unfold findByEmail. intros Hnd Hfind Hid.
  induction db as [|v db IH]; simpl in *; [discriminate|].
  inversion Hnd as [|? ? Hnotin Hnd']; subst.
  rewrite Hid.
  destruct (String.eqb (email v) (toLowerCase e)) eqn:Hv.
  - injection Hfind as ->. rewrite String.eqb_refl. simpl.
    destruct (fold_store_path_keeps (fields d) (modifiedPaths d) u) as (_ & B & C & D).
    rewrite B, Hv. eauto.
  - destruct (String.eqb (_id v) (_id u)) eqn:Hvid.
    + exfalso. apply String.eqb_eq in Hvid. apply Hnotin. rewrite Hvid.
      apply in_map. apply List.find_some in Hfind. tauto.
    + simpl. rewrite Hv. apply IH; assumption.
Qed.

(** A document loaded from the collection whose only assignment is
    [lastLogin] passes the hook untouched. *)
Lemma preSave_lastLogin (u : Fields) (t : option Z) (g : Entropy) :
  preSave cfg (set_lastLogin t (mkDocument u false [])) g =
  (None, set_lastLogin t (mkDocument u false []), g).
Proof.
  unfold preSave, set_lastLogin, mark, isModified. simpl.
  destruct (negb (Jwt.opt_eqb Z.eqb (lastLogin u) t)); reflexivity.
Qed.

(** Once the lock has run out ([lockUntil <= now]) a correct password
    removes the count and the lock. *)
Lemma expired_lock_correct_password
  (e pw : string) (now until : Z) (db : DB) (g : Entropy) (u : Fields) :
  truthy e = true -> truthy pw = true ->
  NoDup (List.map _id db) ->
  findByEmail e db = Some u ->
  status u = "active"%string ->
  lockUntil u = Some until -> (until <= now)%Z ->
  (0 < loginAttempts_of u)%Z ->
  bcrypt_compare (Str pw) (Str (password u)) = Ok true ->
  exists u', findByEmail e (db_after (login cfg e pw now db g)) = Some u' /\
             loginAttempts_of u' = 0%Z /\ lockUntil u' = None.
Proof.
  intros He Hpw Hids Hfind Hactive Hlock Hle Hpos Hright.
  assert (Hnot : isLocked u now = false).
  { unfold isLocked. rewrite Hlock. rewrite Z.gtb_ltb. apply Z.ltb_ge. lia. }
  unfold login. rewrite He, Hpw, Hfind, Hnot, Hactive, Hright. simpl.
  replace (loginAttempts_of u >? 0)%Z with true by (symmetry; apply Z.gtb_lt; lia).
  unfold save. rewrite preSave_lastLogin.
  set (doc := set_lastLogin (Some now) (mkDocument u false [])).
  set (db1 := updateOne (_id u) resetLoginAttempts db).
  assert (Hdb : exists u', findByEmail e (store doc db1) = Some u' /\
                           loginAttempts_of u' = 0%Z /\ lockUntil u' = None).
  { destruct (findByEmail_store e doc db1 (apply_update resetLoginAttempts u))
      as (u' & F & A & L).
    - unfold db1. rewrite updateOne_ids. exact Hids.
    - apply findByEmail_updateOne; assumption.
    - reflexivity.
    - exists u'. split; [exact F|]. unfold loginAttempts_of. rewrite A, L. auto. }
  change (isNew doc) with false. cbv iota.
  destruct (Jwt.generateToken _ _ _ _); [|exact Hdb].
  destruct (Jwt.generateRefreshToken _ _ _); exact Hdb.
Qed.

End Lockout.

Section LockoutRuns.
Import UserModel AuthController.
#[local] Existing Instance Sample.xor_aes.
#[local] Existing Instance Sample.plain_bcrypt.

Lemma lockout_after_five_failures_witness :
  let e := "alice@example.com"%string in
  let five := [mkRequest e "a" 1000; mkRequest e "b" 2000; mkRequest e "c" 3000;
               mkRequest e "d" 4000; mkRequest e "e" 5000] in
  let db5 := fst (serve Sample.cfg five [Sample.alice] Sample.entropy) in
  (exists u5, findByEmail e db5 = Some u5 /\
              loginAttempts u5 = Some 5%Z /\
              lockUntil u5 = Some (5000 + 2 * 60 * 60 * 1000)%Z) /\
  login Sample.cfg e "Correct#1" 6000 db5 Sample.entropy =
    mkOutcome (Json 423 false locked_message None) db5 Sample.entropy [].
Proof.
  destruct (lockout_after_five_failures Sample.cfg "alice@example.com"
              "a" "b" "c" "d" "e" 1000 2000 3000 4000 5000
              [Sample.alice] Sample.entropy Sample.alice)
    as (_ & H5 & Hlocked).
  - reflexivity.
  - constructor; [intros [] | constructor].
  - reflexivity.
  - reflexivity.
  - reflexivity.
  - reflexivity.
  - repeat constructor.
  - split; [exact H5|]. apply Hlocked; reflexivity.
Defined.

Lemma login_reveals_whether_email_exists_witness :
  response (login Sample.cfg "nobody@example.com" "guess" 1000
              [Sample.alice] Sample.entropy) =
    Json 401 false "Invalid email or password" None /\
  response (login Sample.cfg "alice@example.com" "guess" 1000
              [Sample.alice] Sample.entropy) =
    Json 401 false "Incorrect Password!" None /\
  response (login Sample.cfg "nobody@example.com" "guess" 1000
              [Sample.alice] Sample.entropy) <>
  response (login Sample.cfg "alice@example.com" "guess" 1000
              [Sample.alice] Sample.entropy).
Proof.
  apply (login_reveals_whether_email_exists Sample.cfg
           "nobody@example.com" "alice@example.com" "guess" 1000
           [Sample.alice] Sample.entropy Sample.alice); reflexivity.
Defined.

Lemma lock_expiring_now_is_renewed_witness :
  let o := login Sample.cfg "bob@example.com" "guess" 1000000
             [Sample.alice; Sample.bob] Sample.entropy in
  response o = Json 401 false "Incorrect Password!" None /\
  In (BcryptCompare "guess" "$2b$Hunter#22") (trace o) /\
  exists u', findByEmail "bob@example.com" (db_after o) = Some u' /\
             loginAttempts u' = Some 6%Z /\
             lockUntil u' = Some 8200000%Z.
Proof.
  apply (lock_expiring_now_is_renewed Sample.cfg "bob@example.com" "guess" 1000000
           [Sample.alice; Sample.bob] Sample.entropy Sample.bob);
    try reflexivity.
  constructor; [intros [H|[]]; discriminate H|].
  constructor; [intros [] | constructor].
Defined.

End LockoutRuns.

(* ------------------------------------------------------------------ *)
(** ** The [pre('save')] hook encrypts [aadhaarNumber] at most once *)

Section PreSave.
Import UserModel.
Context {aes : AES256} {bc : Bcrypt}.
Variable cfg : Config.

Lemma includes_append (c : ascii) (a b : string) :
  includes c (a ++ b)%string = includes c a || includes c b.
Proof.
  induction a as [|x a IH]; simpl; [reflexivity|].
  destruct (Ascii.eqb x c); [reflexivity | exact IH].
Qed.

(** Every blob [encrypt] returns contains the separator. *)
Lemma encrypt_includes_colon (key text blob : string) (g g' : Entropy) :
  Encryption.encrypt key text g = (Ok blob, g') ->
  includes Encryption.colon blob = true.
Proof.
  unfold Encryption.encrypt.
  destruct (truthy text); cbn [negb]; [|discriminate].
  destruct (randomBytes 16 g) as [iv g0].
  destruct (createCipheriv key iv) as [c|e]; cbn [bind]; [|discriminate].
  destruct (cipher_update c (utf8 text)) as [out c'].
  intros [= <- _]. rewrite includes_append. cbn [includes].
  unfold Encryption.colon at 1 2. rewrite Ascii.eqb_refl.
  apply orb_true_r.
Qed.

Lemma set_password_keeps (h : string) (d : Document) :
  aadhaarNumber (fields (set_password h d)) = aadhaarNumber (fields d) /\
  aadhaar_due (set_password h d) = aadhaar_due d.
Proof.
  split; [reflexivity|].
  unfold aadhaar_due, set_password, isModified, mark; simpl.
  match goal with |- context [if ?c then _ else _] => destruct c end; reflexivity.
Qed.

Lemma set_aadhaarNumber_due (v : string) (d : Document) :
  aadhaar_due d = true -> aadhaar_due (set_aadhaarNumber v d) = true.
Proof.
  unfold aadhaar_due, set_aadhaarNumber, isModified, mark; simpl.
  destruct (isNew d); simpl; [reflexivity|]. intros H.
  match goal with |- context [if ?c then _ else _] => destruct c end;
    [reflexivity | exact H].
Qed.

(** One run of the hook: whether [aadhaarNumber] is due does not change; the
    field changes only from a value without the separator to a blob with it;
    and after a run that reports no error a due field holds the separator. *)
Lemma preSave_aadhaar (d d1 : Document) (g g1 : Entropy) (r : option JsError) :
  preSave cfg d g = (r, d1, g1) ->
  aadhaar_due d1 = aadhaar_due d /\
  (aadhaarNumber (fields d1) = aadhaarNumber (fields d) \/
   (aadhaar_due d = true /\
    includes Encryption.colon (aadhaarNumber (fields d)) = false /\
    includes Encryption.colon (aadhaarNumber (fields d1)) = true)) /\
  (r = None -> aadhaar_due d = true ->
   includes Encryption.colon (aadhaarNumber (fields d1)) = true).
Proof.
  unfold preSave.
  destruct (isNew d || isModified PPassword d).
  - destruct (hashPassword (SALT_ROUNDS cfg) (password (fields d)) g) as [[h|e] g'].
    + destruct (set_password_keeps h d) as [Ka Kd].
      fold (aadhaar_due (set_password h d)). rewrite Kd.
      destruct (aadhaar_due d) eqn:Due.
      * destruct (includes Encryption.colon (aadhaarNumber (fields (set_password h d)))) eqn:Inc;
          simpl.
        -- intros [= <- <- <-]. rewrite Kd, Ka. rewrite Ka in Inc. auto.
        -- destruct (Encryption.encrypt _ _ g') as [[blob|e] g2] eqn:Enc.
           ++ intros [= <- <- <-]. rewrite Ka in Inc.
              apply encrypt_includes_colon in Enc.
              rewrite set_aadhaarNumber_due by exact Kd.
              simpl. split; [reflexivity|]. split; [right|]; auto.
           ++ intros [= <- <- <-]. rewrite Kd, Ka. split; [auto|].
              split; [auto|]. discriminate.
      * intros [= <- <- <-]. rewrite Kd, Ka. split; [auto|]. split; [auto|].
        discriminate.
    + intros [= <- <- <-]. split; [reflexivity|]. split; [auto|]. discriminate.
  - fold (aadhaar_due d).
    destruct (aadhaar_due d) eqn:Due.
    + destruct (includes Encryption.colon (aadhaarNumber (fields d))) eqn:Inc; simpl.
      * intros [= <- <- <-]. auto.
      * destruct (Encryption.encrypt _ _ g) as [[blob|e] g2] eqn:Enc.
        -- intros [= <- <- <-]. apply encrypt_includes_colon in Enc.
           rewrite set_aadhaarNumber_due by exact Due. simpl.
           split; [reflexivity|]. split; [right|]; auto.
        -- intros [= <- <- <-]. rewrite Due. split; [auto|]. split; [auto|].
           discriminate.
    + intros [= <- <- <-]. rewrite Due. split; [auto|]. split; [auto|].
      discriminate.
Qed.

(** C10. When the hook runs without error, it has changed [aadhaarNumber]
    only if the value held no [':'], and a second run of the hook on the
    document it left keeps [aadhaarNumber] as the first run left it. *)
Theorem preSave_encrypts_aadhaar_once
  (d d1 : Document) (g g1 : Entropy)
  (Hfirst : preSave cfg d g = (None, d1, g1)) :
  (aadhaarNumber (fields d1) <> aadhaarNumber (fields d) ->
   includes Encryption.colon (aadhaarNumber (fields d)) = false) /\
  (forall (r2 : option JsError) (d2 : Document) (g2 : Entropy),
      preSave cfg d1 g1 = (r2, d2, g2) ->
      aadhaarNumber (fields d2) = aadhaarNumber (fields d1)).
Proof.
  destruct (preSave_aadhaar d d1 g g1 None Hfirst) as (Hdue & Hchg & Hcolon).
  split.
  - intros Hne. destruct Hchg as [Heq|(_ & Hno & _)]; [contradiction | exact Hno].
  - intros r2 d2 g2 Hsecond.
    destruct (preSave_aadhaar d1 d2 g1 g2 r2 Hsecond) as (_ & [Heq|(Hdue1 & Hno1 & _)] & _);
      [exact Heq|].
    rewrite Hdue in Hdue1. rewrite (Hcolon eq_refl Hdue1) in Hno1. discriminate.
Qed.

End PreSave.

(* ------------------------------------------------------------------ *)
(** ** Text lemmas: the separator and the hex codec *)

Section Text.

Lemma split_without (c : ascii) (s : string) :
  includes c s = false -> split c s = [s].
Proof.
  induction s as [|a s IH]; simpl; [reflexivity|].
  destruct (Ascii.eqb a c); [discriminate|].
  intros H. rewrite (IH H). reflexivity.
Qed.

Lemma split_at_first (c : ascii) (a b : string) :
  includes c a = false ->
  split c (a ++ String c b)%string = a :: split c b.
Proof.
  induction a as [|x a IH]; simpl.
  - intros _. rewrite Ascii.eqb_refl. reflexivity.
  - destruct (Ascii.eqb x c); [discriminate|].
    intros H. rewrite (IH H). reflexivity.
Qed.

Lemma includes_at_separator (c : ascii) (a b : string) :
  includes c (a ++ String c b)%string = true.
Proof.
  rewrite includes_append. simpl. rewrite Ascii.eqb_refl. apply orb_true_r.
Qed.

Lemma truthy_append_separator (c : ascii) (a b : string) :
  truthy (a ++ String c b)%string = true.
Proof. destruct a; reflexivity. Qed.

Lemma hex_pair_decode (b : byte) (rest : string) :
  Hex.decode (Hex.hex_of_byte b ++ rest)%string = b :: Hex.decode rest.
Proof. destruct b; reflexivity. Qed.

Lemma hex_pair_no_colon (b : byte) :
  includes Encryption.colon (Hex.hex_of_byte b) = false.
Proof. destruct b; reflexivity. Qed.

Lemma append_assoc' (a b c : string) :
  ((a ++ b) ++ c = a ++ (b ++ c))%string.
Proof. induction a as [|x a IH]; simpl; [reflexivity | now rewrite IH]. Qed.

Lemma hex_encode_app (a b : list byte) :
  Hex.encode (a ++ b) = (Hex.encode a ++ Hex.encode b)%string.
Proof.
  induction a as [|x a IH]; simpl; [reflexivity|]. rewrite IH. reflexivity.
Qed.

Lemma hex_decode_encode_then (bs : list byte) (rest : string) :
  Hex.decode (Hex.encode bs ++ rest)%string = bs ++ Hex.decode rest.
Proof.
  induction bs as [|b bs IH]; [reflexivity|].
  change (Hex.encode (b :: bs)) with (Hex.hex_of_byte b ++ Hex.encode bs)%string.
  rewrite append_assoc', hex_pair_decode, IH. reflexivity.
Qed.

Lemma append_empty_r (a : string) : (a ++ "")%string = a.
Proof. induction a as [|x a IH]; simpl; [reflexivity | now rewrite IH]. Qed.

Lemma hex_decode_encode (bs : list byte) : Hex.decode (Hex.encode bs) = bs.
Proof.
  rewrite <- (append_empty_r (Hex.encode bs)), hex_decode_encode_then.
  apply app_nil_r.
Qed.

Lemma hex_encode_no_colon (bs : list byte) :
  includes Encryption.colon (Hex.encode bs) = false.
Proof.
  induction bs as [|b bs IH]; [reflexivity|].
  change (Hex.encode (b :: bs)) with (Hex.hex_of_byte b ++ Hex.encode bs)%string.
  rewrite includes_append, hex_pair_no_colon, IH. reflexivity.
Qed.

Lemma hex_encode_truthy (bs : list byte) :
  bs <> [] -> truthy (Hex.encode bs) = true.
Proof. destruct bs as [|b bs]; [congruence | reflexivity]. Qed.

Lemma from_utf8_app (a b : list byte) :
  from_utf8 (a ++ b) = (from_utf8 a ++ from_utf8 b)%string.
Proof.
  unfold from_utf8, string_of_list_byte.
  induction a as [|x a IH]; simpl; [reflexivity | now rewrite IH].
Qed.

Lemma from_utf8_utf8 (s : string) : from_utf8 (utf8 s) = s.
Proof. apply string_of_list_byte_of_string. Qed.

Lemma utf8_length (s : string) : List.length (utf8 s) = String.length s.
Proof.
  unfold utf8, list_byte_of_string.
  induction s as [|x s IH]; simpl; [reflexivity | now rewrite IH].
Qed.

Lemma utf8_nonempty (s : string) : s <> EmptyString -> utf8 s <> [].
Proof.
  intros Hs Hnil. apply Hs. rewrite <- (from_utf8_utf8 s), Hnil. reflexivity.
Qed.

End Text.

(* ------------------------------------------------------------------ *)
(** ** CBC with PKCS#7 padding: decryption undoes encryption *)

Section Blocks.

Lemma xorb_cancel (x y : bool) : xorb (xorb x y) y = x.
Proof. destruct x, y; reflexivity. Qed.

Lemma byte_xor_cancel (a b : byte) : byte_xor (byte_xor a b) b = a.
Proof.
  unfold byte_xor. rewrite Byte.to_bits_of_bits.
  rewrite <- (Byte.of_bits_to_bits a) at 2.
  destruct (Byte.to_bits a) as (a0 & a1 & a2 & a3 & a4 & a5 & a6 & a7).
  destruct (Byte.to_bits b) as (b0 & b1 & b2 & b3 & b4 & b5 & b6 & b7).
  unfold xor_bits. rewrite !xorb_cancel. reflexivity.
Qed.

Lemma xor_bytes_cancel (a b : list byte) :
  List.length a = List.length b -> xor_bytes (xor_bytes a b) b = a.
Proof.
  revert b; induction a as [|x a IH]; intros [|y b] Hlen; simpl in *;
    try discriminate; [reflexivity|].
  rewrite byte_xor_cancel, IH by lia. reflexivity.
Qed.

Lemma xor_bytes_length (a b : list byte) :
  List.length a = List.length b -> List.length (xor_bytes a b) = List.length a.
Proof.
  revert b; induction a as [|x a IH]; intros [|y b] Hlen; simpl in *;
    try discriminate; [reflexivity|].
  rewrite IH by lia. reflexivity.
Qed.

Lemma blocks_whole (n : nat) (data : list byte) :
  16 * n <= List.length data -> whole (blocks n data).
Proof.
  revert data; induction n as [|n IH]; intros data Hlen; cbn [blocks];
    [constructor|]. constructor.
  - rewrite length_firstn. lia.
  - apply IH. rewrite length_skipn. lia.
Qed.

Lemma blocks_concat_skipn (n : nat) (data : list byte) :
  List.concat (blocks n data) ++ skipn (16 * n) data = data.
Proof.
  revert data; induction n as [|n IH]; intros data; [reflexivity|].
  cbn [blocks List.concat]. rewrite <- app_assoc.
  replace (16 * S n) with (16 * n + 16) by lia.
  rewrite <- skipn_skipn, IH. apply firstn_skipn.
Qed.

Lemma full_blocks_tail (data : list byte) :
  List.concat (full_blocks data) ++ tail_bytes data = data /\
  whole (full_blocks data) /\
  List.length (tail_bytes data) < 16.
Proof.
  unfold full_blocks, tail_bytes.
  pose proof (Nat.div_mod_eq (List.length data) 16) as Hdm.
  pose proof (Nat.mod_upper_bound (List.length data) 16) as Hub.
  split; [apply blocks_concat_skipn|]. split.
  - apply blocks_whole. lia.
  - rewrite length_skipn. lia.
Qed.

Lemma blocks_of_concat (bs : list (list byte)) (rest : list byte) :
  whole bs -> blocks (List.length bs) (List.concat bs ++ rest) = bs.
Proof.
  induction 1 as [|b bs Hb Hbs IH]; [reflexivity|].
  cbn [List.length blocks List.concat]. rewrite <- app_assoc.
  rewrite firstn_app, skipn_app, Hb, Nat.sub_diag.
  rewrite firstn_all2, skipn_all2 by lia.
  cbn [firstn skipn]. rewrite app_nil_r. cbn [app]. rewrite IH. reflexivity.
Qed.

Lemma concat_whole_length (bs : list (list byte)) :
  whole bs -> List.length (List.concat bs) = 16 * List.length bs.
Proof.
  induction 1 as [|b bs Hb Hbs IH]; [reflexivity|].
  cbn [List.concat List.length]. rewrite length_app, Hb, IH. lia.
Qed.

Lemma full_blocks_of_concat (bs : list (list byte)) :
  whole bs ->
  full_blocks (List.concat bs) = bs /\ tail_bytes (List.concat bs) = [].
Proof.
  intros Hw. unfold full_blocks, tail_bytes.
  rewrite (concat_whole_length bs Hw).
  replace (16 * List.length bs / 16) with (List.length bs)
    by (rewrite Nat.mul_comm, Nat.div_mul; [reflexivity | discriminate]).
  split.
  - rewrite <- (app_nil_r (List.concat bs)) at 1. apply blocks_of_concat, Hw.
  - apply skipn_all2. rewrite concat_whole_length by exact Hw. lia.
Qed.

End Blocks.

Section CbcMode.
Context {aes : AES256}.
Hypothesis aes_ok : block_cipher_ok aes.

Lemma cbc_encrypt_app (key chain : list byte) (bs bs' : list (list byte)) :
  cbc_encrypt key chain (bs ++ bs') =
  (fst (cbc_encrypt key chain bs) ++
   fst (cbc_encrypt key (snd (cbc_encrypt key chain bs)) bs'),
   snd (cbc_encrypt key (snd (cbc_encrypt key chain bs)) bs')).
Proof.
  revert chain; induction bs as [|b bs IH]; intros chain; cbn [app cbc_encrypt].
  - cbn [fst snd app]. destruct (cbc_encrypt key chain bs'); reflexivity.
  - rewrite IH.
    destruct (cbc_encrypt key (aes_encrypt_block key (xor_bytes b chain)) bs)
      as [o1 c1]. cbn [fst snd]. rewrite app_assoc. reflexivity.
Qed.

(** The ciphertext of whole blocks is a sequence of whole blocks, and
    [cbc_decrypt] from the same chaining value gives the plaintext blocks
    back. *)
Lemma cbc_decrypt_encrypt (key : list byte) (bs : list (list byte)) :
  whole bs ->
  forall chain, List.length chain = 16 ->
  exists cs,
    whole cs /\ List.length cs = List.length bs /\
    fst (cbc_encrypt key chain bs) = List.concat cs /\
    cbc_decrypt key chain cs = (bs, snd (cbc_encrypt key chain bs)).
Proof.
  destruct aes_ok as [Hlen Hinv].
  induction 1 as [|b bs Hb Hbs IH]; intros chain Hchain.
  - exists []. repeat split; constructor.
  - set (c := aes_encrypt_block key (xor_bytes b chain)).
    assert (Hx : List.length (xor_bytes b chain) = 16)
      by (rewrite xor_bytes_length; congruence).
    assert (Hc : List.length c = 16) by (apply Hlen, Hx).
    destruct (IH c Hc) as (cs & Hw & Hn & Hout & Hdec).
    exists (c :: cs). split; [constructor; assumption|].
    split; [cbn [List.length]; congruence|].
    cbn [cbc_encrypt cbc_decrypt]. fold c.
    destruct (cbc_encrypt key c bs) as [out ch] eqn:E. cbn [fst snd] in *.
    split; [cbn [List.concat]; congruence|].
    rewrite Hdec. unfold c. rewrite Hinv by exact Hx.
    rewrite xor_bytes_cancel by congruence. reflexivity.
Qed.

Lemma byte_of_nat_to_nat (n : nat) : n <= 255 -> Byte.to_nat (byte_of_nat n) = n.
Proof.
  intros Hn. unfold byte_of_nat.
  destruct (Byte.of_nat n) as [b|] eqn:E.
  - apply Byte.to_of_nat, E.
  - apply Byte.of_nat_None_iff in E. lia.
Qed.

Lemma forallb_repeat {A : Type} (f : A -> bool) (x : A) (n : nat) :
  f x = true -> forallb f (List.repeat x n) = true.
Proof. intros H. induction n as [|n IH]; simpl; [reflexivity | now rewrite H, IH]. Qed.

(** The padding [cipher.final] adds is the padding [decipher.final] removes. *)
Lemma unpad_padded (buf : list byte) :
  List.length buf < 16 ->
  unpad (buf ++ List.repeat (byte_of_nat (16 - List.length buf)) (16 - List.length buf))
  = Some buf.
Proof.
  intros Hlen. set (n := 16 - List.length buf).
  assert (Hn : 1 <= n <= 16) by (unfold n; lia).
  unfold unpad.
  assert (Hlast : List.last (buf ++ List.repeat (byte_of_nat n) n) x00 = byte_of_nat n).
  { destruct n as [|m]; [lia|].
    change (List.repeat (byte_of_nat (S m)) (S m))
      with (byte_of_nat (S m) :: List.repeat (byte_of_nat (S m)) m).
    rewrite repeat_cons, app_assoc. apply last_last. }
  rewrite Hlast, byte_of_nat_to_nat by lia.
  replace (n =? 0) with false by (symmetry; apply Nat.eqb_neq; lia).
  replace (16 <? n) with false by (symmetry; apply Nat.ltb_ge; lia).
  cbn [orb].
  replace (16 - n) with (List.length buf) by (unfold n; lia).
  rewrite skipn_app, firstn_app, Nat.sub_diag, skipn_all, firstn_all.
  cbn [skipn firstn app]. rewrite app_nil_r.
  rewrite forallb_repeat; [reflexivity|].
  rewrite byte_of_nat_to_nat by lia. apply Nat.eqb_refl.
Qed.

(** [update] then [final] of a fresh cipher, read back by [update] then
    [final] of a fresh decipher with the same key and IV. *)
Lemma cipher_roundtrip (key : string) (iv data : list byte) :
  List.length (utf8 key) = 32 ->
  List.length iv = 16 ->
  exists (cipher cipher' : Cipher) (out : list byte),
    createCipheriv key iv = Ok cipher /\
    cipher_update cipher data = (out, cipher') /\
    out ++ cipher_final cipher' <> [] /\
    exists (decipher decipher' : Decipher) (plain last : list byte),
      createDecipheriv key iv = Ok decipher /\
      decipher_update decipher (out ++ cipher_final cipher') = (plain, decipher') /\
      decipher_final decipher' = Ok last /\
      plain ++ last = data.
Proof.
  intros Hkey Hiv.
  unfold createCipheriv, createDecipheriv, check_key_iv.
  rewrite Hkey, Hiv. cbn [Nat.eqb negb bind].
  destruct (full_blocks_tail data) as (Hdata & Hfull & Htail).
  destruct (cbc_encrypt (utf8 key) iv (full_blocks data)) as [out ch] eqn:Eenc.
  exists (mkCipher (utf8 key) iv []),
         (mkCipher (utf8 key) ch (tail_bytes data)), out.
  split; [reflexivity|].
  split; [unfold cipher_update; cbn [c_buf c_key c_chain app]; now rewrite Eenc|].
  unfold cipher_final. cbn [c_buf c_key c_chain].
  set (n := 16 - List.length (tail_bytes data)).
  set (padded := tail_bytes data ++ List.repeat (byte_of_nat n) n).
  set (final := aes_encrypt_block (utf8 key) (xor_bytes padded ch)).
  assert (Hpadded : List.length padded = 16).
  { unfold padded. rewrite length_app, repeat_length. unfold n. lia. }
  assert (Hwhole : whole (full_blocks data ++ [padded])).
  { apply Forall_app. split; [exact Hfull | repeat constructor; exact Hpadded]. }
  destruct (cbc_decrypt_encrypt (utf8 key) _ Hwhole iv Hiv)
    as (cs & Hcs & Hn & Hout & Hdec).
  rewrite cbc_encrypt_app, Eenc in Hout, Hdec. cbn [fst snd cbc_encrypt] in Hout, Hdec.
  fold final in Hout, Hdec. rewrite app_nil_r in Hout.
  rewrite Hout.
  assert (Hne : List.concat cs <> []).
  { rewrite length_app in Hn. cbn [List.length] in Hn.
    intros Hnil. apply (f_equal (@List.length byte)) in Hnil.
    rewrite concat_whole_length in Hnil by exact Hcs. cbn in Hnil. lia. }
  split; [exact Hne|].
  destruct (full_blocks_of_concat cs Hcs) as [Hfb Htb].
  exists (mkDecipher (utf8 key) iv [] None),
         (mkDecipher (utf8 key) final [] (Some padded)),
         (List.concat (full_blocks data)), (tail_bytes data).
  split; [reflexivity|]. split; [|split; [|exact Hdata]].
  - unfold decipher_update. cbn [d_buf d_key d_chain d_held app].
    destruct (List.concat cs) as [|x xs] eqn:Ect; [congruence|].
    rewrite Hfb, Htb, Hdec.
    destruct (full_blocks data ++ [padded]) as [|p ps] eqn:Ebs;
      [destruct (full_blocks data); discriminate|].
    rewrite <- Ebs, removelast_last, last_last. reflexivity.
  - unfold decipher_final. cbn [d_buf d_held].
    unfold padded, n. rewrite unpad_padded by exact Htail. reflexivity.
Qed.

End CbcMode.

(* ------------------------------------------------------------------ *)
(** ** UTF-8 of a string of code units, and back *)

Section Utf16Facts.
Import Utf16.
Local Open Scope Z_scope.

Lemma Z_of_byte_of_Z (z : Z) : 0 <= z < 256 -> Z_of_byte (byte_of_Z z) = z.
Proof.
  intros Hz. unfold Z_of_byte, byte_of_Z.
  rewrite byte_of_nat_to_nat by lia. lia.
Qed.

Lemma encode_point_bytes (cp : Z) :
  scalar cp -> Forall (fun b => 0 <= b < 256) (encode_point cp).
Proof.
  intros Hcp. unfold encode_point, scalar in *.
  repeat match goal with
         | |- context [?a <? ?b] => destruct (Z.ltb_spec a b)
         end;
    repeat constructor; Z.div_mod_to_equations; lia.
Qed.

Lemma decode_encode_point (cp : Z) (rest : list Z) :
  scalar cp -> decode (encode_point cp ++ rest) = units cp ++ decode rest.
Proof.
  intros Hcp. unfold encode_point, scalar in *.
  destruct (Z.ltb_spec cp 0x80) as [H1|H1].
  - cbn [app decode].
    replace (cp <? 0x80) with true by (symmetry; apply Z.ltb_lt; lia).
    unfold units. replace (cp <? 0x10000) with true by (symmetry; apply Z.ltb_lt; lia).
    reflexivity.
  - destruct (Z.ltb_spec cp 0x800) as [H2|H2].
    + cbn [app decode].
      replace (0xC0 + cp / 64 <? 0x80) with false
        by (symmetry; apply Z.ltb_ge; Z.div_mod_to_equations; lia).
      replace (between 0xC2 0xDF (0xC0 + cp / 64)) with true
        by (symmetry; unfold between; apply andb_true_iff; split; apply Z.leb_le;
            Z.div_mod_to_equations; lia).
      replace (between 0x80 0xBF (0x80 + cp mod 64)) with true
        by (symmetry; unfold between; apply andb_true_iff; split; apply Z.leb_le;
            Z.div_mod_to_equations; lia).
      unfold units. replace (cp <? 0x10000) with true by (symmetry; apply Z.ltb_lt; lia).
      cbn [app]. f_equal. Z.div_mod_to_equations; lia.
    + destruct (Z.ltb_spec cp 0x10000) as [H3|H3].
      * cbn [app decode].
        replace (0xE0 + cp / 4096 <? 0x80) with false
          by (symmetry; apply Z.ltb_ge; Z.div_mod_to_equations; lia).
        replace (between 0xC2 0xDF (0xE0 + cp / 4096)) with false
          by (symmetry; unfold between; apply andb_false_iff; right; apply Z.leb_gt;
              Z.div_mod_to_equations; lia).
        replace (between 0xE0 0xEF (0xE0 + cp / 4096)) with true
          by (symmetry; unfold between; apply andb_true_iff; split; apply Z.leb_le;
              Z.div_mod_to_equations; lia).
        replace (between (if 0xE0 + cp / 4096 =? 0xE0 then 0xA0 else 0x80)
                   (if 0xE0 + cp / 4096 =? 0xED then 0x9F else 0xBF)
                   (0x80 + (cp / 64) mod 64)) with true.
        2: { symmetry. unfold between. apply andb_true_iff.
             destruct (Z.eqb_spec (0xE0 + cp / 4096) 0xE0);
               destruct (Z.eqb_spec (0xE0 + cp / 4096) 0xED);
               split; apply Z.leb_le; Z.div_mod_to_equations; lia. }
        replace (between 0x80 0xBF (0x80 + cp mod 64)) with true
          by (symmetry; unfold between; apply andb_true_iff; split; apply Z.leb_le;
              Z.div_mod_to_equations; lia).
        unfold units. replace (cp <? 0x10000) with true by (symmetry; apply Z.ltb_lt; lia).
        cbn [app]. f_equal. Z.div_mod_to_equations; lia.
      * cbn [app decode].
        replace (0xF0 + cp / 262144 <? 0x80) with false
          by (symmetry; apply Z.ltb_ge; Z.div_mod_to_equations; lia).
        replace (between 0xC2 0xDF (0xF0 + cp / 262144)) with false
          by (symmetry; unfold between; apply andb_false_iff; right; apply Z.leb_gt;
              Z.div_mod_to_equations; lia).
        replace (between 0xE0 0xEF (0xF0 + cp / 262144)) with false
          by (symmetry; unfold between; apply andb_false_iff; right; apply Z.leb_gt;
              Z.div_mod_to_equations; lia).
        replace (between 0xF0 0xF4 (0xF0 + cp / 262144)) with true
          by (symmetry; unfold between; apply andb_true_iff; split; apply Z.leb_le;
              Z.div_mod_to_equations; lia).
        replace (between (if 0xF0 + cp / 262144 =? 0xF0 then 0x90 else 0x80)
                   (if 0xF0 + cp / 262144 =? 0xF4 then 0x8F else 0xBF)
                   (0x80 + (cp / 4096) mod 64)) with true.
        2: { symmetry. unfold between. apply andb_true_iff.
             destruct (Z.eqb_spec (0xF0 + cp / 262144) 0xF0);
               destruct (Z.eqb_spec (0xF0 + cp / 262144) 0xF4);
               split; apply Z.leb_le; Z.div_mod_to_equations; lia. }
        replace (between 0x80 0xBF (0x80 + (cp / 64) mod 64)) with true
          by (symmetry; unfold between; apply andb_true_iff; split; apply Z.leb_le;
              Z.div_mod_to_equations; lia).
        replace (between 0x80 0xBF (0x80 + cp mod 64)) with true
          by (symmetry; unfold between; apply andb_true_iff; split; apply Z.leb_le;
              Z.div_mod_to_equations; lia).
        f_equal. f_equal. Z.div_mod_to_equations; lia.
Qed.

Lemma decode_encode (cps : list Z) :
  Forall scalar cps ->
  decode (List.flat_map encode_point cps) = List.flat_map units cps.
Proof.
  induction 1 as [|cp cps Hcp _ IH]; [reflexivity|].
  cbn [List.flat_map]. rewrite decode_encode_point by exact Hcp.
  rewrite IH. reflexivity.
Qed.

Lemma is_unit_range (u : Z) : is_unit u = true -> 0 <= u < 65536.
Proof. unfold is_unit. rewrite andb_true_iff, Z.leb_le, Z.ltb_lt. tauto. Qed.

Lemma is_high_range (u : Z) : is_high u = true <-> 0xD800 <= u <= 0xDBFF.
Proof. unfold is_high. rewrite andb_true_iff, !Z.leb_le. tauto. Qed.

Lemma is_low_range (u : Z) : is_low u = true <-> 0xDC00 <= u <= 0xDFFF.
Proof. unfold is_low. rewrite andb_true_iff, !Z.leb_le. tauto. Qed.

Lemma not_surrogate (u : Z) :
  is_high u = false -> is_low u = false -> u < 0xD800 \/ 0xDFFF < u.
Proof.
  unfold is_high, is_low. rewrite !andb_false_iff, !Z.leb_gt. lia.
Qed.

(** Induction on a string, one code unit or one pair at a time. *)
Lemma by_units_and_pairs (P : js_string -> Prop) :
  P [] ->
  (forall u rest, P rest -> (forall v rest', rest = v :: rest' -> P rest') -> P (u :: rest)) ->
  forall s, P s.
Proof.
  intros Hnil Hstep s.
  assert (H : P s /\ forall v rest', s = v :: rest' -> P rest').
  { induction s as [|u rest [IH1 IH2]].
    - split; [exact Hnil | discriminate].
    - split; [apply Hstep; assumption|]. intros v rest' [= -> ->]. exact IH1. }
  apply H.
Qed.

(** What the encoder reads off a string of code units are scalar values. *)
Lemma code_points_scalar (s : js_string) :
  Forall (fun u => is_unit u = true) s -> Forall scalar (code_points s).
Proof.
  induction s as [|u rest IH IH'] using by_units_and_pairs; intros Hs;
    [constructor|].
  inversion Hs as [|u' rest' Hu Hrest]; subst.
  apply is_unit_range in Hu. cbn [code_points].
  destruct (is_high u) eqn:Eh.
  - destruct rest as [|v rest']; [repeat constructor; unfold scalar, replacement; lia|].
    inversion Hrest as [|v' r' Hv Hrest']; subst.
    destruct (is_low v) eqn:El.
    + constructor; [|apply (IH' v rest' eq_refl Hrest')].
      apply is_high_range in Eh. apply is_low_range in El. unfold scalar. lia.
    + constructor; [unfold scalar, replacement; lia | apply IH; exact Hrest].
  - destruct (is_low u) eqn:El.
    + constructor; [unfold scalar, replacement; lia | apply IH; exact Hrest].
    + constructor; [|apply IH; exact Hrest].
      destruct (not_surrogate u Eh El); unfold scalar; lia.
Qed.

Lemma well_formed_units (s : js_string) :
  well_formed s = true -> Forall (fun u => is_unit u = true) s.
Proof.
  induction s as [|u rest IH IH'] using by_units_and_pairs; intros Hs;
    [constructor|].
  cbn [well_formed] in Hs. apply andb_true_iff in Hs. destruct Hs as [Hu Hs].
  constructor; [exact Hu|].
  destruct (is_high u).
  - destruct rest as [|v rest']; [discriminate|].
    apply andb_true_iff in Hs. destruct Hs as [Hv Hs].
    constructor; [|apply (IH' v rest' eq_refl Hs)].
    apply is_low_range in Hv. unfold is_unit.
    apply andb_true_iff. split; [apply Z.leb_le | apply Z.ltb_lt]; lia.
  - apply andb_true_iff in Hs. apply IH, Hs.
Qed.

(** A well-formed string is its own well-formed form. *)
Lemma toWellFormed_well_formed (s : js_string) :
  well_formed s = true -> toWellFormed s = s.
Proof.
  unfold toWellFormed.
  induction s as [|u rest IH IH'] using by_units_and_pairs; intros Hs;
    [reflexivity|].
  cbn [well_formed] in Hs. apply andb_true_iff in Hs. destruct Hs as [Hu Hs].
  apply is_unit_range in Hu. cbn [code_points].
  destruct (is_high u) eqn:Eh.
  - destruct rest as [|v rest']; [discriminate|].
    apply andb_true_iff in Hs. destruct Hs as [Hv Hs]. rewrite Hv.
    apply is_high_range in Eh. apply is_low_range in Hv.
    cbn [List.flat_map]. rewrite (IH' v rest' eq_refl Hs).
    unfold units.
    replace (0x10000 + (u - 0xD800) * 0x400 + (v - 0xDC00) <? 0x10000) with false
      by (symmetry; apply Z.ltb_ge; lia).
    cbn [app]. f_equal; [|f_equal]; Z.div_mod_to_equations; lia.
  - apply andb_true_iff in Hs. destruct Hs as [Hl Hs].
    apply negb_true_iff in Hl. rewrite Hl.
    cbn [List.flat_map]. rewrite (IH Hs).
    unfold units. replace (u <? 0x10000) with true by (symmetry; apply Z.ltb_lt; lia).
    reflexivity.
Qed.

Lemma map_Z_of_byte_of_Z (bs : list Z) :
  Forall (fun b => 0 <= b < 256) bs -> List.map Z_of_byte (List.map byte_of_Z bs) = bs.
Proof.
  induction 1 as [|b bs Hb _ IH]; [reflexivity|].
  cbn [List.map]. rewrite Z_of_byte_of_Z by exact Hb. rewrite IH. reflexivity.
Qed.

Lemma encode_bytes (cps : list Z) :
  Forall scalar cps -> Forall (fun b => 0 <= b < 256) (List.flat_map encode_point cps).
Proof.
  induction 1 as [|cp cps Hcp _ IH]; [constructor|].
  cbn [List.flat_map]. apply Forall_app. split; [apply encode_point_bytes, Hcp | exact IH].
Qed.

(** Decoding the UTF-8 bytes of a string gives its well-formed form: the
    string with U+FFFD for every surrogate that has no partner. *)
Lemma of_utf8_utf8 (s : js_string) :
  Forall (fun u => is_unit u = true) s -> of_utf8 (utf8 s) = toWellFormed s.
Proof.
  intros Hs. apply code_points_scalar in Hs.
  unfold of_utf8, utf8. rewrite list_byte_of_string_of_list_byte.
  rewrite map_Z_of_byte_of_Z by (apply encode_bytes; exact Hs).
  apply decode_encode. exact Hs.
Qed.

Lemma utf8_empty (s : js_string) : utf8 s = EmptyString -> s = [].
Proof.
  destruct s as [|u rest]; [reflexivity|]. unfold utf8. cbn [code_points].
  assert (Hne : forall cp l, List.map byte_of_Z (encode_point cp ++ l) <> []).
  { intros cp l. unfold encode_point.
    repeat match goal with |- context [if ?c then _ else _] => destruct c end;
      discriminate. }
  intros H. exfalso.
  repeat match goal with
         | H : context [if ?c then _ else _] |- _ => destruct c
         | H : context [match ?r with [] => _ | _ :: _ => _ end] |- _ => destruct r
         end;
    cbn [List.flat_map] in H;
    match type of H with
    | string_of_list_byte (List.map byte_of_Z (encode_point ?cp ++ ?l)) = _ =>
        specialize (Hne cp l);
        destruct (List.map byte_of_Z (encode_point cp ++ l)); [congruence | discriminate H]
    end.
Qed.

End Utf16Facts.

(* ------------------------------------------------------------------ *)
(** ** SymmetricCipher: [encrypt] and [decrypt] *)

Section Cipher.
Import Encryption.
Context {aes : AES256}.
Variable ENCRYPTION_KEY : string.
Hypothesis aes_ok : block_cipher_ok aes.
Hypothesis key_length : String.length ENCRYPTION_KEY = 32.

Lemma split_nonempty (c : ascii) (s : string) : split c s <> [].
Proof.
  destruct s as [|a s]; simpl; [discriminate|].
  destruct (Ascii.eqb a c); [discriminate|].
  destruct (split c s); discriminate.
Qed.

(** [decrypt] reads the first two segments only: what follows a second
    separator is dropped by the destructuring of the split. *)
Lemma decrypt_first_two_segments (a b t : string) :
  includes colon a = false ->
  includes colon b = false ->
  decrypt ENCRYPTION_KEY (a ++ String colon (b ++ String colon t))%string =
  decrypt ENCRYPTION_KEY (a ++ String colon b)%string.
Proof.
  intros Ha Hb. unfold decrypt.
  rewrite !truthy_append_separator, !includes_at_separator. cbn [negb orb].
  unfold decrypt_body.
  rewrite !split_at_first by assumption.
  rewrite (split_without colon b Hb). reflexivity.
Qed.

(** Without a separator [decrypt] throws before its [try] block. *)
Lemma decrypt_requires_separator (s : string) :
  includes colon s = false ->
  decrypt ENCRYPTION_KEY s = Throw (Error "Invalid encrypted text format").
Proof.
  intros H. unfold decrypt. rewrite H.
  destruct (truthy s); reflexivity.
Qed.

Lemma randomBytes_length (n : nat) (g : Entropy) :
  List.length (fst (randomBytes n g)) = n.
Proof. unfold randomBytes. cbn [fst]. rewrite length_map, length_seq. reflexivity. Qed.

(** The blob [encrypt] returns is the hex of the IV it drew, the separator
    and the hex of a non-empty ciphertext, and [decrypt] maps it back to the
    text. *)
Lemma encrypt_then_decrypt (text : string) (g : Entropy) :
  text <> EmptyString ->
  exists ct : list byte,
    encrypt ENCRYPTION_KEY text g =
      (Ok (Hex.encode (fst (randomBytes 16 g)) ++ String colon (Hex.encode ct))%string,
       snd (randomBytes 16 g)) /\
    decrypt ENCRYPTION_KEY
      (Hex.encode (fst (randomBytes 16 g)) ++ String colon (Hex.encode ct))%string
    = Ok text.
Proof.
  intros Htext.
  pose proof (randomBytes_length 16 g) as Hiv.
  assert (Hkey : List.length (utf8 ENCRYPTION_KEY) = 32)
    by (rewrite utf8_length; exact key_length).
  destruct (cipher_roundtrip aes_ok ENCRYPTION_KEY (fst (randomBytes 16 g))
              (utf8 text) Hkey Hiv)
    as (cipher & cipher' & out & Hc & Hu & Hne & d & d' & plain & last &
        Hd & Hdu & Hdf & Hpl).
  exists (out ++ cipher_final cipher'). split.
  - unfold encrypt. destruct text as [|c text]; [congruence|]. cbn [truthy negb].
    destruct (randomBytes 16 g) as [iv g']. cbn [fst snd] in *.
    rewrite Hc. cbn [bind]. rewrite Hu, hex_encode_app. reflexivity.
  - unfold decrypt.
    rewrite truthy_append_separator, includes_at_separator. cbn [negb orb].
    unfold decrypt_body.
    rewrite split_at_first by apply hex_encode_no_colon.
    rewrite split_without by apply hex_encode_no_colon.
    cbn [nth_error truthy_opt].
    rewrite !hex_encode_truthy; [|exact Hne|].
    2:{ intros Hnil. rewrite Hnil in Hiv. discriminate. }
    cbn [negb orb]. rewrite !hex_decode_encode.
    rewrite Hd. cbn [bind]. rewrite Hdu, Hdf. cbn [bind try_catch].
    rewrite <- from_utf8_app, Hpl, from_utf8_utf8. reflexivity.
Qed.

(** Two calls of [encrypt] on one text held as its bytes, the second
    reading the entropy the first left: when the two IVs drawn differ, the
    two blobs differ, and each decrypts to the bytes. *)
Lemma encrypt_twice (text : string) (g : Entropy) :
  text <> EmptyString ->
  fst (randomBytes 16 g) <> fst (randomBytes 16 (snd (randomBytes 16 g))) ->
  exists blob1 blob2 : string,
    encrypt ENCRYPTION_KEY text g = (Ok blob1, snd (randomBytes 16 g)) /\
    fst (encrypt ENCRYPTION_KEY text (snd (randomBytes 16 g))) = Ok blob2 /\
    blob1 <> blob2 /\
    decrypt ENCRYPTION_KEY blob1 = Ok text /\
    decrypt ENCRYPTION_KEY blob2 = Ok text.
Proof.
  intros Htext Hivs.
  destruct (encrypt_then_decrypt text g Htext) as (ct1 & Henc1 & Hdec1).
  destruct (encrypt_then_decrypt text (snd (randomBytes 16 g)) Htext)
    as (ct2 & Henc2 & Hdec2).
  do 2 eexists. split; [exact Henc1|]. rewrite Henc2.
  split; [reflexivity|]. split; [|split; assumption].
  set (g1 := snd (randomBytes 16 g)) in *.
  set (iv1 := fst (randomBytes 16 g)) in *.
  set (iv2 := fst (randomBytes 16 g1)) in *.
  clearbody iv1 iv2 g1.
  intros Heq. apply Hivs.
  apply (f_equal (split colon)) in Heq.
  rewrite !split_at_first in Heq by apply hex_encode_no_colon.
  assert (Hiv : Hex.encode iv1 = Hex.encode iv2) by congruence.
  rewrite <- (hex_decode_encode iv1), Hiv.
  apply hex_decode_encode.
Qed.

Lemma utf8_text_nonempty (text : Utf16.js_string) :
  text <> [] -> Utf16.utf8 text <> EmptyString.
Proof. intros Htext H. apply Htext, utf8_empty, H. Qed.

(** What [decrypt] gives back from a blob of [encrypt], for any string of
    code units: the well-formed form of the string, that is, the string with
    U+FFFD in the place of every surrogate that has no partner. *)
Lemma encrypt_text_then_decrypt_text (text : Utf16.js_string) (g : Entropy) :
  text <> [] ->
  Forall (fun u => Utf16.is_unit u = true) text ->
  exists blob : string,
    fst (encrypt_text ENCRYPTION_KEY text g) = Ok blob /\
    decrypt_text ENCRYPTION_KEY blob = Ok (Utf16.toWellFormed text).
Proof.
  intros Htext Hunits.
  destruct (encrypt_then_decrypt (Utf16.utf8 text) g (utf8_text_nonempty text Htext))
    as (ct & Henc & Hdec).
  unfold encrypt_text, decrypt_text. eexists. rewrite Henc.
  split; [reflexivity|]. rewrite Hdec, of_utf8_utf8 by exact Hunits. reflexivity.
Qed.

(** The same for two calls in a row whose IVs differ. *)
Lemma encrypt_text_twice (text : Utf16.js_string) (g : Entropy) :
  text <> [] ->
  Forall (fun u => Utf16.is_unit u = true) text ->
  fst (randomBytes 16 g) <> fst (randomBytes 16 (snd (randomBytes 16 g))) ->
  exists blob1 blob2 : string,
    encrypt_text ENCRYPTION_KEY text g = (Ok blob1, snd (randomBytes 16 g)) /\
    fst (encrypt_text ENCRYPTION_KEY text (snd (randomBytes 16 g))) = Ok blob2 /\
    blob1 <> blob2 /\
    decrypt_text ENCRYPTION_KEY blob1 = Ok (Utf16.toWellFormed text) /\
    decrypt_text ENCRYPTION_KEY blob2 = Ok (Utf16.toWellFormed text).
Proof.
  intros Htext Hunits Hivs.
  destruct (encrypt_twice (Utf16.utf8 text) g (utf8_text_nonempty text Htext) Hivs)
    as (blob1 & blob2 & H1 & H2 & Hne & Hd1 & Hd2).
  exists blob1, blob2. unfold encrypt_text, decrypt_text.
  rewrite Hd1, Hd2, of_utf8_utf8 by exact Hunits. auto.
Qed.

(** C1, amended.  For every non-empty string that is well-formed UTF-16
    (no surrogate without its partner) and every state of the entropy
    source, [encrypt] returns a blob, and [decrypt] of that blob returns the
    string. *)
Theorem decrypt_encrypt_roundtrip (text : Utf16.js_string) (g : Entropy)
  (Htext : text <> [])
  (Hwell : Utf16.well_formed text = true) :
  exists blob : string,
    fst (encrypt_text ENCRYPTION_KEY text g) = Ok blob /\
    decrypt_text ENCRYPTION_KEY blob = Ok text.
Proof.
  destruct (encrypt_text_then_decrypt_text text g Htext (well_formed_units text Hwell))
    as (blob & Henc & Hdec).
  exists blob. split; [exact Henc|].
  rewrite Hdec, toWellFormed_well_formed by exact Hwell. reflexivity.
Qed.

(** C7, amended.  Two calls of [encrypt] on one non-empty well-formed
    string, the second reading the entropy the first left: when the two IVs
    drawn differ, the two blobs differ, and each decrypts to the string. *)
Theorem encrypt_twice_differs (text : Utf16.js_string) (g : Entropy)
  (Htext : text <> [])
  (Hwell : Utf16.well_formed text = true)
  (Hivs : fst (randomBytes 16 g) <> fst (randomBytes 16 (snd (randomBytes 16 g)))) :
  exists blob1 blob2 : string,
    encrypt_text ENCRYPTION_KEY text g = (Ok blob1, snd (randomBytes 16 g)) /\
    fst (encrypt_text ENCRYPTION_KEY text (snd (randomBytes 16 g))) = Ok blob2 /\
    blob1 <> blob2 /\
    decrypt_text ENCRYPTION_KEY blob1 = Ok text /\
    decrypt_text ENCRYPTION_KEY blob2 = Ok text.
Proof.
  destruct (encrypt_text_twice text g Htext (well_formed_units text Hwell) Hivs)
    as (blob1 & blob2 & H1 & H2 & Hne & Hd1 & Hd2).
  exists blob1, blob2.
  rewrite toWellFormed_well_formed in Hd1, Hd2 by exact Hwell. auto.
Qed.

(** C4 does not hold of the code for two or more separators: a blob of
    [encrypt] followed by a separator and any text is decrypted to the
    plaintext, although [isValidEncryptedFormat] rejects it. *)
Theorem decrypt_accepts_extra_segments (text extra : string) (g : Entropy)
  (Htext : text <> EmptyString) :
  exists blob : string,
    fst (encrypt ENCRYPTION_KEY text g) = Ok blob /\
    isValidEncryptedFormat (blob ++ String colon extra)%string = false /\
    decrypt ENCRYPTION_KEY (blob ++ String colon extra)%string = Ok text.
Proof.
  destruct (encrypt_then_decrypt text g Htext) as (ct & Henc & Hdec).
  eexists. rewrite Henc. split; [reflexivity|].
  rewrite append_assoc'. cbn [append]. split.
  - unfold isValidEncryptedFormat.
    rewrite !split_at_first by apply hex_encode_no_colon.
    cbn [List.length].
    destruct (split colon extra) eqn:E; [now apply split_nonempty in E|].
    apply andb_false_r.
  - rewrite decrypt_first_two_segments by apply hex_encode_no_colon.
    exact Hdec.
Qed.

End Cipher.

Section PreSaveRuns.
Import UserModel.
#[local] Existing Instance Sample.xor_aes.
#[local] Existing Instance Sample.plain_bcrypt.

Lemma preSave_encrypts_aadhaar_once_witness :
  let run := preSave Sample.cfg Sample.registration Sample.entropy in
  fst (fst run) = None /\
  aadhaarNumber (fields (snd (fst run))) <> "123456789012"%string /\
  (forall (r2 : option JsError) (d2 : Document) (g2 : Entropy),
      preSave Sample.cfg (snd (fst run)) (snd run) = (r2, d2, g2) ->
      aadhaarNumber (fields d2) = aadhaarNumber (fields (snd (fst run)))).
Proof.
  intros run. split; [reflexivity|]. split; [vm_compute; discriminate|].
  apply (preSave_encrypts_aadhaar_once Sample.cfg Sample.registration
           (snd (fst run)) Sample.entropy (snd run)).
  reflexivity.
Defined.

End PreSaveRuns.

Section CipherRuns.
Import Encryption.
#[local] Existing Instance Sample.xor_aes.

Lemma byte_xor_twice (k x : byte) : byte_xor k (byte_xor k x) = x.
Proof.
  unfold byte_xor. rewrite Byte.to_bits_of_bits.
  rewrite <- (Byte.of_bits_to_bits x) at 2.
  destruct (Byte.to_bits k) as (k0 & k1 & k2 & k3 & k4 & k5 & k6 & k7).
  destruct (Byte.to_bits x) as (x0 & x1 & x2 & x3 & x4 & x5 & x6 & x7).
  unfold xor_bits.
  repeat match goal with
         | |- context [xorb ?a (xorb ?a ?b)] =>
             replace (xorb a (xorb a b)) with b by (destruct a, b; reflexivity)
         end.
  reflexivity.
Qed.

Lemma xor_aes_ok : block_cipher_ok Sample.xor_aes.
Proof.
  split; intros k b Hb; cbn [aes_encrypt_block aes_decrypt_block Sample.xor_aes].
  - rewrite length_map. exact Hb.
  - rewrite map_map. rewrite <- (map_id b) at 2.
    apply map_ext. intros x. apply byte_xor_twice.
Qed.

Lemma decrypt_encrypt_roundtrip_witness :
  exists blob : string,
    fst (encrypt_text Sample.key [0xE9; 0x20AC; 0xD83D; 0xDE00; 0x31]%Z Sample.entropy)
      = Ok blob /\
    decrypt_text Sample.key blob = Ok [0xE9; 0x20AC; 0xD83D; 0xDE00; 0x31]%Z.
Proof.
  apply (decrypt_encrypt_roundtrip Sample.key xor_aes_ok eq_refl
           [0xE9; 0x20AC; 0xD83D; 0xDE00; 0x31]%Z Sample.entropy).
  - discriminate.
  - reflexivity.
Defined.

(** C1 as stated fails for a string that holds a surrogate without its
    partner: the one code unit U+D800 is a non-empty string, [encrypt]
    encodes it as the bytes of U+FFFD, and [decrypt] of the blob returns
    U+FFFD, under every block cipher and key of the right size. *)
Lemma lone_surrogate_is_not_restored :
  ([0xD800]%Z <> [] /\ Utf16.well_formed [0xD800]%Z = false) /\
  (exists blob : string,
     fst (encrypt_text Sample.key [0xD800]%Z Sample.entropy) = Ok blob /\
     decrypt_text Sample.key blob = Ok [0xFFFD]%Z /\
     decrypt_text Sample.key blob <> Ok [0xD800]%Z) /\
  (forall (C : AES256) (key : string) (g : Entropy),
     block_cipher_ok C -> String.length key = 32 ->
     exists blob : string,
       fst (@encrypt_text C key [0xD800]%Z g) = Ok blob /\
       @decrypt_text C key blob = Ok [0xFFFD]%Z).
Proof.
  split; [split; [discriminate | reflexivity]|].
  assert (Hany : forall (C : AES256) (key : string) (g : Entropy),
             block_cipher_ok C -> String.length key = 32 ->
             exists blob : string,
               fst (@encrypt_text C key [0xD800]%Z g) = Ok blob /\
               @decrypt_text C key blob = Ok [0xFFFD]%Z).
  { intros C key g Hok Hkey.
    apply (@encrypt_text_then_decrypt_text C key Hok Hkey [0xD800]%Z g);
      [discriminate | repeat constructor]. }
  split; [|exact Hany].
  destruct (Hany Sample.xor_aes Sample.key Sample.entropy xor_aes_ok eq_refl)
    as (blob & Henc & Hdec).
  exists blob. split; [exact Henc|]. split; [exact Hdec|].
  rewrite Hdec. discriminate.
Qed.

Lemma encrypt_twice_differs_witness :
  exists blob1 blob2 : string,
    encrypt_text Sample.key [0xE9; 0x20AC; 0xD83D; 0xDE00; 0x31]%Z Sample.entropy =
      (Ok blob1, snd (randomBytes 16 Sample.entropy)) /\
    fst (encrypt_text Sample.key [0xE9; 0x20AC; 0xD83D; 0xDE00; 0x31]%Z
           (snd (randomBytes 16 Sample.entropy))) = Ok blob2 /\
    blob1 <> blob2 /\
    decrypt_text Sample.key blob1 = Ok [0xE9; 0x20AC; 0xD83D; 0xDE00; 0x31]%Z /\
    decrypt_text Sample.key blob2 = Ok [0xE9; 0x20AC; 0xD83D; 0xDE00; 0x31]%Z.
Proof.
  apply (encrypt_twice_differs Sample.key xor_aes_ok eq_refl
           [0xE9; 0x20AC; 0xD83D; 0xDE00; 0x31]%Z Sample.entropy).
  - discriminate.
  - reflexivity.
  - vm_compute. discriminate.
Defined.

(** C7 as stated fails for the same string: the two blobs of two calls on
    the one code unit U+D800 differ, and both decrypt to U+FFFD, not to the
    string. *)
Lemma lone_surrogate_blobs_decrypt_to_replacement :
  exists blob1 blob2 : string,
    encrypt_text Sample.key [0xD800]%Z Sample.entropy =
      (Ok blob1, snd (randomBytes 16 Sample.entropy)) /\
    fst (encrypt_text Sample.key [0xD800]%Z (snd (randomBytes 16 Sample.entropy)))
      = Ok blob2 /\
    blob1 <> blob2 /\
    decrypt_text Sample.key blob1 = Ok [0xFFFD]%Z /\
    decrypt_text Sample.key blob2 = Ok [0xFFFD]%Z /\
    decrypt_text Sample.key blob1 <> Ok [0xD800]%Z /\
    decrypt_text Sample.key blob2 <> Ok [0xD800]%Z.
Proof.
  destruct (encrypt_text_twice Sample.key xor_aes_ok eq_refl
              [0xD800]%Z Sample.entropy)
    as (blob1 & blob2 & H1 & H2 & Hne & Hd1 & Hd2).
  - discriminate.
  - repeat constructor.
  - vm_compute. discriminate.
  - exists blob1, blob2.
    change (Utf16.toWellFormed [0xD800]%Z) with [0xFFFD]%Z in Hd1, Hd2.
    repeat split; try assumption.
    + rewrite Hd1. discriminate.
    + rewrite Hd2. discriminate.
Qed.

Lemma decrypt_accepts_extra_segments_witness :
  exists blob : string,
    fst (encrypt Sample.key "123456789012" Sample.entropy) = Ok blob /\
    isValidEncryptedFormat (blob ++ ":zz")%string = false /\
    decrypt Sample.key (blob ++ ":zz")%string = Ok "123456789012"%string.
Proof.
  apply (decrypt_accepts_extra_segments Sample.key xor_aes_ok eq_refl
           "123456789012" "zz" Sample.entropy).
  discriminate.
Defined.

End CipherRuns.

Section ComparePasswordRuns.
#[local] Existing Instance Sample.plain_bcrypt.

Lemma comparePassword_total_witness :
  comparePassword (Str "Correct#1") (Str "$2b$Correct#1") = Ok true /\
  comparePassword (Str "guess") (Str "$2b$Correct#1") = Ok false /\
  comparePassword (Str "") (Str "$2b$Correct#1") = Ok false /\
  comparePassword (Str "Correct#1") Null = Ok false /\
  comparePassword (Num 7) (Str "$2b$Correct#1") = Ok false.
Proof.
  split.
  - apply (proj2 (proj2 (proj2 (proj2
      (comparePassword_total (Str "Correct#1") (Str "$2b$Correct#1")))))).
    repeat split.
  - split; [|split; [|split]].
    + apply (proj1 (proj2 (proj2 (proj2
        (comparePassword_total (Str "guess") (Str "$2b$Correct#1")))))).
      reflexivity.
    + apply (proj1 (proj2 (comparePassword_total (Str "") (Str "$2b$Correct#1")))).
      left. reflexivity.
    + apply (proj1 (proj2 (comparePassword_total (Str "Correct#1") Null))).
      right. reflexivity.
    + apply (proj1 (proj2 (proj2
        (comparePassword_total (Num 7) (Str "$2b$Correct#1"))))
               (Error "data and hash must be strings")).
      reflexivity.
Defined.

End ComparePasswordRuns.

(* ================================================================== *)
(** * Further properties of the code *)

(* ------------------------------------------------------------------ *)
(** ** The encryption key at module load *)

Section KeyLoadingFacts.
Import KeyLoading.

(** X1. The module loads exactly when [ENCRYPTION_SECRET] is set to a string
    of length 32, and the key is then that string: an unset or empty
    variable falls back to the built-in default, whose length is 33, and the
    module throws. *)
Theorem load_key_iff (ENCRYPTION_SECRET : option string) (k : string) :
  load ENCRYPTION_SECRET = Ok k <->
  ENCRYPTION_SECRET = Some k /\ String.length k = 32.
Proof.
  unfold load. destruct ENCRYPTION_SECRET as [s|].
  - destruct s as [|c s].
    + cbn. split; [discriminate|]. intros [[= <-] H]. discriminate H.
    + cbn [truthy]. destruct (String.length (String c s) =? 32) eqn:E; cbn [negb].
      * apply Nat.eqb_eq in E. split.
        -- intros [= <-]. auto.
        -- intros [[= <-] _]. reflexivity.
      * apply Nat.eqb_neq in E. split; [discriminate|].
        intros [[= <-] H]. contradiction.
  - cbn. split; [discriminate | intros [H _]; discriminate H].
Qed.

End KeyLoadingFacts.

(* ------------------------------------------------------------------ *)
(** ** Password strength *)

Section PasswordStrengthFacts.
Import PasswordStrength.

Lemma push_if_length (c : bool) (m : string) (es : list string) :
  List.length (push_if c m es) = List.length es + (if c then 1 else 0).
Proof. destruct c; cbn [push_if]; [rewrite length_app; reflexivity | lia]. Qed.

Lemma push_if_In (c : bool) (m m' : string) (es : list string) :
  In m' (push_if c m es) <-> In m' es \/ (c = true /\ m' = m).
Proof.
  destruct c; cbn [push_if].
  - rewrite in_app_iff. cbn. intuition congruence.
  - intuition discriminate.
Qed.

Lemma lower_ascii_special (c : ascii) : is_special (lower_ascii c) = is_special c.
Proof.
  destruct c as [[] [] [] [] [] [] [] []]; reflexivity.
Qed.

Lemma toLowerCase_special (s : string) :
  has is_special (toLowerCase s) = has is_special s.
Proof.
  induction s as [|c s IH]; [reflexivity|].
  cbn [toLowerCase has]. rewrite lower_ascii_special, IH. reflexivity.
Qed.

(** A password that lower-cases to a listed common password holds no
    special character. *)
Lemma common_has_no_special (password : string) :
  existsb (String.eqb (toLowerCase password)) commonPasswords = true ->
  has is_special password = false.
Proof.
  intros H. apply existsb_exists in H. destruct H as (x & Hin & Heq).
  apply String.eqb_eq in Heq. rewrite <- toLowerCase_special, Heq.
  assert (Hall : forallb (fun p => negb (has is_special p)) commonPasswords = true)
    by reflexivity.
  rewrite forallb_forall in Hall. apply negb_true_iff, Hall, Hin.
Qed.

(** X2. [validatePasswordStrength] accepts a password exactly when its
    length is between 8 and 128 and it holds an upper-case letter, a
    lower-case letter, a digit and a special character; the list of common
    passwords decides nothing: whenever it reports 'too common' it also
    reports the missing special character. *)
Theorem validatePasswordStrength_accepts (password : string) :
  (isValid (validatePasswordStrength password) = true <->
   8 <= String.length password <= 128 /\
   has is_upper password = true /\ has is_lower password = true /\
   has is_digit password = true /\ has is_special password = true) /\
  (In too_common (errors (validatePasswordStrength password)) ->
   In no_special (errors (validatePasswordStrength password))).
Proof.
  unfold validatePasswordStrength.
  destruct password as [|c s].
  - cbn. split; [split; [discriminate | lia]|].
    intros [H|[]]. discriminate H.
  - cbn [truthy negb]. cbv zeta. cbn [isValid errors].
    set (password := String c s).
    split.
    + rewrite Nat.eqb_eq, !push_if_length. cbn [List.length].
      destruct (String.length password <? 8) eqn:E1;
        [apply Nat.ltb_lt in E1 | apply Nat.ltb_ge in E1];
      destruct (128 <? String.length password) eqn:E2;
        [apply Nat.ltb_lt in E2 | apply Nat.ltb_ge in E2 |
         apply Nat.ltb_lt in E2 | apply Nat.ltb_ge in E2];
      destruct (has is_upper password), (has is_lower password),
               (has is_digit password);
      destruct (has is_special password) eqn:E6;
      destruct (existsb (String.eqb (toLowerCase password)) commonPasswords) eqn:E7;
      try (apply common_has_no_special in E7; congruence);
      cbn [negb]; split; intros H; try lia; try (intuition discriminate);
      try (repeat split; auto; lia).
    + rewrite push_if_In. intros [H|[Hc _]].
      * exfalso. repeat (apply push_if_In in H; destruct H as [H|[_ H]];
                         [|discriminate H]). destruct H.
      * apply push_if_In. left. apply push_if_In. right.
        rewrite (common_has_no_special password Hc). auto.
Qed.

End PasswordStrengthFacts.

(* ------------------------------------------------------------------ *)
(** ** The bearer header and the tokens *)

Section TokenFacts.
Import Jwt JwtTools.

Lemma split_one (c : ascii) (s b : string) :
  split c s = [b] -> s = b /\ includes c s = false.
Proof.
  revert b; induction s as [|x s IH]; intros b; cbn [split includes].
  - intros [= <-]. auto.
  - destruct (Ascii.eqb x c).
    + intros [= _ H]. now apply split_nonempty in H.
    + destruct (split c s) as [|p ps] eqn:E; [intros [= <-]; now apply split_nonempty in E|].
      intros [= <- ->]. destruct (IH p eq_refl) as [-> Hno]. auto.
Qed.

Lemma split_two (c : ascii) (s a b : string) :
  split c s = [a; b] ->
  s = (a ++ String c b)%string /\ includes c a = false /\ includes c b = false.
Proof.
  revert a; induction s as [|x s IH]; intros a; cbn [split]; [discriminate|].
  destruct (Ascii.eqb x c) eqn:Ex.
  - intros [= <- H]. apply Ascii.eqb_eq in Ex. subst x.
    apply split_one in H. destruct H as [-> Hno]. auto.
  - destruct (split c s) as [|p ps] eqn:E; [discriminate|].
    intros [= <- ->]. destruct (IH p eq_refl) as (-> & Ha & Hb).
    cbn [append includes]. rewrite Ex. auto.
Qed.

(** A token comes out of a header of the form ['Bearer ' + token] only. *)
Lemma bearer_header (authHeader : option string) (token : string) :
  extractTokenFromHeader authHeader = Some token ->
  authHeader = Some ("Bearer " ++ token)%string /\ includes space token = false.
Proof.
  unfold extractTokenFromHeader.
  destruct authHeader as [header|]; [|discriminate].
  destruct (truthy header); cbn [negb]; [|discriminate].
  destruct (split space header) as [|a [|b [|x rest]]] eqn:E; cbn; try discriminate.
  destruct (String.eqb a "Bearer") eqn:Ea; cbn; [|discriminate].
  intros [= ->]. apply String.eqb_eq in Ea. subst a.
  apply split_two in E. destruct E as (-> & _ & Hb). auto.
Qed.

(** The token of a well-formed header is extracted. *)
Lemma bearer_token (token : string) :
  includes space token = false ->
  extractTokenFromHeader (Some ("Bearer " ++ token)%string) = Some token.
Proof.
  intros Hno. unfold extractTokenFromHeader.
  change ("Bearer " ++ token)%string with ("Bearer" ++ String space token)%string.
  rewrite truthy_append_separator. cbn [negb].
  rewrite split_at_first by reflexivity.
  rewrite (split_without space token Hno). reflexivity.
Qed.

(** X3. [extractTokenFromHeader] returns a token exactly for the header
    ['Bearer ' + token] with no space in the token; the scheme is matched
    with its case, a second space or a missing scheme gives [null]. *)
Theorem extractTokenFromHeader_iff (authHeader : option string) (token : string) :
  extractTokenFromHeader authHeader = Some token <->
  authHeader = Some ("Bearer " ++ token)%string /\ includes space token = false.
Proof.
  split.
  - apply bearer_header.
  - intros [-> Hno]. apply bearer_token. exact Hno.
Qed.

Lemma opt_eqb_string_eq (x y : option string) :
  opt_eqb String.eqb x y = true -> x = y.
Proof.
  destruct x, y; cbn; try discriminate; [|reflexivity].
  intros H. apply String.eqb_eq in H. congruence.
Qed.

Lemma opt_eqb_Z_eq (x y : option Z) : opt_eqb Z.eqb x y = true -> x = y.
Proof.
  destruct x, y; cbn; try discriminate; [|reflexivity].
  intros H. apply Z.eqb_eq in H. congruence.
Qed.

Lemma payload_eqb_eq (p q : Payload) : payload_eqb p q = true -> p = q.
Proof.
  unfold payload_eqb. rewrite !andb_true_iff.
  intros (((((((H1 & H2) & H3) & H4) & H5) & H6) & H7) & H8).
  destruct p, q; cbn in *.
  apply opt_eqb_string_eq in H1, H2, H3, H7, H8.
  apply opt_eqb_Z_eq in H4, H5, H6. congruence.
Qed.

(** What [jwt.verify] has checked when it returns. *)
Lemma verify_ok (t : Token) (secret : string) (o : VerifyOptions) (clock : Z) (p : Payload) :
  verify t secret o clock = Ok p ->
  t = Signed p (HS256 secret p) /\
  aud p = Some (vo_audience o) /\ iss p = Some (vo_issuer o) /\
  (forall e, exp p = Some e -> (clock < e)%Z) /\
  (forall n, nbf p = Some n -> (n <= clock)%Z).
Proof.
  unfold verify. destruct t as [| |q sig]; try discriminate.
  destruct (signature_eqb sig (HS256 secret q)) eqn:Es; cbn [negb]; [|discriminate].
  destruct (match nbf q with Some n => (clock <? n)%Z | None => false end) eqn:En;
    [discriminate|].
  destruct (match exp q with Some e => (e <=? clock)%Z | None => false end) eqn:Ee;
    [discriminate|].
  destruct (opt_eqb String.eqb (aud q) (Some (vo_audience o))) eqn:Ea; cbn [negb];
    [|discriminate].
  destruct (opt_eqb String.eqb (iss q) (Some (vo_issuer o))) eqn:Ei; cbn [negb];
    [|discriminate].
  intros [= <-].
  destruct sig as [k q']. cbn in Es. apply andb_true_iff in Es. destruct Es as [Ek Eq].
  apply String.eqb_eq in Ek. apply payload_eqb_eq in Eq. subst k q'.
  apply opt_eqb_string_eq in Ea, Ei.
  repeat split; auto.
  - intros e He. rewrite He in Ee. apply Z.leb_gt in Ee. exact Ee.
  - intros n Hn. rewrite Hn in En. apply Z.ltb_ge in En. exact En.
Qed.

(** X4. [verifyToken] returns a payload only for a token that carries the
    signature of that very payload under [JWT_SECRET], with issuer
    ['lenden-app'], audience ['lenden-users'], an expiry still ahead and no
    later start; [verifyRefreshToken] likewise with audience
    ['lenden-refresh'] and the [type] ['refresh'].  The signature is the
    symbolic one of the model. *)
Theorem verifyToken_sound (secret : string) (t : Token) (now : Z) (p : Payload) :
  (verifyToken secret t now = Ok p ->
   t = Signed p (HS256 secret p) /\
   aud p = Some "lenden-users"%string /\ iss p = Some "lenden-app"%string /\
   (forall e, exp p = Some e -> (seconds now < e)%Z) /\
   (forall n, nbf p = Some n -> (n <= seconds now)%Z)) /\
  (verifyRefreshToken secret t now = Ok p ->
   t = Signed p (HS256 secret p) /\
   aud p = Some "lenden-refresh"%string /\ iss p = Some "lenden-app"%string /\
   type p = Some "refresh"%string /\
   (forall e, exp p = Some e -> (seconds now < e)%Z) /\
   (forall n, nbf p = Some n -> (n <= seconds now)%Z)).
Proof.
  split.
  - unfold verifyToken. destruct (truthy_token t); cbn [negb]; [|discriminate].
    destruct (verify t secret _ (seconds now)) as [q|e] eqn:Ev; cbn [try_catch].
    + intros [= <-]. apply verify_ok in Ev. exact Ev.
    + repeat match goal with |- context [if ?c then _ else _] => destruct c end;
        discriminate.
  - intros H. pose proof (verifyRefreshToken_type secret t now p H) as Htype.
    revert H. unfold verifyRefreshToken.
    destruct (truthy_token t); cbn [negb]; [|discriminate].
    destruct (verify t secret _ (seconds now)) as [q|e] eqn:Ev; cbn [bind try_catch].
    + destruct (opt_eqb String.eqb (type q) (Some "refresh"%string)); cbn [negb try_catch].
      * intros [= <-]. apply verify_ok in Ev.
        destruct Ev as (A & B & C & D & E). auto 10.
      * discriminate.
    + repeat match goal with |- context [if ?c then _ else _] => destruct c end;
        discriminate.
Qed.

Lemma generateToken_ok (secret : string) (req : TokenRequest) (expiresIn issued : Z) :
  truthy secret = true -> truthy_opt (tr_userId req) = true ->
  generateToken secret req expiresIn issued =
  Ok (Signed (access_payload req expiresIn issued)
        (HS256 secret (access_payload req expiresIn issued))).
Proof.
  intros Hs Hu. unfold generateToken, sign. rewrite Hu, Hs. reflexivity.
Qed.

Lemma generateRefreshToken_ok (secret : string) (req : TokenRequest) (issued : Z) :
  truthy secret = true -> truthy_opt (tr_userId req) = true ->
  generateRefreshToken secret req issued =
  Ok (Signed (refresh_payload req issued) (HS256 secret (refresh_payload req issued))).
Proof.
  intros Hs Hu. unfold generateRefreshToken, sign. rewrite Hu, Hs. reflexivity.
Qed.

Lemma verifyToken_access (secret : string) (req : TokenRequest) (expiresIn issued now : Z) :
  verifyToken secret
    (Signed (access_payload req expiresIn issued)
       (HS256 secret (access_payload req expiresIn issued))) now =
  if (seconds issued + expiresIn <=? seconds now)%Z
  then Throw (Error "Token has expired")
  else Ok (access_payload req expiresIn issued).
Proof.
  unfold verifyToken. cbn [truthy_token negb].
  rewrite verify_own_token by reflexivity. cbn [exp access_payload].
  destruct (seconds issued + expiresIn <=? seconds now)%Z; reflexivity.
Qed.

Lemma verifyRefreshToken_refresh (secret : string) (req : TokenRequest) (issued now : Z) :
  verifyRefreshToken secret
    (Signed (refresh_payload req issued) (HS256 secret (refresh_payload req issued))) now =
  if (seconds issued + 604800 <=? seconds now)%Z
  then Throw (Error "Refresh token has expired")
  else Ok (refresh_payload req issued).
Proof.
  unfold verifyRefreshToken. cbn [truthy_token negb].
  rewrite verify_own_token by reflexivity. cbn [exp refresh_payload].
  destruct (seconds issued + 604800 <=? seconds now)%Z; reflexivity.
Qed.

(** X5. A token pair issued for a user is accepted until it expires: the
    access token by [verifyToken], the refresh token by
    [verifyRefreshToken], each returning the payload it was issued with: the
    user id (and for the access token the email), the time of issue and the
    expiry. *)
Theorem issued_tokens_verify
  (secret : string) (req : TokenRequest) (expiresIn issued now : Z)
  (Hsecret : truthy secret = true)
  (Huser : truthy_opt (tr_userId req) = true) :
  exists access refresh : Token,
    generateToken secret req expiresIn issued = Ok access /\
    generateRefreshToken secret req issued = Ok refresh /\
    ((seconds now < seconds issued + expiresIn)%Z ->
     verifyToken secret access now = Ok (access_payload req expiresIn issued)) /\
    ((seconds now < seconds issued + 604800)%Z ->
     verifyRefreshToken secret refresh now = Ok (refresh_payload req issued)).
Proof.
  rewrite generateToken_ok, generateRefreshToken_ok by assumption.
  do 2 eexists. split; [reflexivity|]. split; [reflexivity|]. split; intros Hlt.
  - rewrite verifyToken_access.
    replace (seconds issued + expiresIn <=? seconds now)%Z with false
      by (symmetry; apply Z.leb_gt; exact Hlt).
    reflexivity.
  - rewrite verifyRefreshToken_refresh.
    replace (seconds issued + 604800 <=? seconds now)%Z with false
      by (symmetry; apply Z.leb_gt; exact Hlt).
    reflexivity.
Qed.

(** X6. [isTokenExpired] and [verifyToken] disagree on the last second: for
    an issued access token with expiry [e], [isTokenExpired] is [true]
    exactly when [e] is before the clock, while [verifyToken] answers 'Token
    has expired' exactly when [e] is not after the clock; when the clock
    equals [e] the token is refused as expired although [isTokenExpired] is
    [false]. *)
Theorem isTokenExpired_boundary
  (secret : string) (req : TokenRequest) (expiresIn issued now : Z)
  (Hsecret : truthy secret = true)
  (Huser : truthy_opt (tr_userId req) = true)
  (Hexp : (0 < seconds issued + expiresIn)%Z) :
  exists access : Token,
    generateToken secret req expiresIn issued = Ok access /\
    (isTokenExpired access now = true <->
     (seconds issued + expiresIn < seconds now)%Z) /\
    (verifyToken secret access now = Throw (Error "Token has expired") <->
     (seconds issued + expiresIn <= seconds now)%Z) /\
    (seconds now = (seconds issued + expiresIn)%Z ->
     isTokenExpired access now = false /\
     verifyToken secret access now = Throw (Error "Token has expired")).
Proof.
  rewrite generateToken_ok by assumption.
  eexists. split; [reflexivity|].
  rewrite verifyToken_access.
  unfold isTokenExpired. cbn [decode exp access_payload].
  replace (seconds issued + expiresIn =? 0)%Z with false
    by (symmetry; apply Z.eqb_neq; lia).
  split; [apply Z.ltb_lt|]. split.
  - destruct (seconds issued + expiresIn <=? seconds now)%Z eqn:E.
    + apply Z.leb_le in E. tauto.
    + apply Z.leb_gt in E. split; [discriminate | lia].
  - intros Heq. split; [apply Z.ltb_ge; lia|].
    replace (seconds issued + expiresIn <=? seconds now)%Z with true
      by (symmetry; apply Z.leb_le; lia).
    reflexivity.
Qed.

End TokenFacts.

(* ------------------------------------------------------------------ *)
(** ** What [login] does to the collection *)

Section LoginFacts.
Import UserModel UserMethods AuthController.
Context {aes : AES256} {bc : Bcrypt}.
Variable cfg : Config.

Lemma credentials_apply_update (upd : Update) (u : Fields) :
  credentials (apply_update upd u) = credentials u.
Proof. reflexivity. Qed.

Lemma credentials_updateOne (id : string) (upd : Update) (db : DB) :
  List.map credentials (updateOne id upd db) = List.map credentials db.
Proof.
  induction db as [|v db IH]; cbn [updateOne List.map]; [reflexivity|].
  destruct (String.eqb (_id v) id); cbn [List.map]; [reflexivity | now rewrite IH].
Qed.

Lemma credentials_store_lastLogin (u : Fields) (t : option Z) (db : DB) :
  List.map credentials (store (set_lastLogin t (mkDocument u false [])) db) =
  List.map credentials db.
Proof.
  induction db as [|v db IH]; cbn [store List.map]; [reflexivity|].
  destruct (String.eqb (_id v) _); cbn [List.map]; [|now rewrite IH].
  f_equal. unfold set_lastLogin, mark, isModified. cbn.
  destruct (negb (Jwt.opt_eqb Z.eqb (lastLogin u) t)); reflexivity.
Qed.

(** The collection after a login, whatever the request. *)
Lemma login_db_after (e pw : string) (now : Z) (db : DB) (g : Entropy) :
  db_after (login cfg e pw now db g) = db \/
  (exists u, findByEmail e db = Some u /\
             db_after (login cfg e pw now db g) =
             updateOne (_id u) (incLoginAttempts u now) db) \/
  (exists u, findByEmail e db = Some u /\
             isLocked u now = false /\
             db_after (login cfg e pw now db g) =
             store (set_lastLogin (Some now) (mkDocument u false []))
               (if (loginAttempts_of u >? 0)%Z
                then updateOne (_id u) resetLoginAttempts db else db)).
Proof.
  unfold login.
  destruct (negb (truthy e) || negb (truthy pw)); [now left|].
  destruct (findByEmail e db) as [u|]; [|now left].
  destruct (isLocked u now) eqn:Hl; [now left|].
  destruct (negb (String.eqb (status u) "active")); [now left|].
  destruct (bcrypt_compare _ _) as [[|]|err]; [| |now left].
  - right. right. exists u. split; [reflexivity|]. split; [exact Hl|].
    unfold save. rewrite preSave_lastLogin.
    destruct (loginAttempts_of u >? 0)%Z;
      change (isNew (set_lastLogin (Some now) (mkDocument u false []))) with false;
      cbv iota;
      destruct (Jwt.generateToken _ _ _ _); try reflexivity;
      destruct (Jwt.generateRefreshToken _ _ _); reflexivity.
  - right. left. exists u. split; reflexivity.
Qed.

Lemma credentials_login (e pw : string) (now : Z) (db : DB) (g : Entropy) :
  List.map credentials (db_after (login cfg e pw now db g)) = List.map credentials db.
Proof.
  destruct (login_db_after e pw now db g) as [H|[(u & _ & H)|(u & _ & _ & H)]];
    rewrite H; [reflexivity | apply credentials_updateOne |].
  rewrite credentials_store_lastLogin.
  destruct (loginAttempts_of u >? 0)%Z; [apply credentials_updateOne | reflexivity].
Qed.

(** X7. Whatever the request, [login] changes no stored [_id], [email],
    [password] hash, [aadhaarNumber] or [status]: the save of [lastLogin]
    does not hash the stored hash again nor encrypt the stored blob again. *)
Theorem login_keeps_credentials (e pw : string) (now : Z) (db : DB) (g : Entropy) :
  List.map credentials (db_after (login cfg e pw now db g)) = List.map credentials db.
Proof.
  exact (credentials_login e pw now db g).
Qed.

Lemma ids_of_credentials (db db' : DB) :
  List.map credentials db' = List.map credentials db ->
  List.map _id db' = List.map _id db.
Proof.
  intros H.
  apply (f_equal (List.map (fun c : string * string * string * string * string =>
                              fst (fst (fst (fst c)))))) in H.
  rewrite !map_map in H. exact H.
Qed.

Lemma unique_id (db : DB) (u v : Fields) :
  NoDup (List.map _id db) -> In u db -> In v db -> _id v = _id u -> v = u.
Proof.
  induction db as [|w db IH]; cbn [List.map]; intros Hnd Hu Hv Hid; [destruct Hu|].
  inversion Hnd as [|? ? Hnotin Hnd']; subst.
  destruct Hu as [->|Hu], Hv as [->|Hv]; auto.
  - exfalso. apply Hnotin. rewrite <- Hid. now apply in_map.
  - exfalso. apply Hnotin. rewrite Hid. now apply in_map.
Qed.

Lemma updateOne_Forall (P : Fields -> Prop) (id : string) (upd : Update) (db : DB) :
  (forall v, In v db -> _id v = id -> P (apply_update upd v)) ->
  Forall P db -> Forall P (updateOne id upd db).
Proof.
  induction db as [|w db IH]; cbn [updateOne]; intros Hupd Hall; [constructor|].
  inversion Hall; subst.
  destruct (String.eqb (_id w) id) eqn:E.
  - constructor; [|assumption]. apply Hupd; [now left | now apply String.eqb_eq].
  - constructor; [assumption|]. apply IH; [|assumption].
    intros v Hv. apply Hupd. now right.
Qed.

Lemma store_lastLogin_Forall (P : Fields -> Prop) (u : Fields) (t : option Z) (db : DB) :
  (forall v, P v ->
     P (mkFields (_id v) (email v) (password v) (aadhaarNumber v) (status v)
          t (loginAttempts v) (lockUntil v))) ->
  Forall P db -> Forall P (store (set_lastLogin t (mkDocument u false [])) db).
Proof.
  intros Hset. induction 1 as [|w db Hw Hdb IH]; cbn [store]; [constructor|].
  destruct (String.eqb (_id w) _); constructor; auto.
  unfold set_lastLogin, mark, isModified. cbn.
  destruct (negb (Jwt.opt_eqb Z.eqb (lastLogin u) t)); cbn; [apply Hset, Hw|].
  destruct w; exact Hw.
Qed.

Lemma lock_counted_incLoginAttempts (u : Fields) (now : Z) :
  lock_counted u -> lock_counted (apply_update (incLoginAttempts u now) u).
Proof.
  unfold lock_counted, incLoginAttempts, isLocked. intros [Hpos Hinv].
  destruct (lockUntil u) as [until|] eqn:Hl.
  - specialize (Hinv until eq_refl).
    destruct (until <? now)%Z; cbn; [split; [lia | discriminate]|].
    destruct (loginAttempts_of u + 1 >=? 5)%Z, (negb (until >? now)%Z); cbn;
      rewrite ?Hl; (split; [|intros t _]); unfold loginAttempts_of in *; cbn; lia.
  - cbn. destruct (loginAttempts_of u + 1 >=? 5)%Z eqn:E; cbn; rewrite ?Hl;
      (split; [unfold loginAttempts_of in *; cbn; lia|]); [|discriminate].
    intros t _. apply Z.geb_le in E. unfold loginAttempts_of in *. cbn. lia.
Qed.

(** X8. Every login keeps this invariant of a collection with distinct
    ids: the count of attempts is not negative and a stored [lockUntil]
    comes with at least five counted attempts.  A new account, with no
    counted attempt and no lock, has it, so it holds in every state a
    sequence of logins reaches from new accounts. *)
Theorem login_keeps_lock_counted
  (requests : list Request) (db : DB) (g : Entropy)
  (Hids : NoDup (List.map _id db))
  (Hinv : Forall lock_counted db) :
  Forall lock_counted (fst (serve cfg requests db g)) /\
  NoDup (List.map _id (fst (serve cfg requests db g))).
Proof.
  revert db g Hids Hinv.
  induction requests as [|r rest IH]; intros db g Hids Hinv; cbn [serve fst];
    [auto|].
  apply IH.
  - rewrite (ids_of_credentials _ _ (credentials_login _ _ _ _ _)). exact Hids.
  - destruct (login_db_after (rq_email r) (rq_password r) (rq_at r) db g)
      as [H|[(u & Hf & H)|(u & Hf & _ & H)]]; rewrite H; [exact Hinv | |].
    + apply updateOne_Forall; [|exact Hinv].
      intros v Hv Hid.
      rewrite (unique_id db u v Hids (findByEmail_in _ _ _ Hf) Hv Hid).
      apply lock_counted_incLoginAttempts.
      rewrite Forall_forall in Hinv. apply Hinv, (findByEmail_in _ _ _ Hf).
    + apply store_lastLogin_Forall; [intros v Hv; exact Hv|].
      destruct (loginAttempts_of u >? 0)%Z; [|exact Hinv].
      apply updateOne_Forall; [|exact Hinv].
      intros v _ _. split; [reflexivity | discriminate].
Qed.

(** X9. [login] answers 200 only when the email belongs to a stored account
    that is not locked, is active, and whose stored hash [bcrypt.compare]
    accepted for the password; the user in the answer is that account. *)
Theorem login_success_sound
  (e pw : string) (now : Z) (db : DB) (g : Entropy)
  (msg : string) (data : option LoginData) :
  response (login cfg e pw now db g) = Json 200 true msg data ->
  exists (u : Fields) (d : LoginData),
    findByEmail e db = Some u /\
    isLocked u now = false /\
    status u = "active"%string /\
    bcrypt_compare (Str pw) (Str (password u)) = Ok true /\
    data = Some d /\ su_id (ld_user d) = _id u /\ su_email (ld_user d) = email u.
Proof.
  unfold login.
  destruct (negb (truthy e) || negb (truthy pw)); [discriminate|].
  destruct (findByEmail e db) as [u|]; [|discriminate].
  destruct (isLocked u now) eqn:Hl; [discriminate|].
  destruct (String.eqb (status u) "active") eqn:Hs; cbn [negb]; [|discriminate].
  destruct (bcrypt_compare _ _) as [[|]|err] eqn:Hc; [| discriminate | discriminate].
  unfold save. rewrite preSave_lastLogin.
  destruct (if (loginAttempts_of u >? 0)%Z then _ else _) as [db1 tr1].
  cbv iota beta. cbn [fields].
  destruct (Jwt.generateToken _ _ _ _); [|discriminate].
  destruct (Jwt.generateRefreshToken _ _ _); [|discriminate].
  cbn [response]. intros [= <- <-].
  apply String.eqb_eq in Hs.
  eexists; eexists. repeat split; try reflexivity; assumption.
Qed.

(** X10. For an account that is not active, [login] runs no password check
    and writes nothing: it answers 423 while a lock is pending and 401
    otherwise. *)
Theorem login_inactive_account
  (e pw : string) (now : Z) (db : DB) (g : Entropy) (u : Fields)
  (He : truthy e = true) (Hpw : truthy pw = true)
  (Hfind : findByEmail e db = Some u)
  (Hstatus : status u <> "active"%string) :
  login cfg e pw now db g =
  mkOutcome
    (if isLocked u now then Json 423 false locked_message None
     else Json 401 false "Account is inactive. Please contact support." None)
    db g [].
Proof.
  unfold login. rewrite He, Hpw, Hfind. cbn [negb orb].
  destruct (isLocked u now); [reflexivity|].
  destruct (String.eqb (status u) "active") eqn:E; [|reflexivity].
  apply String.eqb_eq in E. contradiction.
Qed.

End LoginFacts.

Section LoginSuccess.
Import UserModel UserMethods AuthController JwtTools.
Context {aes : AES256} {bc : Bcrypt}.
Variable cfg : Config.

Lemma findByEmail_store_lastLogin
  (e : string) (u v : Fields) (t : option Z) (db : DB) :
  NoDup (List.map _id db) ->
  findByEmail e db = Some v ->
  _id u = _id v -> lastLogin u = lastLogin v ->
  findByEmail e (store (set_lastLogin t (mkDocument u false [])) db) =
  Some (mkFields (_id v) (email v) (password v) (aadhaarNumber v) (status v)
          t (loginAttempts v) (lockUntil v)).
Proof.
  unfold findByEmail. intros Hnd Hfind Hid Hlast.
  induction db as [|w db IH]; cbn [store List.find] in *; [discriminate|].
  inversion Hnd as [|? ? Hnotin Hnd']; subst.
  replace (_id (fields (set_lastLogin t (mkDocument u false [])))) with (_id v)
    by (symmetry; exact Hid).
  destruct (String.eqb (email w) (toLowerCase e)) eqn:Hw.
  - injection Hfind as ->. rewrite String.eqb_refl. cbn [List.find].
    unfold set_lastLogin, mark, isModified. cbn.
    destruct (Jwt.opt_eqb Z.eqb (lastLogin u) t) eqn:E; cbn; rewrite Hw; [|reflexivity].
    apply opt_eqb_Z_eq in E. destruct v; cbn in *. congruence.
  - destruct (String.eqb (_id w) (_id v)) eqn:Hwid.
    + exfalso. apply String.eqb_eq in Hwid. apply Hnotin. rewrite Hwid.
      apply in_map. apply List.find_some in Hfind. tauto.
    + cbn [List.find]. rewrite Hw. apply IH; assumption.
Qed.

(** X11. A login with the right password on an active account that is not
    locked answers 200 with the account's id and email and a token pair;
    the access token is accepted by [verifyToken] until [JWT_EXPIRE] seconds
    later, the refresh token by [verifyRefreshToken] for seven days, each
    naming the account's id; and the stored account then has no counted
    attempt, no lock, [lastLogin] at the time of the login and its
    credentials as before. *)
Theorem login_success
  (e pw : string) (now : Z) (db : DB) (g : Entropy) (u : Fields)
  (He : truthy e = true) (Hpw : truthy pw = true)
  (Hids : NoDup (List.map _id db))
  (Hfind : findByEmail e db = Some u)
  (Hunlocked : isLocked u now = false)
  (Hactive : status u = "active"%string)
  (Hcounted : lock_counted u)
  (Hright : bcrypt_compare (Str pw) (Str (password u)) = Ok true)
  (Hsecret : truthy (JWT_SECRET cfg) = true)
  (Hid : truthy (_id u) = true) :
  let o := login cfg e pw now db g in
  exists (access refresh : Jwt.Token) (u' : Fields),
    response o =
      Json 200 true "Login successful"
        (Some (mkLoginData (mkSafeUser (_id u) (email u) (status u) (Some now))
                 access refresh (JWT_EXPIRE cfg))) /\
    (forall later,
        (Jwt.seconds later < Jwt.seconds now + JWT_EXPIRE cfg)%Z ->
        exists p, Jwt.verifyToken (JWT_SECRET cfg) access later = Ok p /\
                  Jwt.userId p = Some (_id u) /\ Jwt.email p = Some (email u)) /\
    (forall later,
        (Jwt.seconds later < Jwt.seconds now + 604800)%Z ->
        exists p, Jwt.verifyRefreshToken (JWT_SECRET cfg) refresh later = Ok p /\
                  Jwt.userId p = Some (_id u)) /\
    findByEmail e (db_after o) = Some u' /\
    loginAttempts_of u' = 0%Z /\ lockUntil u' = None /\
    lastLogin u' = Some now /\ credentials u' = credentials u.
Proof.
  intros o. subst o. unfold login.
  rewrite He, Hpw, Hfind, Hunlocked, Hright. cbn [negb orb].
  replace (String.eqb (status u) "active") with true
    by (symmetry; apply String.eqb_eq; exact Hactive).
  cbn [negb].
  unfold save. rewrite preSave_lastLogin.
  set (doc := set_lastLogin (Some now) (mkDocument u false [])).
  change (isNew doc) with false. cbv iota.
  set (db1 := if (loginAttempts_of u >? 0)%Z
              then updateOne (_id u) resetLoginAttempts db else db).
  assert (Hdb : exists v, findByEmail e db1 = Some v /\ _id v = _id u /\
                          lastLogin v = lastLogin u /\
                          credentials v = credentials u /\
                          loginAttempts_of v = 0%Z /\ lockUntil v = None /\
                          NoDup (List.map _id db1)).
  { unfold db1. destruct (loginAttempts_of u >? 0)%Z eqn:E.
    - exists (apply_update resetLoginAttempts u).
      split; [apply findByEmail_updateOne; assumption|].
      rewrite updateOne_ids. repeat split; auto.
    - exists u. rewrite Z.gtb_ltb in E. apply Z.ltb_ge in E.
      destruct Hcounted as [Hpos Hlock].
      assert (Hnone : lockUntil u = None).
      { destruct (lockUntil u) as [t|] eqn:Hl; [|reflexivity].
        specialize (Hlock t eq_refl). lia. }
      repeat split; auto. lia. }
  destruct Hdb as (v & Hv & Hvid & Hvlast & Hvcred & Hvzero & Hvlock & Hnd1).
  assert (Hstored := findByEmail_store_lastLogin e u v (Some now) db1 Hnd1 Hv
                       (eq_sym Hvid) (eq_sym Hvlast)).
  fold doc in Hstored.
  replace (if (loginAttempts_of u >? 0)%Z
           then (updateOne (_id u) resetLoginAttempts db,
                 [UpdateOne (_id u) resetLoginAttempts])
           else (db, []))
    with (db1, if (loginAttempts_of u >? 0)%Z
               then [UpdateOne (_id u) resetLoginAttempts] else [])
    by (unfold db1; destruct (loginAttempts_of u >? 0)%Z; reflexivity).
  cbv iota beta. cbn [fields doc set_lastLogin _id email status lastLogin].
  rewrite generateToken_ok, generateRefreshToken_ok by assumption.
  cbn [response db_after].
  do 3 eexists. split; [reflexivity|]. split; [|split; [|split; [exact Hstored|]]].
  - intros later Hlt. eexists. rewrite verifyToken_access.
    replace (Jwt.seconds now + JWT_EXPIRE cfg <=? Jwt.seconds later)%Z with false
      by (symmetry; apply Z.leb_gt; exact Hlt).
    repeat split.
  - intros later Hlt. eexists. rewrite verifyRefreshToken_refresh.
    replace (Jwt.seconds now + 604800 <=? Jwt.seconds later)%Z with false
      by (symmetry; apply Z.leb_gt; exact Hlt).
    repeat split.
  - cbn [lockUntil lastLogin]. unfold loginAttempts_of in *.
    cbn [loginAttempts]. repeat split; auto.
Qed.

End LoginSuccess.

(* ------------------------------------------------------------------ *)
(** ** The shape of a blob, and what [decrypt] accepts *)

Section BlobFacts.
Import Encryption.
Context {aes : AES256}.
Variable ENCRYPTION_KEY : string.

Lemma blocks_length (n : nat) (data : list byte) : List.length (blocks n data) = n.
Proof.
  revert data; induction n as [|n IH]; intros data; cbn [blocks List.length];
    [reflexivity | now rewrite IH].
Qed.

Lemma hex_encode_length (bs : list byte) :
  String.length (Hex.encode bs) = 2 * List.length bs.
Proof.
  induction bs as [|b bs IH]; [reflexivity|].
  cbn [Hex.encode Hex.hex_of_byte append String.length List.length]. rewrite IH. lia.
Qed.

Lemma string_length_append (a b : string) :
  String.length (a ++ b)%string = String.length a + String.length b.
Proof. induction a as [|x a IH]; cbn; [reflexivity | now rewrite IH]. Qed.

Lemma cbc_encrypt_chain_length (aes_ok : block_cipher_ok aes)
  (key : list byte) (bs : list (list byte)) :
  whole bs -> forall chain, List.length chain = 16 ->
  List.length (snd (cbc_encrypt key chain bs)) = 16.
Proof.
  induction 1 as [|b bs Hb Hbs IH]; intros chain Hchain; cbn [cbc_encrypt];
    [exact Hchain|].
  specialize (IH (aes_encrypt_block key (xor_bytes b chain))).
  destruct (cbc_encrypt key (aes_encrypt_block key (xor_bytes b chain)) bs) as [o c].
  cbn [snd] in *. apply IH. apply (proj1 aes_ok).
  rewrite xor_bytes_length; congruence.
Qed.

(** The bytes a fresh cipher produces for [data]: one block more than the
    whole blocks of [data]. *)
Lemma cipher_output_length (aes_ok : block_cipher_ok aes)
  (key : string) (iv data : list byte) :
  List.length (utf8 key) = 32 -> List.length iv = 16 ->
  exists (cipher cipher' : Cipher) (out : list byte),
    createCipheriv key iv = Ok cipher /\
    cipher_update cipher data = (out, cipher') /\
    List.length (out ++ cipher_final cipher') = 16 * (List.length data / 16 + 1).
Proof.
  intros Hkey Hiv.
  unfold createCipheriv, check_key_iv. rewrite Hkey, Hiv. cbn [Nat.eqb negb bind].
  destruct (full_blocks_tail data) as (Hdata & Hfull & Htail).
  pose proof (cbc_encrypt_chain_length aes_ok (utf8 key) _ Hfull iv Hiv) as Hchain.
  destruct (cbc_decrypt_encrypt aes_ok (utf8 key) _ Hfull iv Hiv)
    as (cs & Hcs & Hn & Hout & _).
  destruct (cbc_encrypt (utf8 key) iv (full_blocks data)) as [out ch] eqn:Eenc.
  cbn [fst snd] in *.
  exists (mkCipher (utf8 key) iv []), (mkCipher (utf8 key) ch (tail_bytes data)), out.
  split; [reflexivity|].
  split; [unfold cipher_update; cbn [c_buf c_key c_chain app]; now rewrite Eenc|].
  rewrite length_app, Hout, concat_whole_length by exact Hcs.
  rewrite Hn. unfold full_blocks at 1. rewrite blocks_length.
  unfold cipher_final. cbn [c_buf c_key c_chain].
  rewrite (proj1 aes_ok); [lia|].
  rewrite xor_bytes_length; rewrite length_app, repeat_length; lia.
Qed.

Lemma hex_encode_lower (bs : list byte) : HexText.lower_hex (Hex.encode bs) = true.
Proof.
  induction bs as [|b bs IH]; [reflexivity|].
  cbn [Hex.encode Hex.hex_of_byte append HexText.lower_hex]. rewrite IH.
  destruct b; reflexivity.
Qed.

(** X12. The blob [encrypt] returns for a non-empty text is the lower-case
    hex of the 16 bytes of the IV, one [':'], and the lower-case hex of a
    ciphertext that is one block longer than the whole 16-byte blocks of the
    text; [isValidEncryptedFormat] accepts it, and its length is
    [33 + 32 * (length / 16 + 1)]. *)
Theorem encrypt_blob_format
  (aes_ok : block_cipher_ok aes)
  (key_length : String.length ENCRYPTION_KEY = 32)
  (text : string) (g : Entropy)
  (Htext : text <> EmptyString) :
  exists (iv ct : list byte) (blob : string),
    fst (encrypt ENCRYPTION_KEY text g) = Ok blob /\
    blob = (Hex.encode iv ++ String colon (Hex.encode ct))%string /\
    List.length iv = 16 /\
    List.length ct = 16 * (String.length text / 16 + 1) /\
    HexText.lower_hex (Hex.encode iv) = true /\
    HexText.lower_hex (Hex.encode ct) = true /\
    isValidEncryptedFormat blob = true /\
    String.length blob = 33 + 32 * (String.length text / 16 + 1).
Proof.
  pose proof (randomBytes_length 16 g) as Hiv.
  assert (Hkey : List.length (utf8 ENCRYPTION_KEY) = 32)
    by (rewrite utf8_length; exact key_length).
  destruct (cipher_output_length aes_ok ENCRYPTION_KEY (fst (randomBytes 16 g))
              (utf8 text) Hkey Hiv)
    as (cipher & cipher' & out & Hc & Hu & Hlen).
  rewrite utf8_length in Hlen.
  exists (fst (randomBytes 16 g)), (out ++ cipher_final cipher'),
    (Hex.encode (fst (randomBytes 16 g)) ++
     String colon (Hex.encode (out ++ cipher_final cipher')))%string.
  split.
  - unfold encrypt. destruct text as [|c text]; [congruence|]. cbn [truthy negb].
    destruct (randomBytes 16 g) as [iv g']. cbn [fst snd] in *.
    rewrite Hc. cbn [bind]. rewrite Hu, <- hex_encode_app. reflexivity.
  - split; [reflexivity|]. split; [exact Hiv|]. split; [exact Hlen|].
    split; [apply hex_encode_lower|]. split; [apply hex_encode_lower|]. split.
    + unfold isValidEncryptedFormat.
      rewrite includes_at_separator.
      rewrite split_at_first by apply hex_encode_no_colon.
      rewrite split_without by apply hex_encode_no_colon. reflexivity.
    + rewrite string_length_append. cbn [String.length].
      rewrite !hex_encode_length, Hiv, Hlen. lia.
Qed.

(** X13. [decrypt] returns a text only for an input whose first segment is
    the hex of exactly 16 bytes and whose second segment is the hex of a
    non-empty whole number of 16-byte blocks, under a key of 32 bytes; every
    other input makes it throw. *)
Theorem decrypt_ok_shape (s text : string)
  (Hok : decrypt ENCRYPTION_KEY s = Ok text) :
  exists (ivHex encrypted : string) (rest : list string),
    split colon s = ivHex :: encrypted :: rest /\
    List.length (utf8 ENCRYPTION_KEY) = 32 /\
    List.length (Hex.decode ivHex) = 16 /\
    Hex.decode encrypted <> [] /\
    List.length (Hex.decode encrypted) mod 16 = 0.
Proof.
  revert Hok. unfold decrypt.
  destruct (negb (truthy s) || negb (includes colon s)); [discriminate|].
  unfold decrypt_body.
  destruct (split colon s) as [|ivHex [|encrypted rest]] eqn:Es;
    cbn [nth_error truthy_opt negb orb try_catch]; try discriminate.
  { destruct (negb (truthy ivHex)); discriminate. }
  destruct (negb (truthy ivHex) || negb (truthy encrypted)); [discriminate|].
  unfold createDecipheriv, check_key_iv.
  destruct (List.length (utf8 ENCRYPTION_KEY) =? 32) eqn:Ek; cbn [negb bind];
    [|discriminate].
  destruct (List.length (Hex.decode ivHex) =? 16) eqn:Ei; cbn [negb bind];
    [|discriminate].
  apply Nat.eqb_eq in Ek, Ei.
  unfold decipher_update. cbn [d_buf d_key d_chain d_held app].
  destruct (Hex.decode encrypted) as [|x xs] eqn:Ed.
  { cbn. discriminate. }
  destruct (cbc_decrypt (utf8 ENCRYPTION_KEY) (Hex.decode ivHex) (full_blocks (x :: xs)))
    as [ps ch].
  intros Hfinal.
  exists ivHex, encrypted, rest. split; [reflexivity|]. split; [exact Ek|].
  split; [exact Ei|]. rewrite Ed. split; [discriminate|].
  destruct (tail_bytes (x :: xs)) as [|y ys] eqn:Et.
  - unfold tail_bytes in Et.
    apply (f_equal (@List.length byte)) in Et. rewrite length_skipn in Et.
    change (List.length (@nil byte)) with 0 in Et.
    pose proof (Nat.div_mod_eq (List.length (x :: xs)) 16) as Hdm.
    remember (List.length (x :: xs)) as n eqn:Hn. clear Hn. lia.
  - exfalso. revert Hfinal. destruct ps; cbn; discriminate.
Qed.

End BlobFacts.

(* ------------------------------------------------------------------ *)
(** ** Aadhaar at rest: the hook, the readers and [updateAadhaar] *)

Section AadhaarAtRest.
Import UserModel UserMethods UserController.
Context {aes : AES256} {bc : Bcrypt}.
Variable cfg : Config.
Hypothesis aes_ok : block_cipher_ok aes.
Hypothesis key_length : String.length (ENCRYPTION_KEY cfg) = 32.

(** A run of the hook without error on a document whose [aadhaarNumber] is
    due and holds a non-empty text without [':'] leaves a blob of [encrypt]
    that decrypts to that text. *)
Lemma preSave_encrypts (d d1 : Document) (g g1 : Entropy) :
  aadhaar_due d = true ->
  aadhaarNumber (fields d) <> EmptyString ->
  includes Encryption.colon (aadhaarNumber (fields d)) = false ->
  preSave cfg d g = (None, d1, g1) ->
  Encryption.decrypt (ENCRYPTION_KEY cfg) (aadhaarNumber (fields d1)) =
    Ok (aadhaarNumber (fields d)) /\
  includes Encryption.colon (aadhaarNumber (fields d1)) = true /\
  (isNew d = false -> isModified PPassword d = false ->
   d1 = set_aadhaarNumber (aadhaarNumber (fields d1)) d).
Proof.
  intros Hdue Hne Hno. unfold preSave.
  assert (Hstep : forall d0 g0,
             aadhaarNumber (fields d0) = aadhaarNumber (fields d) ->
             exists blob g',
               Encryption.encrypt (ENCRYPTION_KEY cfg) (aadhaarNumber (fields d0)) g0 =
                 (Ok blob, g') /\
               Encryption.decrypt (ENCRYPTION_KEY cfg) blob = Ok (aadhaarNumber (fields d)) /\
               includes Encryption.colon blob = true).
  { intros d0 g0 Heq. rewrite Heq.
    destruct (encrypt_then_decrypt (ENCRYPTION_KEY cfg) aes_ok key_length
                (aadhaarNumber (fields d)) g0 Hne) as (ct & Henc & Hdec).
    do 2 eexists. split; [exact Henc|]. split; [exact Hdec|].
    apply includes_at_separator. }
  destruct (isNew d || isModified PPassword d) eqn:Hp.
  - destruct (hashPassword (SALT_ROUNDS cfg) (password (fields d)) g) as [[h|e] g'];
      [|discriminate].
    destruct (set_password_keeps h d) as [Ka Kd].
    fold (aadhaar_due (set_password h d)). rewrite Kd, Hdue, Ka, Hno. cbn [negb].
    destruct (Hstep d g' eq_refl) as (blob & g2 & Henc & Hdec & Hinc).
    rewrite Henc. intros [= <- <-]. cbn [fields set_aadhaarNumber aadhaarNumber].
    split; [exact Hdec|]. split; [exact Hinc|].
    intros Hnew Hmod. rewrite Hnew, Hmod in Hp. discriminate.
  - fold (aadhaar_due d). rewrite Hdue, Hno. cbn [negb].
    destruct (Hstep d g eq_refl) as (blob & g2 & Henc & Hdec & Hinc).
    rewrite Henc. intros [= <- <-]. cbn [fields set_aadhaarNumber aadhaarNumber].
    split; [exact Hdec|]. split; [exact Hinc|].
    intros _ _. reflexivity.
Qed.

(** X14. After the hook has run without error on a new or changed
    [aadhaarNumber] that is a non-empty text without [':'] (any Aadhaar
    number), the stored value is a blob, different from the text, and
    [getDecryptedAadhaar] and [getProfileData] give the text back. *)
Theorem saved_aadhaar_reads_back (d d1 : Document) (g g1 : Entropy)
  (Hdue : aadhaar_due d = true)
  (Hne : aadhaarNumber (fields d) <> EmptyString)
  (Hno : includes Encryption.colon (aadhaarNumber (fields d)) = false)
  (Hsaved : preSave cfg d g = (None, d1, g1)) :
  getDecryptedAadhaar cfg (fields d1) = Ok (aadhaarNumber (fields d)) /\
  pd_aadhaarNumber (getProfileData cfg (fields d1)) = Some (aadhaarNumber (fields d)) /\
  aadhaarNumber (fields d1) <> aadhaarNumber (fields d).
Proof.
  destruct (preSave_encrypts d d1 g g1 Hdue Hne Hno Hsaved) as (Hdec & Hinc & _).
  unfold getProfileData, getDecryptedAadhaar. cbn [pd_aadhaarNumber].
  rewrite Hdec. cbn [try_catch]. repeat split.
  intros Heq. rewrite Heq, Hno in Hinc. discriminate.
Qed.

Lemma is_aadhaar_plain (a : string) :
  is_aadhaar a = true -> a <> EmptyString /\ includes Encryption.colon a = false.
Proof.
  unfold is_aadhaar. intros H. apply andb_true_iff in H. destruct H as [Hlen Hd].
  apply Nat.eqb_eq in Hlen. split; [intros ->; discriminate|].
  clear Hlen. induction a as [|c a IH]; [reflexivity|].
  cbn [all_digits] in Hd. apply andb_true_iff in Hd. destruct Hd as [Hc Ha].
  cbn [includes]. rewrite (IH Ha).
  destruct (Ascii.eqb c Encryption.colon) eqn:E; [|reflexivity].
  apply Ascii.eqb_eq in E. subst c. discriminate Hc.
Qed.

Lemma findById_store (id : string) (d : Document) (db : DB) (u : Fields) :
  findById id db = Some u ->
  _id (fields d) = id ->
  findById id (store d db) =
  Some (List.fold_left (store_path (fields d)) (modifiedPaths d) u).
Proof.
  unfold findById. intros Hfind Hid.
  induction db as [|w db IH]; cbn [store List.find] in *; [discriminate|].
  rewrite Hid.
  destruct (String.eqb (_id w) id) eqn:Hw.
  - injection Hfind as ->. cbn [List.find].
    destruct (fold_store_path_keeps (fields d) (modifiedPaths d) u) as (A & _).
    rewrite A, Hw. reflexivity.
  - cbn [List.find]. rewrite Hw. apply IH, Hfind.
Qed.

Lemma findById_id (id : string) (db : DB) (u : Fields) :
  findById id db = Some u -> _id u = id.
Proof.
  intros H. apply List.find_some in H. destruct H as [_ H].
  now apply String.eqb_eq.
Qed.

(** X15. [updateAadhaar] with a 12-digit number and the right password, on
    an account whose stored value is a blob that does not decrypt to that
    number, answers 200 and leaves in the collection a blob that decrypts to
    the new number; the password hash, the email, the status, the counter
    and the lock of the account are as before. *)
Theorem updateAadhaar_stores_encrypted
  (userId aadhaarNumber' currentPassword : string) (now : Z)
  (db : DB) (g : Entropy) (u : Fields)
  (Hfind : findById userId db = Some u)
  (Hformat : is_aadhaar aadhaarNumber' = true)
  (Hpw : truthy currentPassword = true)
  (Hright : bcrypt_compare (Str currentPassword) (Str (password u)) = Ok true)
  (Hblob : includes Encryption.colon (aadhaarNumber u) = true)
  (Hnew : getDecryptedAadhaar cfg u <> Ok aadhaarNumber') :
  let o := updateAadhaar cfg userId aadhaarNumber' currentPassword now db g in
  response o = Json 200 true "Aadhaar number updated successfully" [] (Some now) /\
  exists u',
    findById userId (db_after o) = Some u' /\
    getDecryptedAadhaar cfg u' = Ok aadhaarNumber' /\
    includes Encryption.colon (UserModel.aadhaarNumber u') = true /\
    password u' = password u /\ email u' = email u /\ status u' = status u /\
    loginAttempts u' = loginAttempts u /\ lockUntil u' = lockUntil u.
Proof.
  intros o. subst o. unfold updateAadhaar.
  destruct (is_aadhaar_plain _ Hformat) as [Hne Hno].
  assert (Ht : truthy aadhaarNumber' = true)
    by (destruct aadhaarNumber'; [congruence | reflexivity]).
  rewrite Ht, Hpw, Hformat, Hfind, Hright. cbn [negb orb].
  assert (Hsame : match getDecryptedAadhaar cfg u with
                  | Ok currentAadhaar => String.eqb currentAadhaar aadhaarNumber'
                  | Throw _ => false
                  end = false).
  { destruct (getDecryptedAadhaar cfg u) as [cur|]; [|reflexivity].
    apply String.eqb_neq. congruence. }
  rewrite Hsame.
  set (doc := set_aadhaarNumber aadhaarNumber' (mkDocument u false [])).
  assert (Hchanged : String.eqb (UserModel.aadhaarNumber u) aadhaarNumber' = false).
  { apply String.eqb_neq. intros Heq. rewrite Heq, Hno in Hblob. discriminate. }
  assert (Hdoc : doc = mkDocument
                   (mkFields (_id u) (email u) (password u) aadhaarNumber' (status u)
                      (lastLogin u) (loginAttempts u) (lockUntil u))
                   false [PAadhaarNumber]).
  { unfold doc, set_aadhaarNumber, mark, isModified. cbn. rewrite Hchanged. reflexivity. }
  unfold save.
  destruct (preSave cfg doc g) as [[r d1] g1] eqn:Hpre.
  assert (Hr : r = None).
  { revert Hpre. rewrite Hdoc. unfold preSave. cbn [isNew isModified modifiedPaths
      existsb path_eqb orb fields UserModel.aadhaarNumber]. rewrite Hno. cbn [negb].
    destruct (encrypt_then_decrypt (ENCRYPTION_KEY cfg) aes_ok key_length
                aadhaarNumber' g Hne) as (ct & Henc & _).
    rewrite Henc. intros [= <- _ _]. reflexivity. }
  subst r.
  destruct (preSave_encrypts doc d1 g g1) as (Hdec & Hinc & Hd1);
    try (rewrite Hdoc; reflexivity); try (rewrite Hdoc; assumption); [exact Hpre|].
  specialize (Hd1 ltac:(rewrite Hdoc; reflexivity) ltac:(rewrite Hdoc; reflexivity)).
  set (blob := UserModel.aadhaarNumber (fields d1)) in *.
  rewrite Hdoc in Hd1, Hdec. cbn [fields UserModel.aadhaarNumber] in Hdec.
  assert (Hd1' : d1 = mkDocument
                   (mkFields (_id u) (email u) (password u) blob (status u)
                      (lastLogin u) (loginAttempts u) (lockUntil u))
                   false [PAadhaarNumber]).
  { rewrite Hd1. unfold set_aadhaarNumber, mark, isModified. cbn.
    rewrite andb_false_r. reflexivity. }
  clearbody blob. clear Hd1. subst d1. cbn [isNew response db_after].
  split; [reflexivity|].
  rewrite (findById_store userId _ db u Hfind)
    by (cbn; apply (findById_id _ _ _ Hfind)).
  eexists. split; [reflexivity|].
  cbn [modifiedPaths List.fold_left store_path fields].
  unfold getDecryptedAadhaar. cbn [UserModel.aadhaarNumber password email status
    loginAttempts lockUntil].
  rewrite Hdec. cbn [try_catch]. repeat split; auto.
Qed.

End AadhaarAtRest.

(* ------------------------------------------------------------------ *)
(** ** [changePassword] *)

Section ChangePassword.
Import UserModel UserMethods UserController.
Context {aes : AES256} {bc : Bcrypt}.
Variable cfg : Config.

Lemma hashPassword_ok (rounds : Z) (pw h : string) (g g' : Entropy) :
  hashPassword rounds pw g = (Ok h, g') ->
  bcrypt_hash pw rounds (fst (randomBytes 16 g)) = Ok h /\
  6 <= String.length pw.
Proof.
  unfold hashPassword.
  destruct (truthy pw); cbn [negb]; [|discriminate].
  destruct (String.length pw <? 6) eqn:E; [discriminate|].
  apply Nat.ltb_ge in E.
  destruct (randomBytes 16 g) as [salt g0]. cbn [fst].
  destruct (bcrypt_hash pw rounds salt) as [h0|e]; cbn [try_catch]; [|discriminate].
  intros [= <- _]. auto.
Qed.

(** X16. When [changePassword] answers 200 (the new password not being the
    stored hash string itself), the current password was accepted by
    [bcrypt.compare], the new one passed [validatePasswordStrength] and was
    not accepted against the old hash, and the stored [password] is the
    hash [bcrypt.hash] returned for the new password with the salt drawn;
    the stored [aadhaarNumber] blob, the email, the status, the counter and
    the lock are as before. *)
Theorem changePassword_stores_hash
  (userId currentPassword newPassword : string) (now : Z)
  (db : DB) (g : Entropy) (u : Fields)
  (msg : string) (errs : list string) (at_ : option Z)
  (Hfind : findById userId db = Some u)
  (Hdiff : newPassword <> password u)
  (Hok : response (changePassword cfg userId currentPassword newPassword now db g)
         = Json 200 true msg errs at_) :
  exists u',
    findById userId (db_after (changePassword cfg userId currentPassword newPassword now db g))
      = Some u' /\
    bcrypt_hash newPassword (SALT_ROUNDS cfg) (fst (randomBytes 16 g)) = Ok (password u') /\
    PasswordStrength.isValid (PasswordStrength.validatePasswordStrength newPassword) = true /\
    bcrypt_compare (Str currentPassword) (Str (password u)) = Ok true /\
    bcrypt_compare (Str newPassword) (Str (password u)) = Ok false /\
    aadhaarNumber u' = aadhaarNumber u /\ email u' = email u /\ status u' = status u /\
    loginAttempts u' = loginAttempts u /\ lockUntil u' = lockUntil u.
Proof.
  revert Hok. unfold changePassword.
  destruct (negb (truthy currentPassword) || negb (truthy newPassword)); [discriminate|].
  destruct (PasswordStrength.isValid _) eqn:Hvalid; cbn [negb]; [|discriminate].
  rewrite Hfind.
  destruct (bcrypt_compare (Str currentPassword) _) as [[|]|e1] eqn:Hcur;
    try discriminate.
  destruct (bcrypt_compare (Str newPassword) _) as [[|]|e2] eqn:Hnew;
    try discriminate.
  assert (Hchanged : String.eqb (password u) newPassword = false)
    by (apply String.eqb_neq; congruence).
  assert (Hdoc : set_password newPassword (mkDocument u false []) =
                 mkDocument
                   (mkFields (_id u) (email u) newPassword (aadhaarNumber u) (status u)
                      (lastLogin u) (loginAttempts u) (lockUntil u))
                   false [PPassword]).
  { unfold set_password, mark, isModified. cbn. rewrite Hchanged. reflexivity. }
  rewrite Hdoc. unfold save, preSave.
  cbn [isNew isModified modifiedPaths existsb path_eqb orb fields password].
  destruct (hashPassword (SALT_ROUNDS cfg) newPassword g) as [[h|e] g'] eqn:Hhash;
    [|discriminate].
  apply hashPassword_ok in Hhash. destruct Hhash as [Hh _].
  unfold set_password, mark, isModified.
  cbn [fields isNew modifiedPaths existsb path_eqb orb negb andb password
       aadhaarNumber _id email status lastLogin loginAttempts lockUntil].
  rewrite andb_false_r. cbn [existsb path_eqb orb response db_after].
  intros _. cbn [isNew].
  rewrite (findById_store userId _ db u Hfind)
    by (cbn; apply (findById_id _ _ _ Hfind)).
  eexists. split; [reflexivity|].
  cbn [modifiedPaths List.fold_left store_path fields password aadhaarNumber email
       status loginAttempts lockUntil].
  repeat split; auto.
Qed.

End ChangePassword.
(* ------------------------------------------------------------------ *)
(** ** The middleware and the refresh handler *)

Section MiddlewareFacts.
Import UserModel UserMethods JwtTools AuthMiddleware.

Lemma findById_in (id : string) (db : DB) (u : Fields) :
  findById id db = Some u -> In u db /\ _id u = id.
Proof.
  unfold findById. intros H. apply find_some in H. destruct H as [Hin He].
  apply String.eqb_eq in He. auto.
Qed.

Lemma findDecoded_in (decoded : Jwt.Payload) (db : DB) (u : Fields) :
  findDecoded decoded db = Some u ->
  In u db /\ Jwt.userId decoded = Some (_id u).
Proof.
  unfold findDecoded. destruct (Jwt.userId decoded) as [id|]; [|discriminate].
  intros H. apply findById_in in H. destruct H as [Hin <-]. auto.
Qed.

Variable wire : string -> option (Jwt.Payload * Jwt.Signature).
Variable cfg : Config.

(** X17. [authenticate] calls [next()] only for a header ['Bearer ' + token]
    whose token [verifyToken] accepts at that moment and whose [userId] is the
    id of a stored user with status ['active']; [req.user] then holds that
    user's id and email.  Every other request is answered with 401. *)
Theorem authenticate_sound (authorization : option string) (now : Z) (db : DB) :
  match authenticate wire cfg authorization now db with
  | NextWith r =>
      exists (token : string) (decoded : Jwt.Payload) (user : Fields),
        authorization = Some ("Bearer " ++ token)%string /\
        Jwt.verifyToken (JWT_SECRET cfg) (token_of_string wire token) now = Ok decoded /\
        Jwt.userId decoded = Some (_id user) /\
        In user db /\ status user = "active"%string /\
        r = Some (mkReqUser (_id user) (email user))
  | Respond code success msg => code = 401%Z /\ success = false
  end.
Proof.
  unfold authenticate.
  destruct (extractTokenFromHeader authorization) as [token|] eqn:Et;
    cbn [truthy_opt negb].
  2: { cbn. auto. }
  destruct (truthy token); cbn [negb]; [|cbn; auto].
  apply bearer_header in Et. destruct Et as [Eh _].
  destruct (Jwt.verifyToken (JWT_SECRET cfg) (token_of_string wire token) now)
    as [decoded|e] eqn:Ev.
  - destruct (findDecoded decoded db) as [user|] eqn:Ef; [|cbn; auto].
    apply findDecoded_in in Ef. destruct Ef as [Hin Hid].
    destruct (String.eqb (status user) "active") eqn:Es; cbn [negb]; [|cbn; auto].
    apply String.eqb_eq in Es. exists token, decoded, user. auto 10.
  - unfold authentication_failed. auto.
Qed.

(** X18. [optionalAuth] never answers itself: it calls [next()] with
    [req.user] set to what [authenticate] would set on the same request, and
    to [null] where [authenticate] would answer 401. *)
Theorem optionalAuth_agrees (authorization : option string) (now : Z) (db : DB) :
  optionalAuth wire cfg authorization now db =
  NextWith (match authenticate wire cfg authorization now db with
            | NextWith r => r
            | Respond _ _ _ => None
            end).
Proof.
  unfold optionalAuth, authenticate.
  destruct (extractTokenFromHeader authorization) as [token|];
    cbn [truthy_opt negb]; [|reflexivity].
  destruct (truthy token); cbn [negb]; [|reflexivity].
  destruct (Jwt.verifyToken (JWT_SECRET cfg) (token_of_string wire token) now)
    as [decoded|e]; [|reflexivity].
  destruct (findDecoded decoded db) as [user|]; [|reflexivity].
  destruct (String.eqb (status user) "active"); reflexivity.
Qed.

Lemma token_of_string_wire (w : string) (p : Jwt.Payload) (sig : Jwt.Signature) :
  truthy w = true -> wire w = Some (p, sig) ->
  token_of_string wire w = Jwt.Signed p sig.
Proof.
  intros Hw Hwire. unfold token_of_string. rewrite Hw, Hwire. reflexivity.
Qed.

(** X19. A request that carries an access token issued to a stored active
    user passes [authenticate] as that user until the token expires, and is
    answered 401 'Token has expired. Please login again.' from the second of
    its expiry on. *)
Theorem authenticate_issued_token
  (user : Fields) (db : DB) (w : string) (issued now : Z)
  (Hsecret : truthy (JWT_SECRET cfg) = true)
  (Hid : truthy (_id user) = true)
  (Hfind : findById (_id user) db = Some user)
  (Hactive : status user = "active"%string)
  (Hw : truthy w = true)
  (Hspace : includes space w = false)
  (Hissued :
     Jwt.generateToken (JWT_SECRET cfg)
       (Jwt.mkTokenRequest (Some (_id user)) (Some (email user)))
       (JWT_EXPIRE cfg) issued = Ok (token_of_string wire w)) :
  authenticate wire cfg (Some ("Bearer " ++ w)%string) now db =
  if (Jwt.seconds issued + JWT_EXPIRE cfg <=? Jwt.seconds now)%Z
  then Respond 401 false "Token has expired. Please login again."
  else NextWith (Some (mkReqUser (_id user) (email user))).
Proof.
  rewrite generateToken_ok in Hissued by assumption.
  injection Hissued as Htok.
  unfold authenticate.
  replace (extractTokenFromHeader (Some ("Bearer " ++ w)%string)) with (Some w)
    by (symmetry; apply bearer_token; exact Hspace).
  cbn [truthy_opt]. rewrite Hw. cbn [negb]. rewrite <- Htok.
  rewrite verifyToken_access.
  destruct (Jwt.seconds issued + JWT_EXPIRE cfg <=? Jwt.seconds now)%Z; [reflexivity|].
  unfold findDecoded. cbn [Jwt.userId access_payload Jwt.tr_userId].
  rewrite Hfind, Hactive. reflexivity.
Qed.

(** X20. [refreshToken] answers 200 only for a refresh token that
    [verifyRefreshToken] accepts at that moment and whose [userId] is the id
    of a stored user with status ['active']; the answer then carries a new
    access token and a new refresh token issued for that user at that
    moment. *)
Theorem refreshToken_sound
  (provided : Jwt.Token) (now : Z) (db : DB)
  (success : bool) (msg : string) (data : option RefreshData)
  (Hok : refreshToken cfg provided now db = RefreshJson 200 success msg data) :
  exists (decoded : Jwt.Payload) (user : Fields) (token refresh : Jwt.Token),
    Jwt.verifyRefreshToken (JWT_SECRET cfg) provided now = Ok decoded /\
    Jwt.userId decoded = Some (_id user) /\
    In user db /\ status user = "active"%string /\
    Jwt.generateToken (JWT_SECRET cfg)
      (Jwt.mkTokenRequest (Some (_id user)) (Some (email user)))
      (JWT_EXPIRE cfg) now = Ok token /\
    Jwt.generateRefreshToken (JWT_SECRET cfg)
      (Jwt.mkTokenRequest (Some (_id user)) None) now = Ok refresh /\
    data = Some (mkRefreshData token refresh (JWT_EXPIRE cfg)).
Proof.
  revert Hok. unfold refreshToken, refresh_body.
  destruct (Jwt.truthy_token provided); cbn [negb]; [|discriminate].
  destruct (Jwt.verifyRefreshToken (JWT_SECRET cfg) provided now) as [decoded|e] eqn:Ev;
    cbn [bind].
  2: { destruct (includes_text "expired" (message e) || includes_text "invalid" (message e));
       discriminate. }
  destruct (findDecoded decoded db) as [user|] eqn:Ef; [|discriminate].
  apply findDecoded_in in Ef. destruct Ef as [Hin Hid].
  destruct (String.eqb (status user) "active") eqn:Es; cbn [negb]; [|discriminate].
  apply String.eqb_eq in Es.
  destruct (Jwt.generateToken _ _ _ now) as [token|e1] eqn:Et; cbn [bind].
  2: { destruct (includes_text "expired" (message e1) || includes_text "invalid" (message e1));
       discriminate. }
  destruct (Jwt.generateRefreshToken _ _ now) as [refresh|e2] eqn:Er; cbn [bind].
  2: { destruct (includes_text "expired" (message e2) || includes_text "invalid" (message e2));
       discriminate. }
  intros [= <- <- <-]. exists decoded, user, token, refresh. auto 10.
Qed.

(** X21. A refresh token issued to a stored active user is exchanged by
    [refreshToken] until it expires, seven days after its issue: the answer is
    200 with a new pair issued at the moment of the request, and 401 'Invalid
    or expired refresh token. Please login again.' from the second of the
    expiry on. *)
Theorem refreshToken_issued_token
  (user : Fields) (db : DB) (issued now : Z) (provided : Jwt.Token)
  (Hsecret : truthy (JWT_SECRET cfg) = true)
  (Hid : truthy (_id user) = true)
  (Hfind : findById (_id user) db = Some user)
  (Hactive : status user = "active"%string)
  (Hissued :
     Jwt.generateRefreshToken (JWT_SECRET cfg)
       (Jwt.mkTokenRequest (Some (_id user)) None) issued = Ok provided) :
  refreshToken cfg provided now db =
  if (Jwt.seconds issued + 604800 <=? Jwt.seconds now)%Z
  then RefreshJson 401 false
         "Invalid or expired refresh token. Please login again." None
  else
    let access :=
      access_payload (Jwt.mkTokenRequest (Some (_id user)) (Some (email user)))
        (JWT_EXPIRE cfg) now in
    let refresh := refresh_payload (Jwt.mkTokenRequest (Some (_id user)) None) now in
    RefreshJson 200 true "Token refreshed successfully"
      (Some (mkRefreshData
               (Jwt.Signed access (Jwt.HS256 (JWT_SECRET cfg) access))
               (Jwt.Signed refresh (Jwt.HS256 (JWT_SECRET cfg) refresh))
               (JWT_EXPIRE cfg))).
Proof.
  rewrite generateRefreshToken_ok in Hissued by assumption.
  injection Hissued as <-.
  unfold refreshToken, refresh_body. cbn [Jwt.truthy_token negb].
  rewrite verifyRefreshToken_refresh.
  destruct (Jwt.seconds issued + 604800 <=? Jwt.seconds now)%Z; cbn [bind];
    [reflexivity|].
  unfold findDecoded. cbn [Jwt.userId refresh_payload Jwt.tr_userId].
  rewrite Hfind, Hactive. cbn [String.eqb negb].
  replace (String.eqb "active" "active") with true by reflexivity. cbn [negb].
  rewrite generateToken_ok, generateRefreshToken_ok by assumption.
  reflexivity.
Qed.

(** X22. Refusals of [refreshToken]: an absent token is answered 400; a
    token whose signature is not that of its payload under [JWT_SECRET], and
    an access token of [generateToken] that has not expired, get no answer
    of the handler: the error 'Invalid refresh token' goes to [next], since
    its message does not include the lower-case 'invalid' the handler looks
    for.  An access token that has expired is answered 401. *)
Theorem refreshToken_refused
  (req : Jwt.TokenRequest) (issued now : Z) (db : DB)
  (p : Jwt.Payload) (sig : Jwt.Signature)
  (Hsecret : truthy (JWT_SECRET cfg) = true)
  (Huser : truthy_opt (Jwt.tr_userId req) = true)
  (Hforged : Jwt.signature_eqb sig (Jwt.HS256 (JWT_SECRET cfg) p) = false) :
  refreshToken cfg Jwt.NoToken now db =
    RefreshJson 400 false "Refresh token is required" None /\
  refreshToken cfg (Jwt.Signed p sig) now db =
    RefreshNext (Error "Invalid refresh token") /\
  exists access : Jwt.Token,
    Jwt.generateToken (JWT_SECRET cfg) req (JWT_EXPIRE cfg) issued = Ok access /\
    refreshToken cfg access now db =
      if (Jwt.seconds issued + JWT_EXPIRE cfg <=? Jwt.seconds now)%Z
      then RefreshJson 401 false
             "Invalid or expired refresh token. Please login again." None
      else RefreshNext (Error "Invalid refresh token").
Proof.
  split; [reflexivity|]. split.
  - unfold refreshToken, refresh_body, Jwt.verifyRefreshToken, Jwt.verify.
    cbn [Jwt.truthy_token negb]. rewrite Hforged. reflexivity.
  - rewrite generateToken_ok by assumption. eexists. split; [reflexivity|].
    unfold refreshToken, refresh_body, Jwt.verifyRefreshToken.
    cbn [Jwt.truthy_token negb].
    rewrite verify_own_token by reflexivity.
    cbn [Jwt.exp access_payload].
    destruct (Jwt.seconds issued + JWT_EXPIRE cfg <=? Jwt.seconds now)%Z; reflexivity.
Qed.

End MiddlewareFacts.
(* ------------------------------------------------------------------ *)
(** ** The form helpers *)

Section FormFacts.
Import UserController FormHelpers.

Lemma keep_all_digits (s : string) :
  all_digits s = true -> keep PasswordStrength.is_digit s = s.
Proof.
  induction s as [|c s IH]; cbn [all_digits keep]; [reflexivity|].
  intros H. apply andb_true_iff in H. destruct H as [Hc Hs].
  rewrite Hc, (IH Hs). reflexivity.
Qed.

Lemma all_digits_keep (s : string) :
  all_digits (keep PasswordStrength.is_digit s) = true.
Proof.
  induction s as [|c s IH]; cbn [keep]; [reflexivity|].
  destruct (PasswordStrength.is_digit c) eqn:Hc; [|exact IH].
  cbn [all_digits]. rewrite Hc, IH. reflexivity.
Qed.

(** The three groups of twelve digits, joined by spaces, hold the twelve
    digits and nothing else that is a digit. *)
Lemma grouped_digits (cleaned : string) :
  is_aadhaar cleaned = true ->
  keep PasswordStrength.is_digit
    (String.substring 0 4 cleaned ++ " " ++ String.substring 4 4 cleaned ++ " " ++
     String.substring 8 4 cleaned)%string = cleaned.
Proof.
  unfold is_aadhaar. intros H. apply andb_true_iff in H. destruct H as [Hlen Hd].
  apply Nat.eqb_eq in Hlen.
  do 12 (destruct cleaned as [|? cleaned]; [discriminate Hlen|]).
  destruct cleaned; [|discriminate Hlen].
  cbn [all_digits] in Hd. rewrite !andb_true_iff in Hd.
  destruct Hd as (H1 & H2 & H3 & H4 & H5 & H6 & H7 & H8 & H9 & H10 & H11 & H12 & _).
  cbn [String.substring append keep].
  rewrite H1, H2, H3, H4, H5, H6, H7, H8, H9, H10, H11, H12.
  reflexivity.
Qed.

Lemma keep_none (class : ascii -> bool) (s : string) :
  keep (fun c => negb (class c)) (keep class s) = EmptyString.
Proof.
  induction s as [|c s IH]; cbn [keep]; [reflexivity|].
  destruct (class c) eqn:Hc; [|exact IH].
  cbn [keep]. rewrite Hc. exact IH.
Qed.

(** Between the groups of twelve digits stand two spaces, after the fourth
    and after the eighth digit, and nothing else that is not a digit. *)
Lemma grouped_spaces (cleaned : string) :
  is_aadhaar cleaned = true ->
  let grouped :=
    (String.substring 0 4 cleaned ++ " " ++ String.substring 4 4 cleaned ++ " " ++
     String.substring 8 4 cleaned)%string in
  keep (fun c => negb (PasswordStrength.is_digit c)) grouped = "  "%string /\
  String.get 4 grouped = Some " "%char /\
  String.get 9 grouped = Some " "%char.
Proof.
  unfold is_aadhaar. intros H. apply andb_true_iff in H. destruct H as [Hlen Hd].
  apply Nat.eqb_eq in Hlen.
  do 12 (destruct cleaned as [|? cleaned]; [discriminate Hlen|]).
  destruct cleaned; [|discriminate Hlen].
  cbn [all_digits] in Hd. rewrite !andb_true_iff in Hd.
  destruct Hd as (H1 & H2 & H3 & H4 & H5 & H6 & H7 & H8 & H9 & H10 & H11 & H12 & _).
  cbn [String.substring append keep String.get].
  rewrite H1, H2, H3, H4, H5, H6, H7, H8, H9, H10, H11, H12.
  repeat split; reflexivity.
Qed.

(** X23. [formatAadhaar] keeps exactly the digits of its input, in their
    order; the only other characters of its result are two spaces, after
    the fourth and after the eighth digit, there exactly when the input holds
    twelve digits; formatting a formatted value changes nothing. *)
Theorem formatAadhaar_idempotent (aadhaar : string) :
  keep PasswordStrength.is_digit (formatAadhaar aadhaar) =
    keep PasswordStrength.is_digit aadhaar /\
  keep (fun c => negb (PasswordStrength.is_digit c)) (formatAadhaar aadhaar) =
    (if String.length (keep PasswordStrength.is_digit aadhaar) =? 12
     then "  "%string else EmptyString) /\
  (String.length (keep PasswordStrength.is_digit aadhaar) = 12 ->
   String.get 4 (formatAadhaar aadhaar) = Some " "%char /\
   String.get 9 (formatAadhaar aadhaar) = Some " "%char) /\
  formatAadhaar (formatAadhaar aadhaar) = formatAadhaar aadhaar.
Proof.
  assert (Htwelve : is_aadhaar (keep PasswordStrength.is_digit aadhaar) =
                    (String.length (keep PasswordStrength.is_digit aadhaar) =? 12)).
  { unfold is_aadhaar. rewrite all_digits_keep. apply andb_true_r. }
  assert (Hdigits : keep PasswordStrength.is_digit (formatAadhaar aadhaar) =
                    keep PasswordStrength.is_digit aadhaar).
  { unfold formatAadhaar, groups.
    destruct (is_aadhaar (keep PasswordStrength.is_digit aadhaar)) eqn:Ea.
    - apply grouped_digits. exact Ea.
    - apply keep_all_digits, all_digits_keep. }
  split; [exact Hdigits|]. split; [|split].
  - rewrite <- Htwelve. unfold formatAadhaar, groups.
    destruct (is_aadhaar (keep PasswordStrength.is_digit aadhaar)) eqn:Ea.
    + apply (grouped_spaces _ Ea).
    + apply keep_none.
  - intros Hlen. apply Nat.eqb_eq in Hlen. rewrite <- Htwelve in Hlen.
    unfold formatAadhaar, groups. rewrite Hlen.
    split; apply (grouped_spaces _ Hlen).
  - unfold formatAadhaar at 1. rewrite Hdigits. reflexivity.
Qed.

Lemma substring_length (s : string) (n m : nat) :
  n + m <= String.length s -> String.length (String.substring n m s) = m.
Proof.
  revert n m; induction s as [|c s IH]; intros n m H; cbn [String.length] in H.
  - destruct n, m; cbn; lia.
  - destruct n as [|n]; cbn [String.substring].
    + destruct m as [|m]; [reflexivity|]. cbn [String.length]. rewrite IH; lia.
    + apply IH. lia.
Qed.


Lemma substring_past (p l : string) (n : nat) :
  String.substring (String.length p) n (p ++ l)%string = String.substring 0 n l.
Proof. induction p as [|c p IH]; cbn; [reflexivity | exact IH]. Qed.

Lemma substring_whole (l : string) :
  String.substring 0 (String.length l) l = l.
Proof. induction l as [|c l IH]; cbn; [reflexivity | now rewrite IH]. Qed.

(** X25. [maskAadhaar] shows the last four characters of a value of four
    characters or more behind the mask 'XXXX XXXX ' and nothing of what comes
    before them; its result is fourteen characters long for every input. *)
Theorem maskAadhaar_last_four (aadhaar : string) :
  String.length (maskAadhaar aadhaar) = 14 /\
  forall hidden shown : string,
    aadhaar = (hidden ++ shown)%string -> String.length shown = 4 ->
    maskAadhaar aadhaar = ("XXXX XXXX " ++ shown)%string.
Proof.
  assert (Hshown : forall hidden shown : string,
             aadhaar = (hidden ++ shown)%string -> String.length shown = 4 ->
             maskAadhaar aadhaar = ("XXXX XXXX " ++ shown)%string).
  { intros hidden shown -> Hlen. unfold maskAadhaar.
    rewrite string_length_append, Hlen.
    replace (truthy (hidden ++ shown)) with true.
    2: { destruct hidden; [destruct shown; [discriminate Hlen|]|]; reflexivity. }
    replace (4 <=? String.length hidden + 4) with true
      by (symmetry; apply Nat.leb_le; lia).
    cbn [andb].
    replace (String.length hidden + 4 - 4) with (String.length hidden) by lia.
    rewrite substring_past, <- Hlen, substring_whole. reflexivity. }
  split; [|exact Hshown].
  unfold maskAadhaar.
  destruct (truthy aadhaar && (4 <=? String.length aadhaar)) eqn:E; [|reflexivity].
  apply andb_true_iff in E. destruct E as [_ E]. apply Nat.leb_le in E.
  rewrite string_length_append, substring_length by lia. reflexivity.
Qed.

End FormFacts.
(* ------------------------------------------------------------------ *)
(** ** The further properties on the sample accounts *)

Section FurtherRuns.
Import UserModel UserMethods AuthController JwtTools AuthMiddleware.
#[local] Existing Instance Sample.xor_aes.
#[local] Existing Instance Sample.plain_bcrypt.

Lemma issued_tokens_verify_witness :
  exists access refresh : Jwt.Token,
    Jwt.generateToken "k" (Jwt.mkTokenRequest (Some "u1"%string) None) 86400 0 = Ok access /\
    Jwt.generateRefreshToken "k" (Jwt.mkTokenRequest (Some "u1"%string) None) 0 = Ok refresh /\
    ((Jwt.seconds 5000 < Jwt.seconds 0 + 86400)%Z ->
     Jwt.verifyToken "k" access 5000 =
     Ok (access_payload (Jwt.mkTokenRequest (Some "u1"%string) None) 86400 0)) /\
    ((Jwt.seconds 5000 < Jwt.seconds 0 + 604800)%Z ->
     Jwt.verifyRefreshToken "k" refresh 5000 =
     Ok (refresh_payload (Jwt.mkTokenRequest (Some "u1"%string) None) 0)).
Proof.
  exact (issued_tokens_verify "k" (Jwt.mkTokenRequest (Some "u1"%string) None)
           86400 0 5000 eq_refl eq_refl).
Defined.

Lemma isTokenExpired_boundary_witness :
  exists access : Jwt.Token,
    Jwt.generateToken "k" (Jwt.mkTokenRequest (Some "u1"%string) None) 86400 0 = Ok access /\
    isTokenExpired access 86400000 = false /\
    Jwt.verifyToken "k" access 86400000 = Throw (Error "Token has expired").
Proof.
  destruct (isTokenExpired_boundary "k" (Jwt.mkTokenRequest (Some "u1"%string) None)
              86400 0 86400000 eq_refl eq_refl eq_refl)
    as (access & Hgen & _ & _ & Hlast).
  exists access. split; [exact Hgen|]. apply Hlast. reflexivity.
Defined.

Lemma login_keeps_lock_counted_witness :
  let requests := [mkRequest "bob@example.com" "guess" 1000000;
                   mkRequest "alice@example.com" "guess" 1000001;
                   mkRequest "alice@example.com" "Correct#1" 1000002] in
  Forall lock_counted
    (fst (serve Sample.cfg requests [Sample.alice; Sample.bob] Sample.entropy)) /\
  NoDup (List.map _id
           (fst (serve Sample.cfg requests [Sample.alice; Sample.bob] Sample.entropy))).
Proof.
  apply (login_keeps_lock_counted Sample.cfg).
  - constructor; [intros [H|[]]; discriminate H|].
    constructor; [intros [] | constructor].
  - constructor; [|constructor; [|constructor]].
    + split; [discriminate | intros t H; discriminate H].
    + split; [discriminate | intros t H; discriminate].
Defined.

Lemma login_success_sound_witness :
  exists (u : Fields) (d : LoginData),
    findByEmail "alice@example.com" [Sample.alice; Sample.bob] = Some u /\
    isLocked u 1000 = false /\
    status u = "active"%string /\
    bcrypt_compare (Str "Correct#1") (Str (password u)) = Ok true /\
    response (login Sample.cfg "alice@example.com" "Correct#1" 1000
                [Sample.alice; Sample.bob] Sample.entropy) =
      Json 200 true "Login successful" (Some d) /\
    su_id (ld_user d) = _id u /\ su_email (ld_user d) = email u.
Proof.
  set (data := match response (login Sample.cfg "alice@example.com" "Correct#1" 1000
                                  [Sample.alice; Sample.bob] Sample.entropy) with
               | Json _ _ _ data => data
               | Next _ => None
               end).
  assert (Hok : response (login Sample.cfg "alice@example.com" "Correct#1" 1000
                            [Sample.alice; Sample.bob] Sample.entropy) =
                Json 200 true "Login successful" data)
    by (vm_compute; reflexivity).
  destruct (login_success_sound Sample.cfg "alice@example.com" "Correct#1" 1000
              [Sample.alice; Sample.bob] Sample.entropy
              "Login successful" data Hok)
    as (u & d & Hfind & Hl & Hs & Hc & Hd & Hid & Hem).
  exists u, d. repeat split; try assumption.
  rewrite <- Hd. exact Hok.
Defined.

Lemma login_inactive_account_witness :
  login Sample.cfg "dave@example.com" "Quiet#77" 1000
    [Sample.alice; Accounts.dave] Sample.entropy =
  mkOutcome (Json 401 false "Account is inactive. Please contact support." None)
    [Sample.alice; Accounts.dave] Sample.entropy [].
Proof.
  apply (login_inactive_account Sample.cfg "dave@example.com" "Quiet#77" 1000
           [Sample.alice; Accounts.dave] Sample.entropy Accounts.dave);
    [reflexivity | reflexivity | reflexivity | discriminate].
Defined.

Lemma login_success_witness :
  let o := login Sample.cfg "alice@example.com" "Correct#1" 1000
             [Sample.alice; Sample.bob] Sample.entropy in
  exists (access refresh : Jwt.Token) (u' : Fields),
    response o =
      Json 200 true "Login successful"
        (Some (mkLoginData
                 (mkSafeUser "u1" "alice@example.com" "active" (Some 1000%Z))
                 access refresh 86400)) /\
    (exists p, Jwt.verifyToken (JWT_SECRET Sample.cfg) access 86400999 = Ok p /\
               Jwt.userId p = Some "u1"%string) /\
    findByEmail "alice@example.com" (db_after o) = Some u' /\
    loginAttempts_of u' = 0%Z /\ lockUntil u' = None /\ lastLogin u' = Some 1000%Z.
Proof.
  intros o.
  destruct (login_success Sample.cfg "alice@example.com" "Correct#1" 1000
              [Sample.alice; Sample.bob] Sample.entropy Sample.alice)
    as (access & refresh & u' & Hr & Ha & _ & Hf & Hn & Hl & Hll & _);
    try reflexivity.
  - constructor; [intros [H|[]]; discriminate H|].
    constructor; [intros [] | constructor].
  - split; [discriminate | intros t H; discriminate H].
  - exists access, refresh, u'.
    split; [exact Hr|]. split; [|auto].
    destruct (Ha 86400999%Z eq_refl) as (p & Hp & Hu & _). exists p. auto.
Defined.

Lemma encrypt_blob_format_witness :
  exists (iv ct : list byte) (blob : string),
    fst (Encryption.encrypt Sample.key "123456789012" Sample.entropy) = Ok blob /\
    blob = (Hex.encode iv ++ String Encryption.colon (Hex.encode ct))%string /\
    List.length iv = 16 /\ List.length ct = 16 /\
    Encryption.isValidEncryptedFormat blob = true /\
    String.length blob = 65.
Proof.
  destruct (encrypt_blob_format Sample.key xor_aes_ok eq_refl
              "123456789012" Sample.entropy)
    as (iv & ct & blob & H1 & H2 & H3 & H4 & _ & _ & H7 & H8);
    [discriminate|].
  exists iv, ct, blob. auto 10.
Defined.

Lemma decrypt_ok_shape_witness :
  exists (ivHex encrypted : string) (rest : list string),
    split Encryption.colon ((UserModel.aadhaarNumber Accounts.erin)) =
      ivHex :: encrypted :: rest /\
    List.length (Hex.decode ivHex) = 16 /\
    List.length (Hex.decode encrypted) mod 16 = 0.
Proof.
  destruct (decrypt_ok_shape Sample.key (UserModel.aadhaarNumber Accounts.erin) "123456789012")
    as (ivHex & encrypted & rest & H1 & _ & H3 & _ & H5);
    [vm_compute; reflexivity|].
  exists ivHex, encrypted, rest. auto.
Defined.

Lemma saved_aadhaar_reads_back_witness :
  let run := preSave Sample.cfg Sample.registration Sample.entropy in
  getDecryptedAadhaar Sample.cfg (fields (snd (fst run))) = Ok "123456789012"%string /\
  pd_aadhaarNumber (getProfileData Sample.cfg (fields (snd (fst run)))) =
    Some "123456789012"%string /\
  aadhaarNumber (fields (snd (fst run))) <> "123456789012"%string.
Proof.
  intros run.
  apply (saved_aadhaar_reads_back Sample.cfg xor_aes_ok eq_refl
           Sample.registration (snd (fst run)) Sample.entropy (snd run));
    [reflexivity | discriminate | reflexivity | reflexivity].
Defined.

Lemma updateAadhaar_stores_encrypted_witness :
  let o := UserController.updateAadhaar Sample.cfg "u5" "999988887777" "Correct#1" 1000
             [Sample.alice; Accounts.erin] Sample.entropy in
  UserController.response o =
    UserController.Json 200 true "Aadhaar number updated successfully" []
      (Some 1000%Z) /\
  exists u',
    findById "u5" (UserController.db_after o) = Some u' /\
    getDecryptedAadhaar Sample.cfg u' = Ok "999988887777"%string /\
    password u' = password Accounts.erin.
Proof.
  intros o.
  destruct (updateAadhaar_stores_encrypted Sample.cfg xor_aes_ok eq_refl
              "u5" "999988887777" "Correct#1" 1000
              [Sample.alice; Accounts.erin] Sample.entropy Accounts.erin)
    as (Hr & u' & Hf & Hd & _ & Hp & _);
    try reflexivity.
  - vm_compute. discriminate.
  - split; [exact Hr|]. exists u'. auto.
Defined.

Lemma changePassword_stores_hash_witness :
  exists u',
    findById "u1"
      (UserController.db_after
         (UserController.changePassword Sample.cfg "u1" "Correct#1" "Better#Pass9" 1000
            [Sample.alice; Sample.bob] Sample.entropy)) = Some u' /\
    password u' = "$2b$Better#Pass9"%string /\
    aadhaarNumber u' = aadhaarNumber Sample.alice.
Proof.
  destruct (changePassword_stores_hash Sample.cfg "u1" "Correct#1" "Better#Pass9" 1000
              [Sample.alice; Sample.bob] Sample.entropy Sample.alice
              "Password changed successfully" [] (Some 1000%Z))
    as (u' & Hf & Hh & _ & _ & _ & Ha & _);
    [reflexivity | discriminate | reflexivity |].
  exists u'. split; [exact Hf|]. split; [|exact Ha].
  cbn in Hh. congruence.
Defined.

Lemma authenticate_issued_token_witness :
  authenticate Accounts.wire Sample.cfg (Some "Bearer alice.access.0"%string) 5000
    [Sample.alice; Sample.bob] =
    NextWith (Some (mkReqUser "u1" "alice@example.com")) /\
  authenticate Accounts.wire Sample.cfg (Some "Bearer alice.access.0"%string) 86400000
    [Sample.alice; Sample.bob] =
    Respond 401 false "Token has expired. Please login again.".
Proof.
  split.
  - apply (authenticate_issued_token Accounts.wire Sample.cfg Sample.alice
             [Sample.alice; Sample.bob] "alice.access.0" 0 5000); reflexivity.
  - apply (authenticate_issued_token Accounts.wire Sample.cfg Sample.alice
             [Sample.alice; Sample.bob] "alice.access.0" 0 86400000); reflexivity.
Defined.

Lemma refreshToken_sound_witness :
  exists (decoded : Jwt.Payload) (user : Fields),
    Jwt.verifyRefreshToken (JWT_SECRET Sample.cfg)
      (Jwt.Signed Accounts.alice_refresh
         (Jwt.HS256 (JWT_SECRET Sample.cfg) Accounts.alice_refresh)) 5000 = Ok decoded /\
    Jwt.userId decoded = Some (_id user) /\
    In user [Sample.alice; Sample.bob] /\ status user = "active"%string.
Proof.
  set (provided := Jwt.Signed Accounts.alice_refresh
                     (Jwt.HS256 (JWT_SECRET Sample.cfg) Accounts.alice_refresh)).
  set (data := match refreshToken Sample.cfg provided 5000 [Sample.alice; Sample.bob] with
               | RefreshJson _ _ _ data => data
               | RefreshNext _ => None
               end).
  assert (Hok : refreshToken Sample.cfg provided 5000 [Sample.alice; Sample.bob] =
                RefreshJson 200 true "Token refreshed successfully" data)
    by (vm_compute; reflexivity).
  destruct (refreshToken_sound Sample.cfg provided 5000 [Sample.alice; Sample.bob]
              true "Token refreshed successfully" data Hok)
    as (decoded & user & _ & _ & Hv & Hu & Hin & Hs & _).
  exists decoded, user. auto.
Defined.

Lemma refreshToken_issued_token_witness :
  exists access refresh : Jwt.Token,
    refreshToken Sample.cfg
      (Jwt.Signed Accounts.alice_refresh
         (Jwt.HS256 (JWT_SECRET Sample.cfg) Accounts.alice_refresh))
      5000 [Sample.alice; Sample.bob] =
    RefreshJson 200 true "Token refreshed successfully"
      (Some (mkRefreshData access refresh 86400)) /\
    refreshToken Sample.cfg
      (Jwt.Signed Accounts.alice_refresh
         (Jwt.HS256 (JWT_SECRET Sample.cfg) Accounts.alice_refresh))
      604800000 [Sample.alice; Sample.bob] =
    RefreshJson 401 false "Invalid or expired refresh token. Please login again." None.
Proof.
  do 2 eexists. split.
  - apply (refreshToken_issued_token Sample.cfg Sample.alice
             [Sample.alice; Sample.bob] 0 5000); reflexivity.
  - apply (refreshToken_issued_token Sample.cfg Sample.alice
             [Sample.alice; Sample.bob] 0 604800000); reflexivity.
Defined.

Lemma refreshToken_refused_witness :
  refreshToken Sample.cfg
    (Jwt.Signed Accounts.alice_refresh (Jwt.HS256 "guessed-secret" Accounts.alice_refresh))
    5000 [Sample.alice; Sample.bob] =
    RefreshNext (Error "Invalid refresh token") /\
  refreshToken Sample.cfg
    (Jwt.Signed Accounts.alice_access
       (Jwt.HS256 (JWT_SECRET Sample.cfg) Accounts.alice_access))
    5000 [Sample.alice; Sample.bob] =
    RefreshNext (Error "Invalid refresh token").
Proof.
  destruct (refreshToken_refused Sample.cfg
              (Jwt.mkTokenRequest (Some "u1"%string) (Some "alice@example.com"%string))
              0 5000 [Sample.alice; Sample.bob]
              Accounts.alice_refresh
              (Jwt.HS256 "guessed-secret" Accounts.alice_refresh)
              eq_refl eq_refl eq_refl)
    as (_ & Hforged & access & Hgen & Haccess).
  split; [exact Hforged|].
  injection Hgen as <-. exact Haccess.
Defined.

End FurtherRuns.
